(** * Dialogflow CX automation: graph compiler and synchronisation engine

    A shallow embedding of [csv_to_dialogflow_json.py] and
    [upload_to_dialogflow.py], followed by the properties of the
    specification that were checked against it.

    Conventions of the embedding.
    - A Python [str] is a [string]: the sequence of its UTF-8 bytes.  The
      character classes of Python ([str.strip], [str.split], [str.lower],
      [\s] in [re]) are modelled on the ASCII range; a byte above 127 is an
      opaque character that is neither whitespace nor a letter.  The em-dash
      of the sentinel sets is the three bytes of its UTF-8 encoding.
    - A dictionary whose iteration order is observable (it is serialised or
      iterated) is an association list in insertion order; a dictionary that
      is only looked up is a [gmap]; a Python [set] is a [gset].
    - [print] and [logger] output is not part of the model, except for the
      cardinality warning of [parse_next_pages].
    - The exceptions of the uploader that the model has are the ones of type
      [exn].  A [Retry-After] header is absent or a natural number, so
      [int] and [time.sleep] accept it; renewing the credentials always
      gives a token.  A header that is no such number and a credential
      source that fails raise exceptions that are outside the model. *)

From Stdlib Require Import String Ascii ZArith Lia List Bool Arith DecimalString.
From stdpp Require Import base gmap strings list.
Import ListNotations.
Open Scope string_scope.
Open Scope nat_scope.
Open Scope list_scope.

(** ** Python string primitives *)

Module PyStr.

(** Truthiness of a [str]: the empty string is falsy. *)
Definition truthy (s : string) : bool :=
  match s with EmptyString => false | String _ _ => true end.

(** Truthiness of an [Optional[str]]. *)
Definition truthy_opt (o : option string) : bool :=
  match o with None => false | Some s => truthy s end.

(** [s in {...}] and [s in [...]] for a literal collection of strings. *)
Definition str_in (s : string) (l : list string) : bool :=
  existsb (String.eqb s) l.

(** ASCII whitespace as [str.isspace] has it: TAB, LF, VT, FF, CR,
    FS, GS, RS, US and SPACE. *)
Definition is_space (c : ascii) : bool :=
  let n := nat_of_ascii c in
  ((9 <=? n) && (n <=? 13)) || ((28 <=? n) && (n <=? 32)).

Definition newline : ascii := ascii_of_nat 10.
Definition dquote : ascii := ascii_of_nat 34.

Fixpoint lstrip_by (f : ascii -> bool) (s : string) : string :=
  match s with
  | EmptyString => EmptyString
  | String c s' => if f c then lstrip_by f s' else s
  end.

Fixpoint rstrip_by (f : ascii -> bool) (s : string) : string :=
  match s with
  | EmptyString => EmptyString
  | String c s' =>
      match rstrip_by f s' with
      | EmptyString => if f c then EmptyString else String c EmptyString
      | r => String c r
      end
  end.

(** [s.strip(chars)] for the predicate [f] holding of [chars]. *)
Definition strip_by (f : ascii -> bool) (s : string) : string :=
  lstrip_by f (rstrip_by f s).

(** [s.strip()] *)
Definition strip (s : string) : string := strip_by is_space s.

(** [c in s] for a one-character [c]. *)
Fixpoint contains (c : ascii) (s : string) : bool :=
  match s with
  | EmptyString => false
  | String d s' => Ascii.eqb c d || contains c s'
  end.

(** [s.startswith(p)] *)
Fixpoint startswith (p s : string) : bool :=
  match p, s with
  | EmptyString, _ => true
  | String a p', String b s' => Ascii.eqb a b && startswith p' s'
  | String _ _, EmptyString => false
  end.

(** [s.split(c)] for a one-character separator: never empty. *)
Fixpoint split (c : ascii) (s : string) : list string :=
  match s with
  | EmptyString => [EmptyString]
  | String d s' =>
      if Ascii.eqb c d then EmptyString :: split c s'
      else match split c s' with
           | [] => [String d EmptyString]
           | w :: ws => String d w :: ws
           end
  end.

(** [s.split(c, 1)] when [c] occurs in [s]: the text before and after the
    first occurrence; [None] when [c] does not occur. *)
Fixpoint split1 (c : ascii) (s : string) : option (string * string) :=
  match s with
  | EmptyString => None
  | String d s' =>
      if Ascii.eqb c d then Some (EmptyString, s')
      else match split1 c s' with
           | Some (a, b) => Some (String d a, b)
           | None => None
           end
  end.

(** [s.split()]: the maximal runs of non-whitespace characters. *)
Fixpoint split_ws_aux (cur : option string) (s : string) : list string :=
  match s with
  | EmptyString => match cur with Some w => [w] | None => [] end
  | String c s' =>
      if is_space c
      then match cur with
           | Some w => w :: split_ws_aux None s'
           | None => split_ws_aux None s'
           end
      else split_ws_aux
             (Some (match cur with
                    | Some w => w +:+ String c EmptyString
                    | None => String c EmptyString
                    end)) s'
  end.

Definition split_ws (s : string) : list string := split_ws_aux None s.

(** [sep.join(l)] *)
Fixpoint join (sep : string) (l : list string) : string :=
  match l with
  | [] => EmptyString
  | [w] => w
  | w :: ws => w +:+ sep +:+ join sep ws
  end.

(** [s.replace(old, new)] for a non-empty [old]: occurrences are replaced
    from the left and do not overlap.  [skip] counts the characters of a
    matched occurrence that are still to be consumed. *)
Fixpoint replace_aux (old new : string) (skip : nat) (s : string) : string :=
  match s with
  | EmptyString => EmptyString
  | String c s' =>
      match skip with
      | S k => replace_aux old new k s'
      | O =>
          if startswith old s
          then new +:+ replace_aux old new (String.length old - 1) s'
          else String c (replace_aux old new 0 s')
      end
  end.

Definition replace (old new s : string) : string := replace_aux old new 0 s.

(** [s.lower()] on ASCII letters. *)
Definition lower_ascii (c : ascii) : ascii :=
  let n := nat_of_ascii c in
  if (65 <=? n) && (n <=? 90) then ascii_of_nat (n + 32) else c.

Fixpoint lower (s : string) : string :=
  match s with
  | EmptyString => EmptyString
  | String c s' => String (lower_ascii c) (lower s')
  end.

Fixpoint filter_chars (f : ascii -> bool) (s : string) : string :=
  match s with
  | EmptyString => EmptyString
  | String c s' => if f c then String c (filter_chars f s') else filter_chars f s'
  end.

(** The character class [[a-z0-9_]]. *)
Definition is_ident_char (c : ascii) : bool :=
  let n := nat_of_ascii c in
  ((97 <=? n) && (n <=? 122)) || ((48 <=? n) && (n <=? 57)) || (n =? 95).

Definition is_underscore (c : ascii) : bool := Ascii.eqb c "_"%char.

(** [re.sub(r"[^a-z0-9_]", "", s)] *)
Definition sub_non_ident (s : string) : string := filter_chars is_ident_char s.

(** [re.sub(cls+, "_", s)] for a one-character class [cls]: every maximal
    run of characters of the class becomes a single underscore. *)
Fixpoint sub_runs (cls : ascii -> bool) (s : string) : string :=
  match s with
  | EmptyString => EmptyString
  | String c s' =>
      if cls c
      then match s' with
           | String d _ => if cls d then sub_runs cls s'
                           else String "_"%char (sub_runs cls s')
           | EmptyString => String "_"%char EmptyString
           end
      else String c (sub_runs cls s')
  end.

Definition upper_ascii (c : ascii) : ascii :=
  let n := nat_of_ascii c in
  if (97 <=? n) && (n <=? 122) then ascii_of_nat (n - 32) else c.

Definition is_cased (c : ascii) : bool :=
  let n := nat_of_ascii c in
  ((65 <=? n) && (n <=? 90)) || ((97 <=? n) && (n <=? 122)).

(** [s.title()] on ASCII letters: a letter that follows a letter is
    lower-cased, any other letter is upper-cased. *)
Fixpoint title_aux (after_cased : bool) (s : string) : string :=
  match s with
  | EmptyString => EmptyString
  | String c s' =>
      if is_cased c
      then String (if after_cased then lower_ascii c else upper_ascii c)
                  (title_aux true s')
      else String c (title_aux false s')
  end.

Definition title (s : string) : string := title_aux false s.

(** [s.rfind(c)] for a one-character [c]. *)
Fixpoint rfind (c : ascii) (s : string) : option nat :=
  match s with
  | EmptyString => None
  | String d s' =>
      match rfind c s' with
      | Some i => Some (S i)
      | None => if Ascii.eqb c d then Some 0 else None
      end
  end.

(** [str(n)] for a non-negative [int]. *)
Definition str_nat (n : nat) : string :=
  NilZero.string_of_uint (Nat.to_uint n).

End PyStr.

Import PyStr.

(** ** Insertion-ordered dictionaries

    A Python [dict] keyed by strings whose order is observable: assigning to
    a key that is present keeps its position, a new key goes to the end. *)

Module PyDict.
Section Dict.
Context {V : Type}.

Definition dict := list (string * V).

Fixpoint get (k : string) (d : dict) : option V :=
  match d with
  | [] => None
  | (k', v) :: d' => if String.eqb k k' then Some v else get k d'
  end.

(** [d[k] = v] *)
Fixpoint set (k : string) (v : V) (d : dict) : dict :=
  match d with
  | [] => [(k, v)]
  | (k', v') :: d' =>
      if String.eqb k k' then (k', v) :: d' else (k', v') :: set k v d'
  end.

(** [d.setdefault(k, v)]: the dictionary afterwards and the value found. *)
Definition setdefault (k : string) (v : V) (d : dict) : dict * V :=
  match get k d with
  | Some v' => (d, v')
  | None => (set k v d, v)
  end.

(** [not d] *)
Definition is_empty_list (d : dict) : bool :=
  match d with [] => true | _ => false end.

Definition keys (d : dict) : list string := map fst d.
Definition values (d : dict) : list V := map snd d.
End Dict.
Arguments dict V : clear implicits.
End PyDict.

(** ** csv_to_dialogflow_json.py *)

Module Csv.

(** A cell of the data frame: a missing value ([float('nan')]), [None]
    (what [row.get] gives for a column the frame does not have) or any
    other value, given by its rendering under [str()]. *)
Inductive cell :=
| NaN
| PyNone
| Str (s : string).

Definition str (v : cell) : string :=
  match v with
  | NaN => "nan"
  | PyNone => "None"
  | Str s => s
  end.

(** [pd.isna(value)] *)
Definition isna (v : cell) : bool :=
  match v with NaN | PyNone => true | Str _ => false end.

Definition is_none (v : cell) : bool :=
  match v with PyNone => true | _ => false end.

Definition sanitize_empty : list string :=
  ["—"; "-"; "__"; "_"; ""; "N/A"; "n/a"; "nan"; "None"].

Definition sanitize (value : cell) : option string :=
  if isna value || is_none value then None
  else
    let s := strip (str value) in
    if str_in s sanitize_empty then None else Some s.

(** The loop body of [parse_params]. *)
Definition parse_params_step (result : PyDict.dict string) (pair : string)
  : PyDict.dict string :=
  let pair := strip pair in
  if negb (truthy pair) then result
  else if contains "="%char pair
       then match split1 "="%char pair with
            | Some (k, v) => PyDict.set (strip k) (strip v) result
            | None => result
            end
       else PyDict.set pair "" result.

Definition parse_params (param_str : option string) : PyDict.dict string :=
  match param_str with
  | None => []
  | Some p =>
      if negb (truthy p) then []
      else fold_left parse_params_step (split ","%char p) []
  end.

Definition dq : string := String dquote EmptyString.
Definition dqdq : string := String dquote (String dquote EmptyString).

(** [s[-1]] *)
Fixpoint last_char (s : string) : option ascii :=
  match s with
  | EmptyString => None
  | String c EmptyString => Some c
  | String _ s' => last_char s'
  end.

(** [s[:-1]] *)
Fixpoint drop_last (s : string) : string :=
  match s with
  | EmptyString => EmptyString
  | String c EmptyString => EmptyString
  | String c s' => String c (drop_last s')
  end.

Definition strip_wrapping_quotes (s : string) : string :=
  let s := strip s in
  let s := replace dqdq dq s in
  match s with
  | String c0 s' =>
      if (2 <=? String.length s) && Ascii.eqb c0 dquote
         && match last_char s with Some c => Ascii.eqb c dquote | None => false end
      then drop_last s'
      else s
  | EmptyString => s
  end.

Definition chip_empty_cell : list string := ["—"; "-"; "__"; "_"; ""].
Definition chip_empty : list string := ["—"; "-"; "__"; "_"].

(** The body of the loop over [parts]. *)
Definition parse_chips_step (chips : list string) (p : string) : list string :=
  let p := strip p in
  if negb (truthy p) then chips
  else
    let p := replace dqdq dq p in
    let p := strip_wrapping_quotes p in
    if truthy p && negb (str_in p chip_empty) then chips ++ [p] else chips.

(** The body of the loop that removes duplicates. *)
Definition dedup_step (acc : gset string * list string) (c : string)
  : gset string * list string :=
  let '(seen, out) := acc in
  if bool_decide (c ∈ seen) then (seen, out) else ({[c]} ∪ seen, out ++ [c]).

Definition parse_chips (chips_cell : cell) : list string :=
  if is_none chips_cell then []
  else
    let raw := strip (str chips_cell) in
    if negb (truthy raw) || str_in raw chip_empty_cell then []
    else
      let parts :=
        if contains newline raw then split newline raw
        else if contains ";"%char raw then split ";"%char raw
        else [raw] in
      let chips := fold_left parse_chips_step parts [] in
      snd (fold_left dedup_step chips (∅, [])).

Inductive warning :=
| NextPageCountMismatch (targets chips_count : nat).

Definition next_page_empty : list string := ["—"; "-"; "__"; "_"; "N/A"; "n/a"].

(** [[t.strip() for t in s.split(c) if t.strip()]] *)
Definition split_targets (c : ascii) (s : string) : list string :=
  map strip (List.filter (fun t => truthy (strip t)) (split c s)).

(** The loop that turns sentinel segments into [None]. *)
Definition clean_target_step (cleaned : list (option string)) (t : string)
  : list (option string) :=
  if truthy t && negb (str_in t next_page_empty)
  then cleaned ++ [Some t] else cleaned ++ [None].

(** [while len(cleaned_targets) < chips_count: ...append(...)], run for at
    most [fuel] iterations. *)
Fixpoint pad_targets (fuel : nat) (cleaned : list (option string)) (chips_count : nat)
  : list (option string) :=
  match fuel with
  | O => cleaned
  | S fuel' =>
      if length cleaned <? chips_count
      then pad_targets fuel' (cleaned ++ [List.last cleaned None]) chips_count
      else cleaned
  end.

(** [l * n] for a list [l] and [n >= 0]. *)
Fixpoint list_mul {A} (l : list A) (n : nat) : list A :=
  match n with O => [] | S n' => l ++ list_mul l n' end.

Definition parse_next_pages (cell : option string) (chips_count : nat)
  : list (option string) * list warning :=
  match cell with
  | None => (list_mul [None] chips_count, [])
  | Some c =>
      let s := strip c in
      if negb (truthy s) || str_in s next_page_empty
      then (list_mul [None] chips_count, [])
      else
        let split_result :=
          if contains newline s then Some (split_targets newline s)
          else if contains "/"%char s && negb (startswith "http" s)
               then Some (split_targets "/"%char s)
               else None in
        match split_result with
        | None => (list_mul [Some s] chips_count, [])
        | Some targets =>
            let cleaned_targets := fold_left clean_target_step targets [] in
            if length cleaned_targets =? 1
            then (list_mul cleaned_targets chips_count, [])
            else if length cleaned_targets =? chips_count
                 then (cleaned_targets, [])
                 else
                   (firstn chips_count
                      (pad_targets chips_count cleaned_targets chips_count),
                    [NextPageCountMismatch (length cleaned_targets) chips_count])
        end
  end.

Definition parse_trigger_and_example (trigger_raw : option string)
  : option string * option string :=
  match trigger_raw with
  | None => (None, None)
  | Some t =>
      if negb (truthy t) then (None, None)
      else if contains ":"%char t
           then match split1 ":"%char t with
                | Some (a, b) =>
                    let trigger_type := strip a in
                    let example := strip b in
                    let example := replace "User says " "" example in
                    let example := replace "User responds with " "" example in
                    let example := replace "User denies " "" example in
                    let example := replace "User accepts " "" example in
                    let example := strip_wrapping_quotes example in
                    (Some trigger_type, Some example)
                | None => (Some "Intent", Some (strip_wrapping_quotes t))
                end
           else (Some "Intent", Some (strip_wrapping_quotes t))
  end.

Definition slugify (s : string) : string :=
  let s := strip (lower s) in
  let s := sub_runs is_space s in
  let s := sub_non_ident s in
  let s := sub_runs is_underscore s in
  strip_by is_underscore s.

Definition stopwords : list string :=
  ["for"; "the"; "and"; "or"; "with"; "from"; "to"; "a"; "an"; "in"; "on"; "at"; "of"].

Definition generate_webhook_tag (action_text : option string) : option string :=
  match action_text with
  | None => None
  | Some a =>
      if negb (truthy a) then None
      else
        let text := lower a in
        let words := List.filter (fun w => negb (str_in w stopwords)) (split_ws text) in
        let tag_words := firstn 4 words in
        let tag := join "_" tag_words in
        let tag := sub_non_ident tag in
        let tag := sub_runs is_underscore tag in
        Some (strip_by is_underscore tag)
  end.

(** *** The graph document *)

Record page := {
  pg_prompts : list string;
  pg_chips : list string;
  pg_metadata : PyDict.dict string
}.

Record route := {
  r_page : string;
  r_intent : string;
  r_next_page : option string;
  r_webhook_action : option string;
  r_parameters : option (PyDict.dict string)
}.

(** [data]; an intent is the list under its one key [training_phrases]. *)
Record graph := {
  d_pages : PyDict.dict page;
  d_intents : PyDict.dict (list string);
  d_routes : list route;
  d_end_pages : list string;
  d_first_page : option string;
  d_webhooks : PyDict.dict string;
  d_source_file : string;
  d_has_step_info : bool
}.

(** The data frame that [pd.read_csv] returns: its column names and its
    rows; the index is the default one, the position of the row. *)
Record dataframe := {
  columns : list string;
  rows : list (gmap string cell)
}.

(** [row.get(col)] *)
Definition row_get (row : gmap string cell) (col : string) : cell :=
  default PyNone (row !! col).

(** The compiler's variables while it walks the rows. *)
Record cstate := {
  data : graph;
  pages_with_routes : gset string;
  all_pages : gset string
}.

(** [if x not in l: l.append(x)] *)
Definition append_new (l : list string) (x : string) : list string :=
  if str_in x l then l else l ++ [x].

Definition set_pages (g : graph) (v : PyDict.dict page) : graph :=
  {| d_pages := v; d_intents := d_intents g; d_routes := d_routes g;
     d_end_pages := d_end_pages g; d_first_page := d_first_page g;
     d_webhooks := d_webhooks g; d_source_file := d_source_file g;
     d_has_step_info := d_has_step_info g |}.

Definition set_intents (g : graph) (v : PyDict.dict (list string)) : graph :=
  {| d_pages := d_pages g; d_intents := v; d_routes := d_routes g;
     d_end_pages := d_end_pages g; d_first_page := d_first_page g;
     d_webhooks := d_webhooks g; d_source_file := d_source_file g;
     d_has_step_info := d_has_step_info g |}.

Definition set_routes (g : graph) (v : list route) : graph :=
  {| d_pages := d_pages g; d_intents := d_intents g; d_routes := v;
     d_end_pages := d_end_pages g; d_first_page := d_first_page g;
     d_webhooks := d_webhooks g; d_source_file := d_source_file g;
     d_has_step_info := d_has_step_info g |}.

Definition set_end_pages (g : graph) (v : list string) : graph :=
  {| d_pages := d_pages g; d_intents := d_intents g; d_routes := d_routes g;
     d_end_pages := v; d_first_page := d_first_page g;
     d_webhooks := d_webhooks g; d_source_file := d_source_file g;
     d_has_step_info := d_has_step_info g |}.

Definition set_first_page (g : graph) (v : option string) : graph :=
  {| d_pages := d_pages g; d_intents := d_intents g; d_routes := d_routes g;
     d_end_pages := d_end_pages g; d_first_page := v;
     d_webhooks := d_webhooks g; d_source_file := d_source_file g;
     d_has_step_info := d_has_step_info g |}.

Definition set_webhooks (g : graph) (v : PyDict.dict string) : graph :=
  {| d_pages := d_pages g; d_intents := d_intents g; d_routes := d_routes g;
     d_end_pages := d_end_pages g; d_first_page := d_first_page g;
     d_webhooks := v; d_source_file := d_source_file g;
     d_has_step_info := d_has_step_info g |}.

(** [param_set or None] *)
Definition params_or_none (param_set : PyDict.dict string)
  : option (PyDict.dict string) :=
  match param_set with [] => None | _ => Some param_set end.

(** [intent = data["intents"].setdefault(name, ...)] followed by the
    appends of the phrases in [phrases] that are not yet there. *)
Definition add_phrases (name : string) (phrases : list string)
  (intents : PyDict.dict (list string)) : PyDict.dict (list string) :=
  let '(intents, tp) := PyDict.setdefault name [] intents in
  PyDict.set name (fold_left append_new phrases tp) intents.

(** The user example, when it is to be added as a training phrase. *)
Definition example_phrase (user_example : option string) : list string :=
  match user_example with
  | Some e => if truthy e then [e] else []
  | None => []
  end.

(** What the loop over [enumerate(chips)] carries along. *)
Record chip_loop := {
  cl_intents : PyDict.dict (list string);
  cl_routes : list route;
  cl_pages_with_routes : gset string;
  cl_has_valid_route : bool
}.

(** The body of [for i, chip in enumerate(chips)]. *)
Definition chip_step (page : string) (intent_name_raw : option string)
  (user_example : option string) (next_pages : list (option string))
  (webhook_tag : option string) (param_set : PyDict.dict string)
  (st : chip_loop) (ic : nat * string) : chip_loop :=
  let '(i, chip) := ic in
  let base_intent :=
    match intent_name_raw with
    | Some n => if truthy n then n else "Intent_" +:+ slugify page
    | None => "Intent_" +:+ slugify page
    end in
  let chip_intent_name := base_intent +:+ " :: " +:+ chip in
  let intents :=
    add_phrases chip_intent_name (chip :: example_phrase user_example)
      (cl_intents st) in
  let next_page_value :=
    if i <? length next_pages then nth i next_pages None
    else nth 0 next_pages None in
  match next_page_value with
  | Some np =>
      {| cl_intents := intents;
         cl_routes := cl_routes st ++
           [{| r_page := page; r_intent := chip_intent_name;
               r_next_page := Some np; r_webhook_action := webhook_tag;
               r_parameters := params_or_none param_set |}];
         cl_pages_with_routes := {[page]} ∪ cl_pages_with_routes st;
         cl_has_valid_route := true |}
  | None =>
      {| cl_intents := intents;
         cl_routes := cl_routes st;
         cl_pages_with_routes := cl_pages_with_routes st;
         cl_has_valid_route := cl_has_valid_route st |}
  end.

(** [enumerate(l)] *)
Fixpoint enumerate_from {A} (i : nat) (l : list A) : list (nat * A) :=
  match l with
  | [] => []
  | x :: l' => (i, x) :: enumerate_from (S i) l'
  end.

Definition start_aliases : list string := ["startpage"; "start_page"; "start"].

(** The step metadata of a row (lines 279-287). *)
Definition row_step_info (has_step has_next_step : bool)
  (row : gmap string cell) : PyDict.dict string :=
  let step_info : PyDict.dict string :=
    (if has_step
     then match sanitize (row_get row "Step") with
          | Some v => if truthy v then [("step", v)] else []
          | None => []
          end
     else []) in
  if has_next_step
  then match sanitize (row_get row "Next Step") with
       | Some v => if truthy v then PyDict.set "next_step" v step_info
                   else step_info
       | None => step_info
       end
  else step_info.

(** The webhook tag of a row (lines 293-295). *)
Definition row_webhook_tag (webhook_action_raw : option string) : option string :=
  if truthy_opt webhook_action_raw
  then generate_webhook_tag webhook_action_raw else None.

(** [data["webhooks"][webhook_tag] = webhook_action_raw], when there is a
    tag (lines 296-297). *)
Definition note_webhook (g : graph) (webhook_action_raw webhook_tag : option string)
  : graph :=
  match webhook_action_raw, webhook_tag with
  | Some raw, Some tag =>
      if truthy raw && truthy tag
      then set_webhooks g (PyDict.set tag raw (d_webhooks g))
      else g
  | _, _ => g
  end.

(** The page entry created or updated by a row (lines 300-315): [pg] is
    the dictionary held in [data["pages"]], so its updates are updates of
    the table. *)
Definition update_page (g : graph) (page : string) (bot_prompt : option string)
  (chips : list string) (step_info : PyDict.dict string) : graph :=
  let '(pages, pg) :=
    PyDict.setdefault page
      {| pg_prompts := []; pg_chips := []; pg_metadata := [] |}
      (d_pages g) in
  let pg :=
    {| pg_prompts :=
         match bot_prompt with
         | Some b => if truthy b then append_new (pg_prompts pg) b
                     else pg_prompts pg
         | None => pg_prompts pg
         end;
       pg_chips := fold_left append_new chips (pg_chips pg);
       pg_metadata :=
         fold_left (fun m kv => PyDict.set (fst kv) (snd kv) m)
           step_info (pg_metadata pg) |} in
  set_pages g (PyDict.set page pg pages).

(** Lines 317-319. *)
Definition note_first_page (g : graph) (page : string) : graph :=
  if negb (truthy_opt (d_first_page g))
     && negb (str_in (lower page) start_aliases)
  then set_first_page g (Some page) else g.

(** [intent_name_raw or generated] *)
Definition or_else (o : option string) (generated : string) : string :=
  match o with
  | Some n => if truthy n then n else generated
  | None => generated
  end.

(** The routes of a row (lines 324-384), from the intents, routes and
    [pages_with_routes] before it. *)
Definition emit_routes (intents : PyDict.dict (list string))
  (routes : list route) (pages_with_routes : gset string)
  (row_idx : nat) (page : string) (intent_name_raw user_example : option string)
  (next_pages : list (option string)) (webhook_tag : option string)
  (param_set : PyDict.dict string) (chips : list string) : chip_loop :=
  match chips with
  | [] =>
      let intent_name :=
        or_else intent_name_raw
          ("Intent_" +:+ slugify page +:+ "_" +:+ str_nat row_idx) in
      let intents :=
        add_phrases intent_name (example_phrase user_example) intents in
      match nth 0 next_pages None with
      | Some np =>
          {| cl_intents := intents;
             cl_routes := routes ++
               [{| r_page := page; r_intent := intent_name;
                   r_next_page := Some np;
                   r_webhook_action := webhook_tag;
                   r_parameters := params_or_none param_set |}];
             cl_pages_with_routes := {[page]} ∪ pages_with_routes;
             cl_has_valid_route := true |}
      | None =>
          {| cl_intents := intents;
             cl_routes := routes;
             cl_pages_with_routes := pages_with_routes;
             cl_has_valid_route := false |}
      end
  | _ =>
      fold_left
        (chip_step page intent_name_raw user_example next_pages
           webhook_tag param_set)
        (enumerate_from 0 chips)
        {| cl_intents := intents;
           cl_routes := routes;
           cl_pages_with_routes := pages_with_routes;
           cl_has_valid_route := false |}
  end.

(** Lines 386-389. *)
Definition mark_end_state (g : graph) (has_valid_route : bool)
  (bot_prompt : option string) (page : string) : graph :=
  if negb has_valid_route && truthy_opt bot_prompt
  then set_end_pages g (append_new (d_end_pages g) page) else g.

(** The body of [for row_idx, row in df.iterrows()].  No statement of the
    body can raise on the values of this model, so the [except] branch is
    not taken. *)
Definition process_row (has_step has_next_step : bool) (st : cstate)
  (ir : nat * gmap string cell) : cstate :=
  let '(row_idx, row) := ir in
  match sanitize (row_get row "Page Name") with
  | None => st
  | Some page =>
      if negb (truthy page) then st
      else
        let all_pages := {[page]} ∪ all_pages st in
        let intent_name_raw := sanitize (row_get row "Intent Name") in
        let trigger_raw := sanitize (row_get row "Trigger Type & User Example") in
        let bot_prompt := sanitize (row_get row "Bot Prompt") in
        let next_page_cell := sanitize (row_get row "Next Page / Transition") in
        let param_set := parse_params (sanitize (row_get row "Parameter Set")) in
        let webhook_action_raw := sanitize (row_get row "Webhook Action") in
        let chips := parse_chips (row_get row "Suggested Chips") in
        let step_info := row_step_info has_step has_next_step row in
        let user_example := snd (parse_trigger_and_example trigger_raw) in
        let webhook_tag := row_webhook_tag webhook_action_raw in
        let g := note_webhook (data st) webhook_action_raw webhook_tag in
        let g := update_page g page bot_prompt chips step_info in
        let g := note_first_page g page in
        let next_pages :=
          fst (parse_next_pages next_page_cell
                 (match chips with [] => 1 | _ => length chips end)) in
        let loop :=
          emit_routes (d_intents g) (d_routes g) (pages_with_routes st)
            row_idx page intent_name_raw user_example next_pages
            webhook_tag param_set chips in
        let g := set_routes (set_intents g (cl_intents loop)) (cl_routes loop) in
        let g := mark_end_state g (cl_has_valid_route loop) bot_prompt page in
        {| data := g;
           pages_with_routes := cl_pages_with_routes loop;
           all_pages := all_pages |}
  end.

(** [for route in data["routes"]: if route.get("next_page"): ...add(...)] *)
Definition referenced_step (referenced_pages : gset string) (r : route)
  : gset string :=
  match r_next_page r with
  | Some np => if truthy np then {[np]} ∪ referenced_pages else referenced_pages
  | None => referenced_pages
  end.

(** The body of the final [for page in all_pages]. *)
Definition infer_end_step (referenced_pages pages_with_routes : gset string)
  (first_page : option string) (end_pages : list string) (page : string)
  : list string :=
  if negb (bool_decide (page ∈ referenced_pages))
     && negb (bool_decide (Some page = first_page))
     && negb (bool_decide (page ∈ pages_with_routes))
  then append_new end_pages page
  else end_pages.

(** [os.path.basename] *)
Definition basename (path : string) : string :=
  List.last (split "/"%char path) "".

Definition initial_data (csv_path : string) (df : dataframe) : graph :=
  {| d_pages := []; d_intents := []; d_routes := []; d_end_pages := [];
     d_first_page := None; d_webhooks := [];
     d_source_file := basename csv_path;
     d_has_step_info :=
       str_in "Step" (columns df) || str_in "Next Step" (columns df) |}.

(** [convert_single_csv], up to the point where [data] is written out;
    [df] is what [pd.read_csv(csv_path)] returned. *)
Definition convert_single_csv (csv_path : string) (df : dataframe) : graph :=
  let has_step := str_in "Step" (columns df) in
  let has_next_step := str_in "Next Step" (columns df) in
  let st :=
    fold_left (process_row has_step has_next_step)
      (enumerate_from 0 (rows df))
      {| data := initial_data csv_path df;
         pages_with_routes := ∅; all_pages := ∅ |} in
  let referenced_pages := fold_left referenced_step (d_routes (data st)) ∅ in
  set_end_pages (data st)
    (fold_left
       (infer_end_step referenced_pages (pages_with_routes st)
          (d_first_page (data st)))
       (elements (all_pages st))
       (d_end_pages (data st))).

End Csv.

(** ** upload_to_dialogflow.py *)

Module Upload.
Import Csv.

(** JSON values, as the bodies of requests and responses hold them. *)
#[local] Set Warnings "-register-all".
Inductive json :=
| JNull
| JNum (n : nat)
| JStr (s : string)
| JList (l : list json)
| JObj (fields : PyDict.dict json).

Definition jstrs (l : list string) : json := JList (map JStr l).

Inductive method := GET | POST | PATCH.

(** The URLs the uploader builds.  [AgentCollection k] is
    [f"{self.base_url}/{k}"]; [FlowPages flow] is [f"{flow_url}/pages"]
    for [flow_url = f"{self.api_prefix}/{flow}"]; [Resource name] is
    [f"{self.api_prefix}/{name}"]. *)
Inductive url :=
| AgentCollection (kind : string)
| FlowPages (flow : string)
| Resource (name : string).

(** The arguments of [requests.request]: [params] is the value of the
    [updateMask] query parameter, [body] the [json=] argument. *)
Record request := {
  rq_method : method;
  rq_url : url;
  rq_params : option string;
  rq_body : option json
}.

(** A response: status code, the [Retry-After] header as an integer when
    it is present, and the decoded body.  The header is a natural number:
    a text that [int] rejects and a negative number that [time.sleep]
    rejects, both a [ValueError] in the code, are not represented. *)
Record response := {
  status_code : nat;
  retry_after : option nat;
  resp_json : json
}.

Inductive exn :=
| ConnectionError (detail : string)
| HTTPError (resp : response)
| KeyError (key : string)
| TypeError
| RuntimeError (msg : string)
| UnboundLocalError.

(** [isinstance(e, requests.exceptions.RequestException)] *)
Definition is_request_exception (e : exn) : bool :=
  match e with
  | ConnectionError _ | HTTPError _ => true
  | _ => false
  end.

(** What a call of [requests.request] gives: a response, or a transport
    failure raised as a [RequestException]. *)
Inductive outcome :=
| Responded (r : response)
| Failed (detail : string).

(** The world outside the uploader: the HTTP transport with the service
    behind it, the clock, and the credential source. *)
Class Transport (W : Type) := {
  requests_request : request -> string -> W -> outcome * W;
  time_sleep : nat -> W -> W;
  fetch_token : W -> string * W
}.

(** The fields of [DialogflowUploader] that change or are read:
    [headers] is the bearer token; the two caches that are used. *)
Record uploader := {
  headers : string;
  cache_flows : gmap string string;
  cache_webhooks : gmap string string;
  dispatcher_url : string;
  dispatcher_header : option string
}.

Definition set_headers (u : uploader) (h : string) : uploader :=
  {| headers := h; cache_flows := cache_flows u;
     cache_webhooks := cache_webhooks u;
     dispatcher_url := dispatcher_url u;
     dispatcher_header := dispatcher_header u |}.

Definition set_cache_flows (u : uploader) (c : gmap string string) : uploader :=
  {| headers := headers u; cache_flows := c;
     cache_webhooks := cache_webhooks u;
     dispatcher_url := dispatcher_url u;
     dispatcher_header := dispatcher_header u |}.

Definition set_cache_webhooks (u : uploader) (c : gmap string string) : uploader :=
  {| headers := headers u; cache_flows := cache_flows u;
     cache_webhooks := c;
     dispatcher_url := dispatcher_url u;
     dispatcher_header := dispatcher_header u |}.

(** *** A monad for the methods: the state is the uploader and the world,
    and it is kept when an exception is raised. *)
Inductive result (A : Type) :=
| Ok (a : A)
| Raise (e : exn).
Arguments Ok {A} a.
Arguments Raise {A} e.

Definition M (W A : Type) : Type := uploader * W -> result A * (uploader * W).

Definition ret {W A} (a : A) : M W A := fun s => (Ok a, s).

Definition raise {W A} (e : exn) : M W A := fun s => (Raise e, s).

Definition bind {W A B} (m : M W A) (k : A -> M W B) : M W B :=
  fun s =>
    match m s with
    | (Ok a, s') => k a s'
    | (Raise e, s') => (Raise e, s')
    end.

Notation "x <- m ;; k" := (bind m (fun x => k))
  (at level 100, m at next level, right associativity).
Notation "m ;; k" := (bind m (fun _ => k))
  (at level 100, right associativity).

(** [for x in l: acc = body(acc, x)] *)
Fixpoint for_each {W A B} (l : list A) (acc : B) (body : B -> A -> M W B) : M W B :=
  match l with
  | [] => ret acc
  | x :: l' => acc' <- body acc x ;; for_each l' acc' body
  end.

(** The static method [slugify] of the uploader. *)
Definition slugify (s : string) : string :=
  let s := strip (lower s) in
  let s := sub_runs is_space s in
  let s := sub_non_ident s in
  let s := sub_runs is_underscore s in
  strip_by is_underscore s.

Section Methods.
Context {W : Type} {T : Transport W}.

Definition sleep (secs : nat) : M W unit :=
  fun '(u, w) => (Ok tt, (u, time_sleep secs w)).

(** [_refresh_auth]: [self.headers = self._auth_headers()].  The
    credential source always gives a token: the exceptions of
    [credentials.refresh] are not represented. *)
Definition _refresh_auth : M W unit :=
  fun '(u, w) => let '(tok, w') := fetch_token w in (Ok tt, (set_headers u tok, w')).

(** [requests.request(method, url, headers=self.headers, ...)] *)
Definition send (rq : request) : M W outcome :=
  fun '(u, w) => let '(o, w') := requests_request rq (headers u) w in (Ok o, (u, w')).

Definition max_retries : nat := 3.

(** [response.raise_for_status()] raises for the codes 400 to 599. *)
Definition is_error_status (code : nat) : bool :=
  (400 <=? code) && (code <? 600).

(** The [except RequestException] handler of attempt [attempt]:
    re-raise on the last attempt, else go on with the next one. *)
Definition on_request_exception {A} (attempt : nat) (e : exn)
  (next : M W A) : M W A :=
  if attempt =? max_retries - 1 then raise e else next.

(** The iterations of [for attempt in range(max_retries)] for the
    attempts in [todo]; [last] is the variable [response]: what an
    earlier iteration bound it to, if any did. *)
Fixpoint attempts (todo : list nat) (rq : request) (last : option response)
  : M W response :=
  match todo with
  | [] =>
      match last with
      | Some r => ret r
      | None => raise UnboundLocalError
      end
  | attempt :: todo' =>
      (if 0 <? attempt then sleep (2 ^ attempt) else ret tt) ;;
      o <- send rq ;;
      match o with
      | Failed detail =>
          on_request_exception attempt (ConnectionError detail)
            (attempts todo' rq last)
      | Responded r =>
          if (status_code r =? 401) && (attempt <? max_retries - 1)
          then _refresh_auth ;; attempts todo' rq (Some r)
          else if status_code r =? 429
               then sleep (default 5 (retry_after r)) ;;
                    attempts todo' rq (Some r)
               else if is_error_status (status_code r)
                    then on_request_exception attempt (HTTPError r)
                           (attempts todo' rq (Some r))
                    else ret r
      end
  end.

Definition _api_request (m : method) (u : url) (params : option string)
  (body : option json) : M W response :=
  attempts (seq 0 max_retries)
    {| rq_method := m; rq_url := u; rq_params := params; rq_body := body |}
    None.

(** [obj[key]] and [obj.get(key)] on a decoded JSON object. *)
Definition json_get (key : string) (j : json) : option json :=
  match j with
  | JObj fields => PyDict.get key fields
  | _ => None
  end.

Definition subscript (j : json) (key : string) : M W json :=
  match j with
  | JObj fields =>
      match PyDict.get key fields with
      | Some v => ret v
      | None => raise (KeyError key)
      end
  | _ => raise TypeError
  end.

(** A JSON value used where the code needs a [str]. *)
Definition as_str (j : json) : M W string :=
  match j with
  | JStr s => ret s
  | _ => raise TypeError
  end.

(** [{item["displayName"]: item for item in resp.json().get(key, [])}] *)
Definition list_by_name (u : url) (key : string) : M W (gmap string json) :=
  resp <- _api_request GET u None None ;;
  items <- match resp_json resp with
           | JObj fields =>
               match PyDict.get key fields with
               | Some (JList l) => ret l
               | Some _ => raise TypeError
               | None => ret []
               end
           | _ => raise TypeError
           end ;;
  for_each items ∅
    (fun idx item =>
       dn <- subscript item "displayName" ;;
       dn <- as_str dn ;;
       ret (<[dn := item]> idx)).

Definition get_cache_flows : M W (gmap string string) :=
  fun '(u, w) => (Ok (cache_flows u), (u, w)).

Definition get_cache_webhooks : M W (gmap string string) :=
  fun '(u, w) => (Ok (cache_webhooks u), (u, w)).

Definition put_cache_flow (k v : string) : M W unit :=
  fun '(u, w) => (Ok tt, (set_cache_flows u (<[k := v]> (cache_flows u)), w)).

Definition put_cache_webhook (k v : string) : M W unit :=
  fun '(u, w) => (Ok tt, (set_cache_webhooks u (<[k := v]> (cache_webhooks u)), w)).

(** [resp.json()["name"]] and [index[display_name]["name"]] *)
Definition name_of (item : json) : M W string :=
  n <- subscript item "name" ;; as_str n.

Definition upsert_flow (display_name : string) : M W string :=
  cache <- get_cache_flows ;;
  match cache !! display_name with
  | Some cached => ret cached
  | None =>
      flows <- list_by_name (AgentCollection "flows") "flows" ;;
      resource_name <-
        match flows !! display_name with
        | Some item => name_of item
        | None =>
            resp <- _api_request POST (AgentCollection "flows") None
                      (Some (JObj [("displayName", JStr display_name)])) ;;
            name_of (resp_json resp)
        end ;;
      put_cache_flow display_name resource_name ;;
      ret resource_name
  end.

Definition upsert_webhook (display_name uri : string)
  (headers_map : option (PyDict.dict string)) : M W string :=
  let cache_key := display_name +:+ "::" +:+ uri in
  cache <- get_cache_webhooks ;;
  match cache !! cache_key with
  | Some cached => ret cached
  | None =>
      hooks <- list_by_name (AgentCollection "webhooks") "webhooks" ;;
      name <-
        match hooks !! display_name with
        | Some item => name_of item
        | None =>
            let service :=
              match headers_map with
              | Some ((_ :: _) as h) =>
                  [("uri", JStr uri);
                   ("requestHeaders",
                    JObj (map (fun kv => (fst kv, JStr (snd kv))) h))]
              | _ => [("uri", JStr uri)]
              end in
            let payload :=
              JObj [("displayName", JStr display_name);
                    ("genericWebService", JObj service)] in
            resp <- _api_request POST (AgentCollection "webhooks") None
                      (Some payload) ;;
            name_of (resp_json resp)
        end ;;
      put_cache_webhook cache_key name ;;
      ret name
  end.

(** [if not index: index = self.list_by_name(...)] *)
Definition index_or_list (index : gmap string json) (u : url) (key : string)
  : M W (gmap string json) :=
  if size index =? 0 then list_by_name u key else ret index.

Definition training_phrases_json (training_phrases : list string) : json :=
  JList (map (fun tp =>
                JObj [("repeatCount", JNum 1);
                      ("parts", JList [JObj [("text", JStr tp)]])])
             (List.filter truthy training_phrases)).

Definition upsert_intent (display_name : string) (training_phrases : list string)
  (intents_index : gmap string json) : M W string :=
  intents_index <- index_or_list intents_index (AgentCollection "intents") "intents" ;;
  let phrases := training_phrases_json training_phrases in
  let body := JObj [("displayName", JStr display_name);
                    ("trainingPhrases", phrases)] in
  match intents_index !! display_name with
  | Some item =>
      intent_name <- name_of item ;;
      _api_request PATCH (Resource intent_name) (Some "trainingPhrases")
        (Some (JObj [("trainingPhrases", phrases)])) ;;
      ret intent_name
  | None =>
      resp <- _api_request POST (AgentCollection "intents") None (Some body) ;;
      name_of (resp_json resp)
  end.

(** The [entryFulfillment] of a page. *)
Definition entry_fulfillment (prompts chips : list string) : json :=
  let messages :=
    (match prompts with
     | [] => []
     | _ => [JObj [("text", JObj [("text", jstrs prompts)])]]
     end) ++
    (match chips with
     | [] => []
     | _ =>
         let chip_objs := JList (map (fun c => JObj [("text", JStr c)]) chips) in
         [JObj [("payload",
                 JObj [("richContent",
                        JList [JList [JObj [("type", JStr "chips");
                                            ("options", chip_objs)]]])])]]
     end) in
  JObj [("messages", JList messages)].

Definition upsert_page (flow : string) (display_name : string)
  (prompts chips : list string) (pages_index : gmap string json)
  (is_end_state : bool) : M W string :=
  pages_index <- index_or_list pages_index (FlowPages flow) "pages" ;;
  let fulfillment := entry_fulfillment prompts chips in
  let body := JObj [("displayName", JStr display_name);
                    ("entryFulfillment", fulfillment)] in
  match pages_index !! display_name with
  | Some item =>
      page_name <- name_of item ;;
      _api_request PATCH (Resource page_name) (Some "entryFulfillment")
        (Some (JObj [("entryFulfillment", fulfillment)])) ;;
      ret page_name
  | None =>
      resp <- _api_request POST (FlowPages flow) None (Some body) ;;
      name_of (resp_json resp)
  end.

(** [page_map.get(first_page_name)] over the listed pages: the name of
    the last page with that display name. *)
Definition page_map_step (page_map : gmap string string) (p : json)
  : M W (gmap string string) :=
  dn <- subscript p "displayName" ;;
  dn <- as_str dn ;;
  n <- name_of p ;;
  ret (<[dn := n]> page_map).

Definition first_page_missing (first_page_name : string) : string :=
  "First page '" +:+ first_page_name +:+ "' not found in flow.".

Definition patch_flow_start_route (flow : string) (first_page_name : string)
  : M W unit :=
  pages_resp <- _api_request GET (FlowPages flow) None None ;;
  pages <- match json_get "pages" (resp_json pages_resp) with
           | Some (JList l) => ret l
           | Some _ => raise TypeError
           | None => match resp_json pages_resp with
                     | JObj _ => ret []
                     | _ => raise TypeError
                     end
           end ;;
  page_map <- for_each pages ∅ page_map_step ;;
  match page_map !! first_page_name with
  | Some target =>
      if truthy target
      then
        _api_request PATCH (Resource flow) (Some "transitionRoutes")
          (Some (JObj [("transitionRoutes",
                        JList [JObj [("condition", JStr "true");
                                     ("targetPage", JStr target)]])])) ;;
        ret tt
      else raise (RuntimeError (first_page_missing first_page_name))
  | None => raise (RuntimeError (first_page_missing first_page_name))
  end.

(** [Path(json_path).stem] for a path that does not end in a slash. *)
Definition path_stem (json_path : string) : string :=
  let name := basename json_path in
  match rfind "."%char name with
  | Some i =>
      if (0 <? i) && (i <? String.length name - 1)
      then substring 0 i name else name
  | None => name
  end.

(** The loop that groups the routes with a target by owning page. *)
Definition group_step (routes_by_page : PyDict.dict (list route)) (r : route)
  : PyDict.dict (list route) :=
  if negb (truthy_opt (r_next_page r)) then routes_by_page
  else
    let '(d, l) := PyDict.setdefault (r_page r) [] routes_by_page in
    PyDict.set (r_page r) (l ++ [r]) d.

(** [[{"parameter": k, "value": v} for k, v in params.items() if k and v]] *)
Definition param_actions (params : PyDict.dict string) : list json :=
  map (fun kv => JObj [("parameter", JStr (fst kv)); ("value", JStr (snd kv))])
      (List.filter (fun kv => truthy (fst kv) && truthy (snd kv)) params).

(** The payload of one route, or [None] where the loop body ends in
    [continue]. *)
Definition route_payload (intent_name_to_id page_name_to_id : gmap string string)
  (dispatcher_name : option string) (r : route) : option json :=
  let intent_ref :=
    match intent_name_to_id !! r_intent r with
    | Some n => JStr n
    | None => JNull
    end in
  match r_next_page r with
  | None => None
  | Some next_page =>
      if negb (truthy next_page) then None
      else
        match page_name_to_id !! next_page with
        | None => None
        | Some target_page_ref =>
            if negb (truthy target_page_ref) then None
            else
              let has_webhook :=
                truthy_opt (r_webhook_action r) && truthy_opt dispatcher_name in
              let has_params :=
                match r_parameters r with
                | Some params =>
                    negb (PyDict.is_empty_list params)
                    && existsb truthy (PyDict.values params)
                | None => false
                end in
              let trig :=
                (if has_webhook
                 then [("webhook", JStr (default "" dispatcher_name));
                       ("tag", JStr (default "" (r_webhook_action r)))]
                 else []) ++
                (if has_params
                 then match param_actions (default [] (r_parameters r)) with
                      | [] => []
                      | acts => [("setParameterActions", JList acts)]
                      end
                 else []) in
              Some (JObj
                ([("intent", intent_ref);
                  ("targetPage", JStr target_page_ref)] ++
                 (if has_webhook || has_params
                  then match trig with
                       | [] => []
                       | _ => [("triggerFulfillment", JObj trig)]
                       end
                  else [])))
        end
  end.

(** [[p for p in map(f, l) if p is not None]] *)
Fixpoint keep_some {A B} (f : A -> option B) (l : list A) : list B :=
  match l with
  | [] => []
  | x :: l' =>
      match f x with
      | Some y => y :: keep_some f l'
      | None => keep_some f l'
      end
  end.

(** The body of [for page, routes in routes_by_page.items()]. *)
Definition apply_routes (intent_name_to_id page_name_to_id : gmap string string)
  (dispatcher_name : option string) (_ : unit)
  (entry : string * list route) : M W unit :=
  let '(page, routes) := entry in
  match page_name_to_id !! page with
  | None => ret tt
  | Some page_resource =>
      if negb (truthy page_resource) then ret tt
      else
        let transition_routes :=
          keep_some (route_payload intent_name_to_id page_name_to_id
                       dispatcher_name) routes in
        match transition_routes with
        | [] => ret tt
        | _ =>
            _api_request PATCH (Resource page_resource)
              (Some "transitionRoutes")
              (Some (JObj [("transitionRoutes", JList transition_routes)])) ;;
            ret tt
        end
  end.

(** The dictionaries the two upsert loops carry: the index of existing
    resources and the identifiers of those of this graph. *)
Definition upsert_pages_step (flow : string) (end_pages : list string)
  (acc : gmap string json * gmap string string)
  (entry : string * page) : M W (gmap string json * gmap string string) :=
  let '(pages_index, page_name_to_id) := acc in
  let '(page, info) := entry in
  let is_end_state := str_in page end_pages in
  page_resource <-
    upsert_page flow page (pg_prompts info) (pg_chips info) pages_index
      is_end_state ;;
  ret (<[page := JObj [("name", JStr page_resource)]]> pages_index,
       <[page := page_resource]> page_name_to_id).

Definition upsert_intents_step
  (acc : gmap string json * gmap string string)
  (entry : string * list string) : M W (gmap string json * gmap string string) :=
  let '(intents_index, intent_name_to_id) := acc in
  let '(intent_name, tp) := entry in
  intent_resource <- upsert_intent intent_name tp intents_index ;;
  ret (<[intent_name := JObj [("name", JStr intent_resource)]]> intents_index,
       <[intent_name := intent_resource]> intent_name_to_id).

(** The header map of the dispatcher webhook (lines 253-257). *)
Definition dispatcher_headers (header : option string)
  : option (PyDict.dict string) :=
  match header with
  | Some h =>
      if truthy h && contains "="%char h
      then match split1 "="%char h with
           | Some (k, v) => Some [(strip k, strip v)]
           | None => None
           end
      else None
  | None => None
  end.

Definition get_uploader : M W uploader :=
  fun '(u, w) => (Ok u, (u, w)).

(** The [try] block of [upload_single_flow]; [data] is what
    [json.load] read from [json_path]. *)
Definition upload_flow_body (json_path : string) (data : graph)
  (flow_name : option string) : M W string :=
  let flow_name :=
    if truthy_opt flow_name then default "" flow_name
    else title (replace "_" " " (replace "dialogflow_" "" (path_stem json_path))) in
  let end_pages := d_end_pages data in
  flow_resource <- upsert_flow flow_name ;;
  let has_webhooks :=
    existsb (fun r => truthy_opt (r_webhook_action r)) (d_routes data) in
  dispatcher_name <-
    (if has_webhooks || negb (PyDict.is_empty_list (d_webhooks data))
     then
       self <- get_uploader ;;
       name <- upsert_webhook "Dispatcher" (dispatcher_url self)
                 (dispatcher_headers (dispatcher_header self)) ;;
       ret (Some name)
     else ret None) ;;
  intents_index <- list_by_name (AgentCollection "intents") "intents" ;;
  pages_index <- list_by_name (FlowPages flow_resource) "pages" ;;
  pages_done <-
    for_each (d_pages data) (pages_index, ∅)
      (upsert_pages_step flow_resource end_pages) ;;
  let page_name_to_id := snd pages_done in
  intents_done <-
    for_each (d_intents data) (intents_index, ∅) upsert_intents_step ;;
  let intent_name_to_id := snd intents_done in
  let routes_by_page := fold_left group_step (d_routes data) [] in
  for_each routes_by_page tt
    (apply_routes intent_name_to_id page_name_to_id dispatcher_name) ;;
  (match d_first_page data with
   | Some first_page =>
       if truthy first_page
       then patch_flow_start_route flow_resource first_page
       else ret tt
   | None => ret tt
   end) ;;
  ret flow_name.

(** [str(e)].  For an [HTTPError], [requests] gives the status code
    followed by the kind of error, the reason phrase and the URL; the model
    keeps the status code and abbreviates the rest. *)
Definition exn_message (e : exn) : string :=
  match e with
  | ConnectionError detail => detail
  | HTTPError r => str_nat (status_code r) +:+ " Error"
  | KeyError key => "'" +:+ key +:+ "'"
  | TypeError => "TypeError"
  | RuntimeError msg => msg
  | UnboundLocalError => "UnboundLocalError"
  end.

Definition upload_single_flow (json_path : string) (data : graph)
  (flow_name : option string)
  : uploader * W -> (bool * string) * (uploader * W) :=
  fun s =>
    match upload_flow_body json_path data flow_name s with
    | (Ok name, s') => ((true, name), s')
    | (Raise e, s') => ((false, exn_message e), s')
    end.

End Methods.

(** *** The remote agent *)

(** Modelled from the spec: the remote service is not part of the
    repository; section 6 (remote API shape) gives its interface: the
    collections flows, intents, webhooks and, under a flow, pages; a list
    returns the items with their [displayName] and [name]; a POST with a
    body holding [displayName] creates a resource and returns it; a PATCH
    with an [updateMask] replaces exactly the field it names. *)
Record resource := {
  res_name : string;
  res_display : string;
  res_fields : PyDict.dict json
}.

Record remote := {
  rm_flows : list resource;
  rm_webhooks : list resource;
  rm_intents : list resource;
  rm_pages : list (string * resource);
  rm_counter : nat
}.

Definition item_json (r : resource) : json :=
  JObj (("name", JStr (res_name r)) :: ("displayName", JStr (res_display r))
        :: res_fields r).

Definition ok_response (body : json) : response :=
  {| status_code := 200; retry_after := None; resp_json := body |}.

Definition error_response (code : nat) : response :=
  {| status_code := code; retry_after := None; resp_json := JObj [] |}.

(** The resource a POST body describes, under the name [name]. *)
Definition resource_of_body (name : string) (body : option json) : option resource :=
  match body with
  | Some (JObj fields) =>
      match PyDict.get "displayName" fields with
      | Some (JStr dn) =>
          Some {| res_name := name; res_display := dn;
                  res_fields :=
                    List.filter
                      (fun kv => negb (String.eqb (fst kv) "displayName"))
                      fields |}
      | _ => None
      end
  | _ => None
  end.

Definition has_name (name : string) (l : list resource) : bool :=
  existsb (fun r => String.eqb (res_name r) name) l.

Definition patch_resource (name mask : string) (v : json) (r : resource) : resource :=
  if String.eqb (res_name r) name
  then {| res_name := res_name r; res_display := res_display r;
          res_fields := PyDict.set mask v (res_fields r) |}
  else r.

Definition pages_of (flow : string) (pages : list (string * resource))
  : list resource :=
  map snd (List.filter (fun fp => String.eqb (fst fp) flow) pages).

Definition fresh_name (prefix : string) (rm : remote) : string :=
  prefix +:+ "/" +:+ str_nat (rm_counter rm).

Definition serve (rq : request) (rm : remote) : response * remote :=
  match rq_method rq, rq_url rq with
  | GET, AgentCollection kind =>
      if String.eqb kind "flows"
      then (ok_response (JObj [("flows", JList (map item_json (rm_flows rm)))]), rm)
      else if String.eqb kind "webhooks"
      then (ok_response (JObj [("webhooks", JList (map item_json (rm_webhooks rm)))]), rm)
      else if String.eqb kind "intents"
      then (ok_response (JObj [("intents", JList (map item_json (rm_intents rm)))]), rm)
      else (error_response 404, rm)
  | GET, FlowPages flow =>
      if has_name flow (rm_flows rm)
      then (ok_response
              (JObj [("pages", JList (map item_json (pages_of flow (rm_pages rm))))]),
            rm)
      else (error_response 404, rm)
  | POST, AgentCollection kind =>
      match resource_of_body (fresh_name kind rm) (rq_body rq) with
      | Some r =>
          if String.eqb kind "flows"
          then (ok_response (item_json r),
                {| rm_flows := rm_flows rm ++ [r]; rm_webhooks := rm_webhooks rm;
                   rm_intents := rm_intents rm; rm_pages := rm_pages rm;
                   rm_counter := S (rm_counter rm) |})
          else if String.eqb kind "webhooks"
          then (ok_response (item_json r),
                {| rm_flows := rm_flows rm; rm_webhooks := rm_webhooks rm ++ [r];
                   rm_intents := rm_intents rm; rm_pages := rm_pages rm;
                   rm_counter := S (rm_counter rm) |})
          else if String.eqb kind "intents"
          then (ok_response (item_json r),
                {| rm_flows := rm_flows rm; rm_webhooks := rm_webhooks rm;
                   rm_intents := rm_intents rm ++ [r]; rm_pages := rm_pages rm;
                   rm_counter := S (rm_counter rm) |})
          else (error_response 404, rm)
      | None => (error_response 400, rm)
      end
  | POST, FlowPages flow =>
      if has_name flow (rm_flows rm)
      then match resource_of_body (fresh_name (flow +:+ "/pages") rm) (rq_body rq) with
           | Some r =>
               (ok_response (item_json r),
                {| rm_flows := rm_flows rm; rm_webhooks := rm_webhooks rm;
                   rm_intents := rm_intents rm;
                   rm_pages := rm_pages rm ++ [(flow, r)];
                   rm_counter := S (rm_counter rm) |})
           | None => (error_response 400, rm)
           end
      else (error_response 404, rm)
  | PATCH, Resource name =>
      if has_name name (rm_flows rm) || has_name name (rm_webhooks rm)
         || has_name name (rm_intents rm)
         || has_name name (map snd (rm_pages rm))
      then match rq_params rq, rq_body rq with
           | Some mask, Some (JObj fields) =>
               match PyDict.get mask fields with
               | Some v =>
                   (ok_response (JObj []),
                    {| rm_flows := map (patch_resource name mask v) (rm_flows rm);
                       rm_webhooks := map (patch_resource name mask v) (rm_webhooks rm);
                       rm_intents := map (patch_resource name mask v) (rm_intents rm);
                       rm_pages :=
                         map (fun fp => (fst fp, patch_resource name mask v (snd fp)))
                             (rm_pages rm);
                       rm_counter := rm_counter rm |})
               | None => (error_response 400, rm)
               end
           | _, _ => (error_response 400, rm)
           end
      else (error_response 404, rm)
  | _, _ => (error_response 405, rm)
  end.

(** A service that answers every request at once, with the requests it
    received; it needs no waiting and its token never expires. *)
#[export] Instance reliable : Transport (remote * list request) := {
  requests_request rq _ w :=
    let '(resp, rm') := serve rq (fst w) in
    (Responded resp, (rm', snd w ++ [rq]));
  time_sleep _ w := w;
  fetch_token w := ("token", w)
}.

(** *** A scripted endpoint *)

Inductive event :=
| Requested (token : string)
| Slept (secs : nat)
| Refreshed.

(** An endpoint whose answer to its [n]-th request is [answers n], with
    the trace of what the uploader did. *)
Record scripted := {
  answers : nat -> outcome;
  trace : list event
}.

Definition is_request (e : event) : bool :=
  match e with Requested _ => true | _ => false end.

Definition requests_made (tr : list event) : nat :=
  length (List.filter is_request tr).

Definition log_event (e : event) (w : scripted) : scripted :=
  {| answers := answers w; trace := trace w ++ [e] |}.

#[export] Instance scripted_endpoint : Transport scripted := {
  requests_request _ tok w :=
    (answers w (requests_made (trace w)), log_event (Requested tok) w);
  time_sleep secs w := log_event (Slept secs) w;
  fetch_token w := ("renewed", log_event Refreshed w)
}.

End Upload.

(** * Properties *)

Import Csv.

(** ** Facts about the string primitives *)

Section StripFacts.
Variable f : ascii -> bool.

Lemma lstrip_by_idem s : lstrip_by f (lstrip_by f s) = lstrip_by f s.
Proof.
  induction s as [|c s IH]; simpl; [reflexivity|].
  destruct (f c) eqn:E; [exact IH|]. simpl. now rewrite E.
Qed.

Lemma rstrip_by_idem s : rstrip_by f (rstrip_by f s) = rstrip_by f s.
Proof.
  induction s as [|c s IH]; simpl; [reflexivity|].
  destruct (rstrip_by f s) as [|d r] eqn:E.
  - destruct (f c) eqn:Ec; simpl; [reflexivity|]. now rewrite Ec.
  - change (rstrip_by f (String c (String d r)))
      with (match rstrip_by f (String d r) with
            | EmptyString => if f c then EmptyString else String c EmptyString
            | r' => String c r'
            end).
    now rewrite IH.
Qed.

Lemma rstrip_lstrip_comm s :
  rstrip_by f (lstrip_by f s) = lstrip_by f (rstrip_by f s).
Proof.
  induction s as [|c s IH]; simpl; [reflexivity|].
  destruct (f c) eqn:Ec.
  - rewrite IH. destruct (rstrip_by f s) as [|d r] eqn:E; simpl;
      [reflexivity | now rewrite Ec].
  - simpl. destruct (rstrip_by f s) as [|d r] eqn:E; simpl; now rewrite Ec.
Qed.

Lemma strip_by_idem s : strip_by f (strip_by f s) = strip_by f s.
Proof.
  unfold strip_by.
  now rewrite rstrip_lstrip_comm, rstrip_by_idem, lstrip_by_idem.
Qed.
End StripFacts.

Lemma strip_idem s : strip (strip s) = strip s.
Proof. apply strip_by_idem. Qed.

Lemma str_in_In s l : str_in s l = true <-> In s l.
Proof.
  unfold str_in. rewrite existsb_exists. split.
  - intros (x & Hx & E). apply String.eqb_eq in E. now subst.
  - intros H. exists s. split; [exact H | apply String.eqb_refl].
Qed.

Lemma str_in_not_In s l : str_in s l = false <-> ~ In s l.
Proof.
  rewrite <- str_in_In. destruct (str_in s l); split; intros; congruence.
Qed.

Lemma truthy_false s : truthy s = false <-> s = "".
Proof. destruct s; simpl; split; congruence. Qed.

Lemma truthy_true s : truthy s = true <-> s <> "".
Proof. destruct s; simpl; split; congruence. Qed.

(** ** The text operations of the specification

    The operations that the specification names, each defined on its own:
    none of them uses a function of the embedding.  The lemmas after them
    show that the functions of the embedding compute them. *)

Definition chars (s : string) : list ascii := list_ascii_of_string s.
Definition text (l : list ascii) : string := string_of_list_ascii l.

Definition line_feed : ascii := ascii_of_nat 10.

(** The white space characters, by their codes. *)
Definition white_space : list ascii :=
  map ascii_of_nat [9; 10; 11; 12; 13; 28; 29; 30; 31; 32].

Definition white (c : ascii) : bool := existsb (Ascii.eqb c) white_space.

Definition underscore (c : ascii) : bool := Ascii.eqb c "_"%char.

(** Trimming: the characters of a class are dropped from the front of the
    text and from the front of the reversed text. *)
Fixpoint drop_leading (f : ascii -> bool) (l : list ascii) : list ascii :=
  match l with
  | [] => []
  | c :: l' => if f c then drop_leading f l' else l
  end.

Definition trim_where (f : ascii -> bool) (s : string) : string :=
  text (rev (drop_leading f (rev (drop_leading f (chars s))))).

Definition trim (s : string) : string := trim_where white s.

(** Whether a character occurs in a text. *)
Definition occurs (c : ascii) (s : string) : bool :=
  existsb (Ascii.eqb c) (chars s).

(** The pieces of a text around the occurrences of a separator, collected
    from the left; [cur] is the piece being read, reversed. *)
Fixpoint pieces_from (cur : list ascii) (sep : ascii) (l : list ascii)
  : list string :=
  match l with
  | [] => [text (rev cur)]
  | c :: l' =>
      if Ascii.eqb c sep then text (rev cur) :: pieces_from [] sep l'
      else pieces_from (c :: cur) sep l'
  end.

Definition pieces (sep : ascii) (s : string) : list string :=
  pieces_from [] sep (chars s).

(** The words of a text: its maximal runs of characters that are not white
    space.  A character that is not white space starts a new word when white
    space or the end follows it, else it goes in front of the word that
    follows. *)
Fixpoint words_of (s : string) : list string :=
  match s with
  | EmptyString => []
  | String c s' =>
      if white c then words_of s'
      else match s' with
           | EmptyString => [String c EmptyString]
           | String d _ =>
               if white d then String c EmptyString :: words_of s'
               else match words_of s' with
                    | w :: ws => String c w :: ws
                    | [] => [String c EmptyString]
                    end
           end
  end.

(** Lower-casing by the two alphabets. *)
Definition upper_case : list ascii := chars "ABCDEFGHIJKLMNOPQRSTUVWXYZ".
Definition lower_case : list ascii := chars "abcdefghijklmnopqrstuvwxyz".

Fixpoint letter_for (c : ascii) (from to : list ascii) : ascii :=
  match from, to with
  | a :: from', b :: to' => if Ascii.eqb c a then b else letter_for c from' to'
  | _, _ => c
  end.

Definition lower_cased (s : string) : string :=
  text (map (fun c => letter_for c upper_case lower_case) (chars s)).

(** The characters of [[a-z0-9_]]. *)
Definition tag_alphabet : list ascii :=
  chars "abcdefghijklmnopqrstuvwxyz0123456789_".

Definition in_alphabet (c : ascii) : bool := existsb (Ascii.eqb c) tag_alphabet.

Definition only_alphabet (s : string) : string :=
  text (List.filter in_alphabet (chars s)).

(** Collapsing repeated underscores: an underscore that follows an
    underscore is dropped. *)
Fixpoint squeezed_after (after_underscore : bool) (s : string) : string :=
  match s with
  | EmptyString => EmptyString
  | String c s' =>
      if underscore c
      then if after_underscore then squeezed_after true s'
           else String c (squeezed_after true s')
      else String c (squeezed_after false s')
  end.

Definition squeezed (s : string) : string := squeezed_after false s.



(** *** The functions of the embedding compute them *)

Lemma last_char_snoc s c : last_char (s +:+ String c "") = Some c.
Proof.
  induction s as [|a s IH]; [reflexivity|].
  simpl. rewrite IH. now destruct (s +:+ String c "").
Qed.

Lemma drop_last_snoc s c : drop_last (s +:+ String c "") = s.
Proof.
  induction s as [|a s IH]; [reflexivity|].
  simpl. rewrite IH. destruct s; reflexivity.
Qed.

Lemma length_snoc s c : String.length (s +:+ String c "") = S (String.length s).
Proof. induction s as [|a s IH]; simpl; [reflexivity | now rewrite IH]. Qed.

Lemma text_chars s : text (chars s) = s.
Proof. apply string_of_list_ascii_of_string. Qed.

Lemma chars_text l : chars (text l) = l.
Proof. apply list_ascii_of_string_of_list_ascii. Qed.

Lemma chars_app s t : chars (s +:+ t) = chars s ++ chars t.
Proof. induction s as [|c s IH]; simpl; [reflexivity | now rewrite IH]. Qed.

Lemma text_app l m : text (l ++ m) = text l +:+ text m.
Proof. induction l as [|c l IH]; simpl; [reflexivity | now rewrite IH]. Qed.

Lemma append_empty s : s +:+ "" = s.
Proof.
  induction s as [|c s IH]; [reflexivity|].
  change (String c (s +:+ "") = String c s). now rewrite IH.
Qed.

Lemma append_assoc s t u : (s +:+ t) +:+ u = s +:+ (t +:+ u).
Proof.
  induction s as [|c s IH]; [reflexivity|].
  change (String c ((s +:+ t) +:+ u) = String c (s +:+ (t +:+ u))).
  now rewrite IH.
Qed.

Lemma is_space_white c : is_space c = white c.
Proof. destruct c as [[] [] [] [] [] [] [] []]; reflexivity. Qed.

Lemma lower_ascii_letter c : lower_ascii c = letter_for c upper_case lower_case.
Proof. destruct c as [[] [] [] [] [] [] [] []]; reflexivity. Qed.

Lemma is_ident_char_alphabet c : is_ident_char c = in_alphabet c.
Proof. destruct c as [[] [] [] [] [] [] [] []]; reflexivity. Qed.

Lemma lower_cased_eq s : lower s = lower_cased s.
Proof.
  unfold lower_cased. induction s as [|c s IH]; [reflexivity|].
  cbn [lower chars list_ascii_of_string map text string_of_list_ascii].
  now rewrite lower_ascii_letter, IH.
Qed.

Lemma filter_chars_eq f s : filter_chars f s = text (List.filter f (chars s)).
Proof.
  induction s as [|c s IH]; [reflexivity|].
  cbn [filter_chars chars list_ascii_of_string List.filter].
  destruct (f c); cbn [text string_of_list_ascii]; now rewrite IH.
Qed.

Lemma filter_ext_bool {A} (f g : A -> bool) l :
  (forall x, f x = g x) -> List.filter f l = List.filter g l.
Proof.
  intros H. induction l as [|x l IH]; simpl; [reflexivity|].
  now rewrite H, IH.
Qed.

Lemma sub_non_ident_eq s : sub_non_ident s = only_alphabet s.
Proof.
  unfold sub_non_ident, only_alphabet. rewrite filter_chars_eq.
  f_equal. apply filter_ext_bool, is_ident_char_alphabet.
Qed.

Section TrimFacts.
Variable f : ascii -> bool.

Lemma chars_lstrip_by s : chars (lstrip_by f s) = drop_leading f (chars s).
Proof.
  induction s as [|c s IH]; [reflexivity|].
  cbn [lstrip_by chars list_ascii_of_string drop_leading].
  destruct (f c); [exact IH | reflexivity].
Qed.

Lemma drop_leading_snoc l c :
  drop_leading f (l ++ [c])
  = match drop_leading f l with
    | [] => if f c then [] else [c]
    | d :: m => d :: m ++ [c]
    end.
Proof.
  induction l as [|a l IH]; [reflexivity|].
  cbn [app drop_leading]. destruct (f a); [exact IH | reflexivity].
Qed.

Lemma chars_rstrip_by s :
  chars (rstrip_by f s) = rev (drop_leading f (rev (chars s))).
Proof.
  induction s as [|c s IH]; [reflexivity|].
  cbn [rstrip_by chars list_ascii_of_string rev].
  rewrite drop_leading_snoc.
  fold (chars s) in *.
  destruct (rstrip_by f s) as [|d r] eqn:E.
  - destruct (drop_leading f (rev (chars s))) as [|x m].
    + now destruct (f c).
    + exfalso. simpl in IH. destruct (rev m); discriminate.
  - destruct (drop_leading f (rev (chars s))) as [|x m].
    + discriminate.
    + change (rev (x :: m ++ [c])) with (rev ((x :: m) ++ [c])).
      rewrite rev_app_distr. cbn [rev app]. cbn [rev] in IH. now rewrite <- IH.
Qed.

Lemma strip_by_trim s : strip_by f s = trim_where f s.
Proof.
  unfold strip_by, trim_where. rewrite <- rstrip_lstrip_comm.
  rewrite <- chars_lstrip_by, <- chars_rstrip_by. now rewrite text_chars.
Qed.
End TrimFacts.

Lemma drop_leading_ext f g l :
  (forall c, f c = g c) -> drop_leading f l = drop_leading g l.
Proof.
  intros H. induction l as [|c l IH]; [reflexivity|].
  cbn [drop_leading]. now rewrite H, IH.
Qed.

Lemma strip_trim s : strip s = trim s.
Proof.
  unfold strip, trim. rewrite strip_by_trim. unfold trim_where.
  now rewrite !(drop_leading_ext is_space white) by apply is_space_white.
Qed.

Lemma strip_underscores_trim s :
  strip_by is_underscore s = trim_where underscore s.
Proof. apply strip_by_trim. Qed.

Lemma contains_occurs c s : contains c s = occurs c s.
Proof.
  unfold occurs. induction s as [|d s IH]; [reflexivity|].
  cbn [contains chars list_ascii_of_string existsb]. now rewrite IH.
Qed.

Lemma split_nonempty c s : split c s <> [].
Proof.
  induction s as [|d s IH]; simpl; [discriminate|].
  destruct (Ascii.eqb c d); [discriminate|]. now destruct (split c s).
Qed.

Lemma pieces_from_split sep s : forall cur,
  pieces_from cur sep (chars s)
  = match split sep s with
    | w :: ws => (text (rev cur) +:+ w) :: ws
    | [] => []
    end.
Proof.
  induction s as [|d s IH]; intros cur.
  - cbn. now rewrite append_empty.
  - cbn [chars list_ascii_of_string pieces_from split].
    rewrite (Ascii.eqb_sym d sep). fold (chars s).
    pose proof (split_nonempty sep s) as Hn. destruct (Ascii.eqb sep d).
    + rewrite append_empty, IH. now destruct (split sep s).
    + rewrite IH. destruct (split sep s) as [|w ws]; [contradiction|].
      cbn [rev]. rewrite text_app. cbn [text string_of_list_ascii].
      now rewrite append_assoc.
Qed.

Lemma split_pieces sep s : split sep s = pieces sep s.
Proof.
  unfold pieces. rewrite pieces_from_split.
  pose proof (split_nonempty sep s). now destruct (split sep s).
Qed.

(** What [split_ws_aux] gives when a word is being read. *)
Definition resumed (w s : string) : list string :=
  match s with
  | EmptyString => [w]
  | String c _ =>
      if white c then w :: words_of s
      else match words_of s with
           | x :: xs => (w +:+ x) :: xs
           | [] => [w]
           end
  end.

Lemma words_of_cons c s :
  white c = false ->
  words_of (String c s) = resumed (String c EmptyString) s.
Proof.
  intros H. cbn [words_of]. rewrite H. destruct s as [|d s]; [reflexivity|].
  cbn [resumed]. destruct (white d); [reflexivity|].
  now destruct (words_of (String d s)).
Qed.

Lemma split_ws_aux_words s :
  split_ws_aux None s = words_of s
  /\ forall w, split_ws_aux (Some w) s = resumed w s.
Proof.
  induction s as [|c s [IH0 IH1]]; [split; reflexivity|].
  cbn [split_ws_aux]. rewrite is_space_white.
  destruct (white c) eqn:Ec.
  - split.
    + rewrite IH0. cbn [words_of]. now rewrite Ec.
    + intros w. rewrite IH0. cbn [resumed]. rewrite Ec.
      cbn [words_of]. now rewrite Ec.
  - split.
    + rewrite IH1. now rewrite words_of_cons.
    + intros w. rewrite IH1. cbn [resumed]. rewrite Ec.
      rewrite (words_of_cons c s Ec).
      destruct s as [|d s]; [reflexivity|]. cbn [resumed].
      destruct (white d).
      * reflexivity.
      * destruct (words_of (String d s)) as [|x xs]; [reflexivity|].
        now rewrite append_assoc.
Qed.

Lemma split_ws_words s : split_ws s = words_of s.
Proof. apply split_ws_aux_words. Qed.

Lemma join_concat sep l : join sep l = String.concat sep l.
Proof.
  induction l as [|w [|x l] IH]; [reflexivity | reflexivity|].
  change (join sep (w :: x :: l)) with (w +:+ sep +:+ join sep (x :: l)).
  now rewrite IH.
Qed.

Lemma sub_runs_run f c s :
  f c = true ->
  sub_runs f (String c s) = String "_"%char (sub_runs f (lstrip_by f s)).
Proof.
  intros Hc. induction s as [|d s IH].
  - cbn [sub_runs lstrip_by]. now rewrite Hc.
  - change (sub_runs f (String c (String d s)))
      with (if f c
            then if f d then sub_runs f (String d s)
                 else String "_"%char (sub_runs f (String d s))
            else String c (sub_runs f (String d s))).
    rewrite Hc. cbn [lstrip_by]. destruct (f d) eqn:Ed; [|reflexivity].
    transitivity (sub_runs f (String c s)); [|exact IH].
    cbn [sub_runs]. now rewrite Hc, Ed.
Qed.

Lemma squeezed_after_eq s :
  squeezed_after false s = sub_runs is_underscore s
  /\ squeezed_after true s = sub_runs is_underscore (lstrip_by is_underscore s).
Proof.
  induction s as [|c s [IH0 IH1]]; [split; reflexivity|].
  cbn [squeezed_after lstrip_by].
  change (is_underscore c) with (underscore c).
  destruct (underscore c) eqn:Ec.
  - rewrite IH1. split; [|reflexivity].
    rewrite (sub_runs_run is_underscore c s Ec).
    unfold underscore in Ec. apply Ascii.eqb_eq in Ec. now subst c.
  - rewrite IH0. split; cbn [sub_runs];
      change (is_underscore c) with (underscore c); now rewrite Ec.
Qed.

Lemma sub_runs_squeezed s : sub_runs is_underscore s = squeezed s.
Proof. symmetry. apply squeezed_after_eq. Qed.








Lemma startswith_prefix p s : startswith p s = String.prefix p s.
Proof.
  revert s. induction p as [|a p IH]; intros s; [now destruct s|].
  destruct s as [|b s]; [reflexivity|].
  cbn [startswith String.prefix]. rewrite IH.
  destruct (ascii_dec a b) as [->|Hn].
  - now rewrite Ascii.eqb_refl.
  - apply Ascii.eqb_neq in Hn. now rewrite Hn.
Qed.

(** ** The cell normaliser *)

(** The sentinel tokens as the specification words them: em-dash, hyphen,
    a run of underscores, blank, and n/a, none, nan in any letter case. *)
Definition all_underscores (s : string) : bool :=
  truthy s && String.eqb (filter_chars (fun c => negb (is_underscore c)) s) "".

Definition sentinel_as_worded (s : string) : bool :=
  str_in s ["—"; "-"; ""] || all_underscores s
  || str_in (lower s) ["n/a"; "none"; "nan"].



Lemma sanitize_underscore_run_kept :
  sentinel_as_worded "___" = true /\ sanitize (Str "___") = Some "___".
Proof. split; reflexivity. Qed.


(** ** The chip parser *)


(** What the loop of [parse_chips] makes of a part. *)
Definition chip_clean (p : string) : string :=
  strip_wrapping_quotes (replace dqdq dq (strip p)).

Definition chip_kept (q : string) : bool :=
  truthy q && negb (str_in q chip_empty).

(** What the loop that removes duplicates keeps of [l] when [seen] has been
    seen. *)
Fixpoint first_occurrences_from (seen l : list string) : list string :=
  match l with
  | [] => []
  | x :: l' =>
      if str_in x seen then first_occurrences_from seen l'
      else x :: first_occurrences_from (x :: seen) l'
  end.


Lemma parse_chips_step_eq chips p :
  parse_chips_step chips p =
    chips ++ (if chip_kept (chip_clean p) then [chip_clean p] else []).
Proof.
  unfold parse_chips_step, chip_clean, chip_kept.
  destruct (strip p) as [|a s] eqn:E; simpl negb; cbv iota.
  - vm_compute (strip_wrapping_quotes _). simpl. now rewrite app_nil_r.
  - destruct (truthy _ && negb _); [reflexivity | now rewrite app_nil_r].
Qed.

Lemma parse_chips_loop parts : forall chips,
  fold_left parse_chips_step parts chips =
    chips ++ List.filter chip_kept (map chip_clean parts).
Proof.
  induction parts as [|p parts IH]; intros chips; simpl.
  - now rewrite app_nil_r.
  - rewrite IH, parse_chips_step_eq.
    destruct (chip_kept (chip_clean p)); simpl.
    + now rewrite <- app_assoc.
    + now rewrite app_nil_r.
Qed.

Lemma dedup_loop l : forall (seen : gset string) (seenl out : list string),
  (forall x, x ∈ seen <-> In x seenl) ->
  snd (fold_left dedup_step l (seen, out)) = out ++ first_occurrences_from seenl l.
Proof.
  induction l as [|c l IH]; intros seen seenl out Hs; simpl.
  - now rewrite app_nil_r.
  - destruct (str_in c seenl) eqn:E.
    + apply str_in_In in E. rewrite bool_decide_eq_true_2 by now apply Hs.
      now apply IH.
    + apply str_in_not_In in E.
      rewrite bool_decide_eq_false_2 by (intros H; now apply Hs in H).
      rewrite (IH _ (c :: seenl)).
      * now rewrite <- app_assoc.
      * intros x. rewrite elem_of_union, elem_of_singleton, Hs. simpl.
        split; (intros [H|H]; [left; congruence | right; exact H]).
Qed.

Lemma first_occurrences_from_In seen l x :
  In x (first_occurrences_from seen l) <-> In x l /\ ~ In x seen.
Proof.
  revert seen. induction l as [|y l IH]; intros seen; simpl.
  - tauto.
  - destruct (str_in y seen) eqn:E.
    + apply str_in_In in E. rewrite IH. split.
      * tauto.
      * intros [[->|H] Hn]; [contradiction | tauto].
    + apply str_in_not_In in E. simpl. rewrite IH. simpl. split.
      * intros [->|[H Hn]]; tauto.
      * intros [[->|H] Hn]; [tauto|].
        destruct (String.eqb_spec y x); [tauto|]. right. tauto.
Qed.















Lemma in_dec_str_in (x : string) (l : list string) :
  (if in_dec string_dec x l then true else false) = str_in x l.
Proof.
  destruct (in_dec string_dec x l) as [H|H]; symmetry.
  - now apply str_in_In.
  - now apply str_in_not_In.
Qed.

Lemma str_in_perm x l m :
  (forall y, In y l <-> In y m) -> str_in x l = str_in x m.
Proof.
  intros H. destruct (str_in x m) eqn:E.
  - apply str_in_In. apply H. now apply str_in_In.
  - apply str_in_not_In. rewrite H. now apply str_in_not_In.
Qed.











(** ** The next-page parser *)

(** What a next-page cell resolves to before it is matched with the chips:
    termination, one target for every chip, or a list of per-chip targets. *)
Inductive resolution :=
| Terminates
| Single (s : string)
| Targets (ts : list (option string)).

(** What the cleaning loop of [parse_next_pages] makes of a segment. *)
Definition resolve_target (t : string) : option string :=
  if truthy t && negb (str_in t next_page_empty) then Some t else None.

Definition resolve_cell (cell : option string) : resolution :=
  match cell with
  | None => Terminates
  | Some c =>
      let s := strip c in
      if str_in s ("" :: next_page_empty) then Terminates
      else if contains newline s
           then Targets (map resolve_target (split_targets newline s))
           else if contains "/"%char s && negb (startswith "http" s)
                then Targets (map resolve_target (split_targets "/"%char s))
                else Single s
  end.

(** Cardinality reconciliation as the specification words it. *)
Definition reconcile (r : resolution) (k : nat) : list (option string) * list warning :=
  match r with
  | Terminates => (repeat None k, [])
  | Single s => (repeat (Some s) k, [])
  | Targets ts =>
      if length ts =? 1 then (repeat (hd None ts) k, [])
      else if length ts =? k then (ts, [])
           else (firstn k (ts ++ repeat (List.last ts None) (k - length ts)),
                 [NextPageCountMismatch (length ts) k])
  end.

(** The target of chip [i] after reconciliation. *)
Definition chip_target (r : resolution) (i : nat) : option string :=
  match r with
  | Terminates => None
  | Single s => Some s
  | Targets ts =>
      if length ts =? 1 then hd None ts
      else if i <? length ts then nth i ts None else List.last ts None
  end.

Lemma list_mul_singleton {A} (x : A) k : list_mul [x] k = repeat x k.
Proof. induction k as [|k IH]; simpl; [reflexivity | now rewrite IH]. Qed.

Lemma clean_targets_loop ts : forall acc,
  fold_left clean_target_step ts acc = acc ++ map resolve_target ts.
Proof.
  induction ts as [|t ts IH]; intros acc; simpl.
  - now rewrite app_nil_r.
  - rewrite IH. unfold clean_target_step, resolve_target.
    destruct (truthy t && negb (str_in t next_page_empty));
      now rewrite <- app_assoc.
Qed.

Lemma last_snoc_last {A} (l : list A) (d : A) :
  List.last (l ++ [List.last l d]) d = List.last l d.
Proof. now rewrite last_last. Qed.

Lemma last_app_repeat {A} (l : list A) (d : A) n :
  List.last (l ++ repeat (List.last l d) n) d = List.last l d.
Proof.
  induction n as [|n IH]; simpl.
  - now rewrite app_nil_r.
  - rewrite repeat_cons, app_assoc. now rewrite last_last.
Qed.

(** The padding loop stops, with the list extended by copies of its last
    element, as soon as the fuel covers the missing entries. *)
Lemma pad_targets_closed fuel : forall ts k,
  k - length ts <= fuel ->
  pad_targets fuel ts k = ts ++ repeat (List.last ts None) (k - length ts).
Proof.
  induction fuel as [|fuel IH]; intros ts k Hf; simpl.
  - replace (k - length ts) with 0 by lia. simpl. now rewrite app_nil_r.
  - destruct (Nat.ltb_spec (length ts) k) as [Hlt|Hge].
    + rewrite IH by (rewrite length_app; simpl; lia).
      rewrite last_snoc_last, length_app. simpl.
      replace (k - length ts) with (S (k - (length ts + 1))) by lia.
      simpl. now rewrite <- app_assoc.
    + replace (k - length ts) with 0 by lia. simpl. now rewrite app_nil_r.
Qed.

Lemma reconcile_length r k : length (fst (reconcile r k)) = k.
Proof.
  destruct r as [|s|ts]; simpl; try apply repeat_length.
  destruct (Nat.eqb_spec (length ts) 1); simpl; [apply repeat_length|].
  destruct (Nat.eqb_spec (length ts) k); simpl; [assumption|].
  rewrite length_firstn, length_app, repeat_length. lia.
Qed.

Lemma reconcile_nth r k i :
  i < k -> nth i (fst (reconcile r k)) None = chip_target r i.
Proof.
  intros Hi. destruct r as [|s|ts]; simpl.
  - apply nth_repeat_lt; assumption.
  - apply nth_repeat_lt; assumption.
  - destruct (Nat.eqb_spec (length ts) 1); simpl.
    { apply nth_repeat_lt; assumption. }
    destruct (Nat.eqb_spec (length ts) k) as [->|Hne]; simpl.
    { apply Nat.ltb_lt in Hi. now rewrite Hi. }
    rewrite nth_firstn. apply Nat.ltb_lt in Hi. rewrite Hi.
    destruct (Nat.ltb_spec i (length ts)) as [Hlt|Hge].
    + now apply app_nth1.
    + rewrite app_nth2 by lia. apply Nat.ltb_lt in Hi.
      apply nth_repeat_lt. lia.
Qed.

(** The tokens that the next-page parser takes for no target. *)
Definition target_tokens : list string := ["-"; "_"; "__"; "—"; "N/A"; "n/a"].

(** A segment as a target: none for the empty text and for a token. *)
Definition target_of (t : string) : option string :=
  if in_dec string_dec t ("" :: target_tokens) then None else Some t.

(** The segments of a cell around a separator: the pieces, trimmed, without
    the empty ones. *)
Definition segments (sep : ascii) (s : string) : list string :=
  List.filter (fun t => negb (String.eqb t "")) (map trim (pieces sep s)).

(** What a next-page cell resolves to: termination for an absent cell and
    for one whose trimmed text is empty or a token; the targets of its lines
    when it has a line break; the targets of its segments between slashes
    when it has a slash and does not start with http; else its trimmed text
    as the one target. *)
Definition resolution_of (cell : option string) : resolution :=
  match cell with
  | None => Terminates
  | Some c =>
      let s := trim c in
      if in_dec string_dec s ("" :: target_tokens) then Terminates
      else if occurs line_feed s
           then Targets (map target_of (segments line_feed s))
           else if occurs "/"%char s && negb (String.prefix "http" s)
                then Targets (map target_of (segments "/"%char s))
                else Single s
  end.

Lemma target_tokens_empty y :
  In y ("" :: next_page_empty) <-> In y ("" :: target_tokens).
Proof. unfold next_page_empty, target_tokens. simpl. tauto. Qed.

Lemma resolve_target_of t : resolve_target t = target_of t.
Proof.
  unfold resolve_target, target_of.
  destruct (in_dec string_dec t ("" :: target_tokens)) as [H|H].
  - apply target_tokens_empty in H. destruct H as [<-|H]; [reflexivity|].
    apply str_in_In in H. rewrite H. now rewrite andb_false_r.
  - assert (truthy t = true) as ->
      by (apply truthy_true; intros ->; apply H; now left).
    assert (str_in t next_page_empty = false) as ->; [|reflexivity].
    apply str_in_not_In. intros Hq. apply H, target_tokens_empty. now right.
Qed.

Lemma split_targets_segments sep s : split_targets sep s = segments sep s.
Proof.
  unfold split_targets, segments. rewrite <- split_pieces.
  induction (split sep s) as [|t l IH]; [reflexivity|].
  cbn [List.filter map]. rewrite <- IH, <- strip_trim.
  now destruct (strip t) eqn:E; cbn [truthy negb String.eqb map]; rewrite ?E.
Qed.

Lemma resolve_cell_of cell : resolve_cell cell = resolution_of cell.
Proof.
  destruct cell as [c|]; [|reflexivity]. unfold resolve_cell, resolution_of.
  cbv zeta. rewrite strip_trim.
  rewrite (str_in_perm _ _ _ target_tokens_empty), <- in_dec_str_in.
  destruct (in_dec string_dec (trim c) ("" :: target_tokens)); [reflexivity|].
  rewrite !contains_occurs, startswith_prefix, !split_targets_segments.
  now rewrite !(map_ext _ _ resolve_target_of).
Qed.

Lemma parse_next_pages_eq cell k :
  parse_next_pages cell k = reconcile (resolve_cell cell) k.
Proof.
  unfold parse_next_pages, resolve_cell.
  destruct cell as [c|]; [|simpl; now rewrite list_mul_singleton].
  set (s := strip c).
  assert (Hb : negb (truthy s) || str_in s next_page_empty
               = str_in s ("" :: next_page_empty)).
  { destruct s; reflexivity. }
  rewrite Hb. destruct (str_in s ("" :: next_page_empty));
    [simpl; now rewrite list_mul_singleton|].
  assert (Hr : forall ts,
    (if length (fold_left clean_target_step ts []) =? 1
     then (list_mul (fold_left clean_target_step ts []) k, [])
     else if length (fold_left clean_target_step ts []) =? k
          then (fold_left clean_target_step ts [], [])
          else (firstn k (pad_targets k (fold_left clean_target_step ts []) k),
                [NextPageCountMismatch
                   (length (fold_left clean_target_step ts [])) k]))
    = reconcile (Targets (map resolve_target ts)) k).
  { intros ts. rewrite clean_targets_loop. simpl app. simpl reconcile.
    destruct (Nat.eqb_spec (length (map resolve_target ts)) 1) as [H1|H1].
    - destruct (map resolve_target ts) as [|x [|y l]]; try discriminate.
      simpl hd. now rewrite list_mul_singleton.
    - destruct (Nat.eqb_spec (length (map resolve_target ts)) k);
        [reflexivity|].
      rewrite pad_targets_closed by lia. reflexivity. }
  destruct (contains newline s); [apply Hr|].
  destruct (contains "/"%char s && negb (startswith "http" s)); [apply Hr|].
  simpl. now rewrite list_mul_singleton.
Qed.

(** C4, as worded, fails: the word none and a run of three underscores are
    sentinel tokens of the specification; the cell normaliser lets both
    through, and the next-page parser gives them to every chip as a
    target. *)
Lemma parse_next_pages_sentinel_counterexample :
  sentinel_as_worded "none" = true
  /\ sanitize (Str "none") = Some "none"
  /\ parse_next_pages (Some "none") 2 = ([Some "none"; Some "none"], [])
  /\ sentinel_as_worded "___" = true
  /\ sanitize (Str "___") = Some "___"
  /\ parse_next_pages (Some "___") 2 = ([Some "___"; Some "___"], []).
Proof. repeat split; vm_compute; reflexivity. Qed.

(** C4 (amended): for every cell and every chip count [k],
    [parse_next_pages] returns exactly [k] targets and never fails: none
    everywhere for an absent cell and for a cell whose trimmed text is
    empty or one of the six tokens hyphen, underscore, two underscores,
    em-dash, N/A and n/a, compared exactly; the one target for every chip
    when the cell resolves to a single target; the targets in their
    positions when there are as many as chips; and otherwise the targets
    followed by repetitions of the last one (none when there is no target),
    cut to [k], together with one mismatch warning. *)
Theorem parse_next_pages_reconciles (cell : option string) (k : nat) :
  parse_next_pages cell k = reconcile (resolution_of cell) k
  /\ length (fst (parse_next_pages cell k)) = k
  /\ (forall i, i < k ->
        nth i (fst (parse_next_pages cell k)) None
        = chip_target (resolution_of cell) i)
  /\ (snd (parse_next_pages cell k) <> [] <->
        exists ts, resolution_of cell = Targets ts
                   /\ length ts <> 1 /\ length ts <> k)
  /\ parse_next_pages None k = (repeat None k, [])
  /\ Forall (fun t => parse_next_pages (Some t) k = (repeat None k, []))
            ("" :: "  " :: target_tokens)
  /\ parse_next_pages (Some "PageA") 3
     = ([Some "PageA"; Some "PageA"; Some "PageA"], [])
  /\ parse_next_pages (Some "PageA/PageB/PageC") 3
     = ([Some "PageA"; Some "PageB"; Some "PageC"], [])
  /\ parse_next_pages (Some "PageA/PageB") 3
     = ([Some "PageA"; Some "PageB"; Some "PageB"], [NextPageCountMismatch 2 3])
  /\ parse_next_pages (Some "PageA / - / PageC") 2
     = ([Some "PageA"; None], [NextPageCountMismatch 3 2])
  /\ parse_next_pages (Some ("PageA" +:+ String line_feed " PageB ")) 2
     = ([Some "PageA"; Some "PageB"], [])
  /\ parse_next_pages (Some "/") 2 = ([None; None], [NextPageCountMismatch 0 2])
  /\ parse_next_pages (Some "https://example.org/a") 2
     = ([Some "https://example.org/a"; Some "https://example.org/a"], []).
Proof.
  assert (E : parse_next_pages cell k = reconcile (resolution_of cell) k).
  { rewrite <- resolve_cell_of. apply parse_next_pages_eq. }
  split; [exact E|]. rewrite E.
  split; [apply reconcile_length|]. split; [intros i; apply reconcile_nth|].
  split.
  { destruct (resolution_of cell) as [|s|ts]; simpl.
    - split; [congruence | intros (ts & H & _); discriminate].
    - split; [congruence | intros (ts & H & _); discriminate].
    - destruct (Nat.eqb_spec (length ts) 1); simpl.
      { split; [congruence | intros (ts' & [= <-] & H1 & _); contradiction]. }
      destruct (Nat.eqb_spec (length ts) k); simpl.
      { split; [congruence | intros (ts' & [= <-] & _ & H2); contradiction]. }
      split; [intros _; now exists ts | discriminate]. }
  split; [now rewrite parse_next_pages_eq|].
  split.
  { repeat constructor; rewrite parse_next_pages_eq; reflexivity. }
  repeat split; vm_compute; reflexivity.
Qed.

(** ** The tag generator *)

Fixpoint chars_all (f : ascii -> bool) (s : string) : bool :=
  match s with
  | EmptyString => true
  | String c s' => f c && chars_all f s'
  end.

(** Two adjacent characters of the class [f]. *)
Fixpoint has_double (f : ascii -> bool) (s : string) : bool :=
  match s with
  | String a s' =>
      match s' with
      | String b _ => (f a && f b) || has_double f s'
      | EmptyString => false
      end
  | EmptyString => false
  end.

Definition first_char (s : string) : option ascii :=
  match s with String c _ => Some c | EmptyString => None end.

Definition char_is (f : ascii -> bool) (o : option ascii) : bool :=
  match o with Some c => f c | None => false end.

(** An identifier as the tag generator and [slugify] produce them: only
    characters of [[a-z0-9_]], no underscore next to another, none at either
    end. *)
Definition identifier (t : string) : Prop :=
  chars_all is_ident_char t = true
  /\ has_double is_underscore t = false
  /\ char_is is_underscore (first_char t) = false
  /\ char_is is_underscore (last_char t) = false.

Section CharFacts.
Variables f g : ascii -> bool.

Lemma chars_all_filter s : chars_all f (filter_chars f s) = true.
Proof.
  induction s as [|c s IH]; simpl; [reflexivity|].
  destruct (f c) eqn:E; simpl; [now rewrite E|exact IH].
Qed.

Lemma chars_all_lstrip s :
  chars_all g s = true -> chars_all g (lstrip_by f s) = true.
Proof.
  induction s as [|c s IH]; simpl; [reflexivity|].
  intros H. apply andb_true_iff in H as [Hc Hs].
  destruct (f c); [now apply IH | simpl; now rewrite Hc, Hs].
Qed.

Lemma chars_all_rstrip s :
  chars_all g s = true -> chars_all g (rstrip_by f s) = true.
Proof.
  induction s as [|c s IH]; simpl; [reflexivity|].
  intros H. apply andb_true_iff in H as [Hc Hs]. specialize (IH Hs).
  destruct (rstrip_by f s) as [|d r].
  - destruct (f c); simpl; [reflexivity | now rewrite Hc].
  - change (chars_all g (String c (String d r)))
      with (g c && chars_all g (String d r)). now rewrite Hc, IH.
Qed.

Lemma chars_all_sub_runs s :
  g "_"%char = true -> chars_all g s = true ->
  chars_all g (sub_runs f s) = true.
Proof.
  intros Hu. induction s as [|c s IH]; simpl; [reflexivity|].
  intros H. apply andb_true_iff in H as [Hc Hs]. specialize (IH Hs).
  destruct (f c).
  - destruct s as [|d s]; [simpl; now rewrite Hu|].
    destruct (f d); [exact IH|].
    change (g "_"%char && chars_all g (sub_runs f (String d s)) = true).
    now rewrite Hu, IH.
  - simpl. now rewrite Hc, IH.
Qed.

Lemma first_char_lstrip s : char_is f (first_char (lstrip_by f s)) = false.
Proof.
  induction s as [|c s IH]; simpl; [reflexivity|].
  destruct (f c) eqn:E; [exact IH | simpl; exact E].
Qed.

Lemma last_char_rstrip s : char_is f (last_char (rstrip_by f s)) = false.
Proof.
  induction s as [|c s IH]; simpl; [reflexivity|].
  destruct (rstrip_by f s) as [|d r].
  - destruct (f c) eqn:E; simpl; [reflexivity | exact E].
  - exact IH.
Qed.

Lemma last_char_lstrip s :
  char_is g (last_char s) = false ->
  char_is g (last_char (lstrip_by f s)) = false.
Proof.
  induction s as [|c s IH]; [reflexivity|].
  intros H. simpl lstrip_by. destruct (f c); [|exact H].
  apply IH. destruct s; [reflexivity | exact H].
Qed.

Lemma has_double_lstrip s :
  has_double g s = false -> has_double g (lstrip_by f s) = false.
Proof.
  induction s as [|c s IH]; [reflexivity|].
  intros H. simpl lstrip_by. destruct (f c); [|exact H].
  apply IH. destruct s as [|d s]; [reflexivity|].
  simpl in H. apply orb_false_iff in H as [_ H]. exact H.
Qed.

Lemma has_double_rstrip s :
  has_double g s = false -> has_double g (rstrip_by f s) = false.
Proof.
  induction s as [|c s IH]; [reflexivity|].
  intros H. simpl rstrip_by.
  assert (Hs : has_double g s = false).
  { destruct s as [|d s]; [reflexivity|].
    simpl in H. apply orb_false_iff in H as [_ H]. exact H. }
  specialize (IH Hs).
  destruct (rstrip_by f s) as [|d r] eqn:E.
  - destruct (f c); reflexivity.
  - destruct s as [|d' s]; [discriminate|].
    assert (d' = d).
    { simpl in E. destruct (rstrip_by f s); [destruct (f d')|]; congruence. }
    subst d'. simpl in H. apply orb_false_iff in H as [H _].
    change (has_double g (String c (String d r)))
      with ((g c && g d) || has_double g (String d r)).
    now rewrite H, IH.
Qed.
End CharFacts.

Lemma sub_runs_first (f : ascii -> bool) s :
  f "_"%char = true ->
  first_char (sub_runs f s) =
    match s with
    | EmptyString => None
    | String c _ => Some (if f c then "_"%char else c)
    end.
Proof.
  intros Hu. induction s as [|c s IH]; [reflexivity|]. simpl.
  destruct (f c) eqn:E; [|reflexivity].
  destruct s as [|d s]; [reflexivity|].
  destruct (f d) eqn:Ed; [|reflexivity].
  exact IH.
Qed.

Lemma has_double_sub_runs (f : ascii -> bool) s :
  f "_"%char = true -> has_double f (sub_runs f s) = false.
Proof.
  intros Hu. induction s as [|c s IH]; [reflexivity|]. simpl.
  destruct (f c) eqn:E.
  - destruct s as [|d s]; [reflexivity|].
    destruct (f d) eqn:Ed; [exact IH|].
    pose proof (sub_runs_first f (String d s) Hu) as Hf.
    cbv iota in Hf. rewrite Ed in Hf.
    destruct (sub_runs f (String d s)) as [|e r] eqn:Er; [reflexivity|].
    simpl in Hf. injection Hf as ->.
    change (has_double f (String "_"%char (String d r)))
      with ((f "_"%char && f d) || has_double f (String d r)).
    now rewrite Ed, andb_false_r, IH.
  - pose proof (sub_runs_first f s Hu) as Hf.
    destruct (sub_runs f s) as [|e r] eqn:Er; [reflexivity|].
    change (has_double f (String c (String e r)))
      with ((f c && f e) || has_double f (String e r)).
    now rewrite E, IH.
Qed.

Lemma identifier_cleanup s :
  identifier (strip_by is_underscore (sub_runs is_underscore (sub_non_ident s))).
Proof.
  unfold identifier, strip_by, sub_non_ident. repeat split.
  - apply chars_all_lstrip, chars_all_rstrip, chars_all_sub_runs;
      [reflexivity | apply chars_all_filter].
  - apply has_double_lstrip, has_double_rstrip, has_double_sub_runs.
    reflexivity.
  - apply first_char_lstrip.
  - apply last_char_lstrip, last_char_rstrip.
Qed.

(** The body of [generate_webhook_tag] for a text that is not empty. *)
Definition tag_of_text (a : string) : string :=
  let words := List.filter (fun w => negb (str_in w stopwords)) (split_ws (lower a)) in
  strip_by is_underscore
    (sub_runs is_underscore (sub_non_ident (join "_" (firstn 4 words)))).

Lemma generate_webhook_tag_eq (a : option string) :
  generate_webhook_tag a =
    match a with
    | None => None
    | Some t => if truthy t then Some (tag_of_text t) else None
    end.
Proof. destruct a as [[|c t]|]; reflexivity. Qed.

Lemma generate_webhook_tag_identifier (a : option string) :
  match generate_webhook_tag a with
  | Some t => identifier t
  | None => True
  end.
Proof.
  rewrite generate_webhook_tag_eq. destruct a as [t|]; [|exact I].
  destruct (truthy t); [|exact I]. apply identifier_cleanup.
Qed.

Lemma slugify_identifier s : identifier (slugify s).
Proof. apply identifier_cleanup. Qed.

(** The stop words. *)
Definition stop_words : list string :=
  ["a"; "an"; "and"; "at"; "for"; "from"; "in"; "of"; "on"; "or"; "the"; "to";
   "with"].

Definition content_words (ws : list string) : list string :=
  List.filter (fun w => if in_dec string_dec w stop_words then false else true) ws.

(** The tag of an action text as the specification words it: lower-cased,
    its words without the stop words, the first four of them joined by
    underscores, without the characters outside [[a-z0-9_]], repeated
    underscores collapsed, underscores trimmed at both ends. *)
Definition tag_as_worded (a : string) : string :=
  trim_where underscore
    (squeezed
       (only_alphabet
          (String.concat "_" (firstn 4 (content_words (words_of (lower_cased a))))))).

Lemma stop_words_stopwords y : In y stopwords <-> In y stop_words.
Proof. unfold stopwords, stop_words. simpl. tauto. Qed.

Lemma tag_of_text_as_worded a : tag_of_text a = tag_as_worded a.
Proof.
  unfold tag_of_text, tag_as_worded. cbv zeta.
  rewrite strip_underscores_trim, sub_runs_squeezed, sub_non_ident_eq.
  rewrite join_concat, split_ws_words, lower_cased_eq.
  do 5 f_equal. apply filter_ext_bool. intros w.
  rewrite (str_in_perm _ _ _ stop_words_stopwords), <- in_dec_str_in.
  now destruct (in_dec string_dec w stop_words).
Qed.

Lemma generate_webhook_tag_as_worded (a : option string) :
  generate_webhook_tag a =
    match a with
    | None => None
    | Some t => if String.eqb t "" then None else Some (tag_as_worded t)
    end.
Proof.
  rewrite generate_webhook_tag_eq. destruct a as [[|c t]|]; [reflexivity| |reflexivity].
  cbn [truthy String.eqb]. now rewrite tag_of_text_as_worded.
Qed.

(** ** Facts about insertion-ordered dictionaries *)

Section DictFacts.
Context {V : Type}.
Implicit Types (d : PyDict.dict V) (k q : string) (v : V).

Lemma get_set_same k v d : PyDict.get k (PyDict.set k v d) = Some v.
Proof.
  induction d as [|[k' v'] d IH]; simpl.
  - now rewrite String.eqb_refl.
  - destruct (String.eqb k k') eqn:E; simpl; rewrite E; [reflexivity|exact IH].
Qed.

Lemma get_set_other k q v d :
  q <> k -> PyDict.get q (PyDict.set k v d) = PyDict.get q d.
Proof.
  intros Hne. induction d as [|[k' v'] d IH]; simpl.
  - destruct (String.eqb_spec q k); [contradiction|reflexivity].
  - destruct (String.eqb_spec k k') as [->|Hk]; simpl.
    + destruct (String.eqb_spec q k'); [contradiction|reflexivity].
    + now rewrite IH.
Qed.

Lemma keys_set k v d q :
  In q (PyDict.keys (PyDict.set k v d)) <-> q = k \/ In q (PyDict.keys d).
Proof.
  unfold PyDict.keys. induction d as [|[k' v'] d IH]; simpl.
  - intuition congruence.
  - destruct (String.eqb_spec k k') as [->|Hk]; simpl.
    + intuition congruence.
    + rewrite IH. intuition congruence.
Qed.

Lemma keys_get q d : In q (PyDict.keys d) <-> PyDict.get q d <> None.
Proof.
  unfold PyDict.keys. induction d as [|[k' v'] d IH]; simpl.
  - intuition congruence.
  - destruct (String.eqb_spec q k') as [->|Hk].
    + intuition congruence.
    + rewrite <- IH. intuition congruence.
Qed.

Lemma keys_setdefault k v d q :
  In q (PyDict.keys (fst (PyDict.setdefault k v d)))
  <-> q = k \/ In q (PyDict.keys d).
Proof.
  unfold PyDict.setdefault. destruct (PyDict.get k d) as [v'|] eqn:E; simpl.
  - split; [tauto|]. intros [->|H]; [|exact H].
    apply keys_get. congruence.
  - apply keys_set.
Qed.

Lemma get_setdefault_other k q v d :
  q <> k ->
  PyDict.get q (fst (PyDict.setdefault k v d)) = PyDict.get q d.
Proof.
  intros Hne. unfold PyDict.setdefault.
  destruct (PyDict.get k d); simpl; [reflexivity|].
  now apply get_set_other.
Qed.
End DictFacts.

Lemma append_new_In l x y : In y (append_new l x) <-> y = x \/ In y l.
Proof.
  unfold append_new. destruct (str_in x l) eqn:E.
  - apply str_in_In in E. split; [tauto|]. intros [->|H]; assumption.
  - rewrite in_app_iff. simpl. intuition congruence.
Qed.

Lemma append_new_nonempty l x : append_new l x <> [].
Proof.
  unfold append_new. destruct (str_in x l) eqn:E.
  - apply str_in_In in E. destruct l; [contradiction|discriminate].
  - destruct l; discriminate.
Qed.

(** ** The graph compiler, row by row *)

Definition row_page (row : gmap string cell) : option string :=
  sanitize (row_get row "Page Name").

Definition row_prompt (row : gmap string cell) : option string :=
  sanitize (row_get row "Bot Prompt").

Definition row_tag (row : gmap string cell) : option string :=
  row_webhook_tag (sanitize (row_get row "Webhook Action")).

(** A route emitted by a row of page [page] with webhook tag [tag]. *)
Definition route_of (page : string) (tag : option string) (r : route) : Prop :=
  r_page r = page /\ r_webhook_action r = tag /\ r_next_page r <> None.

Definition is_nil {A} (l : list A) : bool :=
  match l with [] => true | _ => false end.

Definition prompts_of (g : graph) (p : string) : list string :=
  match PyDict.get p (d_pages g) with
  | Some pg => pg_prompts pg
  | None => []
  end.

Lemma sanitize_truthy v s : sanitize v = Some s -> truthy s = true.
Proof.
  unfold sanitize. destruct (isna v || is_none v); [discriminate|].
  destruct (str_in (strip (str v)) sanitize_empty) eqn:E; [discriminate|].
  intros [= <-]. apply str_in_not_In in E. apply truthy_true.
  intros E0. apply E. rewrite E0. simpl. tauto.
Qed.

Lemma is_nil_app {A} (l1 l2 : list A) :
  is_nil (l1 ++ l2) = is_nil l1 && is_nil l2.
Proof. destruct l1; reflexivity. Qed.

Lemma is_nil_false {A} (l : list A) : is_nil l = false <-> l <> [].
Proof. destruct l; simpl; split; congruence. Qed.

Lemma app_not_nil {A} (l1 l2 : list A) : l1 ++ l2 <> [] <-> l1 <> [] \/ l2 <> [].
Proof.
  destruct l1; simpl; split; try tauto; try (intros; discriminate).
  intros _. left. discriminate.
Qed.

Lemma chip_step_spec page inr ue nps tag ps st0 ic :
  let res := chip_step page inr ue nps tag ps st0 ic in
  exists new,
    cl_routes res = cl_routes st0 ++ new
    /\ Forall (route_of page tag) new
    /\ (forall q, q ∈ cl_pages_with_routes res <->
                  q ∈ cl_pages_with_routes st0 \/ (q = page /\ new <> []))
    /\ cl_has_valid_route res = cl_has_valid_route st0 || negb (is_nil new).
Proof.
  destruct ic as [i chip]. unfold chip_step.
  destruct (if i <? length nps then nth i nps None else nth 0 nps None)
    as [np|]; cbv zeta; cbn [cl_routes cl_pages_with_routes cl_has_valid_route].
  - eexists [_]. split; [reflexivity|]. split.
    + constructor; [|constructor]. repeat split. discriminate.
    + split; [|now rewrite orb_true_r]. intros q.
      rewrite elem_of_union, elem_of_singleton.
      split.
      * intros [->|H]; [right; split; [reflexivity|discriminate] | now left].
      * intros [H|[-> _]]; [now right | now left].
  - exists []. rewrite app_nil_r, orb_false_r.
    split; [reflexivity|]. split; [constructor|]. split; [|reflexivity].
    intros q. tauto.
Qed.

Lemma chip_loop_spec page inr ue nps tag ps ics : forall st0,
  let res := fold_left (chip_step page inr ue nps tag ps) ics st0 in
  exists new,
    cl_routes res = cl_routes st0 ++ new
    /\ Forall (route_of page tag) new
    /\ (forall q, q ∈ cl_pages_with_routes res <->
                  q ∈ cl_pages_with_routes st0 \/ (q = page /\ new <> []))
    /\ cl_has_valid_route res = cl_has_valid_route st0 || negb (is_nil new).
Proof.
  induction ics as [|ic ics IH]; intros st0; simpl.
  - exists []. rewrite app_nil_r, orb_false_r.
    split; [reflexivity|]. split; [constructor|]. split; [|reflexivity].
    intros q. tauto.
  - destruct (chip_step_spec page inr ue nps tag ps st0 ic)
      as (new1 & Hr1 & Hf1 & Hp1 & Hv1).
    destruct (IH (chip_step page inr ue nps tag ps st0 ic))
      as (new & Hr & Hf & Hp & Hv).
    exists (new1 ++ new). rewrite Hr, Hr1, Hv, Hv1, <- app_assoc.
    split; [reflexivity|]. split; [now apply Forall_app|]. split.
    + intros q. rewrite Hp, Hp1, app_not_nil. tauto.
    + rewrite is_nil_app, negb_andb, orb_assoc. reflexivity.
Qed.

Lemma emit_routes_spec intents routes pwr i page inr ue nps tag ps chips :
  let res := emit_routes intents routes pwr i page inr ue nps tag ps chips in
  exists new,
    cl_routes res = routes ++ new
    /\ Forall (route_of page tag) new
    /\ (forall q, q ∈ cl_pages_with_routes res <->
                  q ∈ pwr \/ (q = page /\ new <> []))
    /\ cl_has_valid_route res = negb (is_nil new).
Proof.
  unfold emit_routes. destruct chips as [|c chips].
  - destruct (nth 0 nps None) as [np|]; simpl.
    + eexists [_]. split; [reflexivity|]. split.
      * constructor; [|constructor]. repeat split. discriminate.
      * split; [|reflexivity]. intros q.
        rewrite elem_of_union, elem_of_singleton.
        split.
        -- intros [->|H]; [right; split; [reflexivity|discriminate] | now left].
        -- intros [H|[-> _]]; [now right | now left].
    + exists []. rewrite app_nil_r.
      split; [reflexivity|]. split; [constructor|]. split; [|reflexivity].
      intros q. tauto.
  - apply (chip_loop_spec page inr ue nps tag ps
             (enumerate_from 0 (c :: chips))
             {| cl_intents := intents; cl_routes := routes;
                cl_pages_with_routes := pwr; cl_has_valid_route := false |}).
Qed.

Lemma note_webhook_frame g raw tag :
  let g' := note_webhook g raw tag in
  d_pages g' = d_pages g /\ d_intents g' = d_intents g
  /\ d_routes g' = d_routes g /\ d_end_pages g' = d_end_pages g
  /\ d_first_page g' = d_first_page g.
Proof.
  unfold note_webhook. destruct raw as [raw|], tag as [tag|]; simpl; auto.
  destruct (truthy raw && truthy tag); simpl; auto.
Qed.

Lemma update_page_frame g page bot chips info :
  let g' := update_page g page bot chips info in
  d_intents g' = d_intents g /\ d_routes g' = d_routes g
  /\ d_end_pages g' = d_end_pages g /\ d_first_page g' = d_first_page g
  /\ d_webhooks g' = d_webhooks g.
Proof.
  unfold update_page. destruct (PyDict.setdefault _ _ _); simpl; auto.
Qed.

(** The prompts a page has after a row with prompt [bot] was registered. *)
Definition prompts_after (old : list string) (bot : option string) : list string :=
  match bot with
  | Some b => if truthy b then append_new old b else old
  | None => old
  end.

Lemma update_page_pages g page bot chips info :
  let g' := update_page g page bot chips info in
  (forall q, In q (PyDict.keys (d_pages g')) <->
             q = page \/ In q (PyDict.keys (d_pages g)))
  /\ (forall q, q <> page -> prompts_of g' q = prompts_of g q)
  /\ prompts_of g' page = prompts_after (prompts_of g page) bot.
Proof.
  unfold update_page, prompts_of.
  pose proof (keys_setdefault page
    {| pg_prompts := []; pg_chips := []; pg_metadata := [] |} (d_pages g)) as Hk.
  pose proof (fun q => get_setdefault_other page q
    {| pg_prompts := []; pg_chips := []; pg_metadata := [] |} (d_pages g)) as Ho.
  unfold PyDict.setdefault in *.
  destruct (PyDict.get page (d_pages g)) as [pg|] eqn:E; simpl in *.
  - split; [|split].
    + intros q. rewrite keys_set. specialize (Hk q). tauto.
    + intros q Hq. now rewrite get_set_other.
    + now rewrite get_set_same.
  - split; [|split].
    + intros q. rewrite keys_set, keys_set. tauto.
    + intros q Hq. now rewrite !get_set_other.
    + now rewrite get_set_same.
Qed.

Lemma note_first_page_frame g page :
  let g' := note_first_page g page in
  d_pages g' = d_pages g /\ d_intents g' = d_intents g
  /\ d_routes g' = d_routes g /\ d_end_pages g' = d_end_pages g
  /\ d_webhooks g' = d_webhooks g.
Proof.
  unfold note_first_page. destruct (_ && _); simpl; auto.
Qed.

Lemma mark_end_state_frame g b bot page :
  let g' := mark_end_state g b bot page in
  d_pages g' = d_pages g /\ d_intents g' = d_intents g
  /\ d_routes g' = d_routes g /\ d_first_page g' = d_first_page g
  /\ d_webhooks g' = d_webhooks g
  /\ d_end_pages g' =
       if negb b && truthy_opt bot then append_new (d_end_pages g) page
       else d_end_pages g.
Proof.
  unfold mark_end_state. destruct (_ && _); simpl; auto 10.
Qed.

(** What one row does to the compiler state. *)
Lemma process_row_skip hs hns st i row :
  row_page row = None -> process_row hs hns st (i, row) = st.
Proof. unfold row_page, process_row. now intros ->. Qed.

Lemma process_row_spec hs hns st i row page :
  row_page row = Some page ->
  let st' := process_row hs hns st (i, row) in
  exists new,
    d_routes (data st') = d_routes (data st) ++ new
    /\ Forall (route_of page (row_tag row)) new
    /\ (forall q, q ∈ pages_with_routes st' <->
                  q ∈ pages_with_routes st \/ (q = page /\ new <> []))
    /\ (forall q, q ∈ all_pages st' <-> q = page \/ q ∈ all_pages st)
    /\ (forall q, In q (PyDict.keys (d_pages (data st'))) <->
                  q = page \/ In q (PyDict.keys (d_pages (data st))))
    /\ (forall q, q <> page ->
                  prompts_of (data st') q = prompts_of (data st) q)
    /\ prompts_of (data st') page =
         prompts_after (prompts_of (data st) page) (row_prompt row)
    /\ d_end_pages (data st') =
         (if is_nil new && truthy_opt (row_prompt row)
          then append_new (d_end_pages (data st)) page
          else d_end_pages (data st))
    /\ d_first_page (data st') =
         (if negb (truthy_opt (d_first_page (data st)))
             && negb (str_in (lower page) start_aliases)
          then Some page else d_first_page (data st))
    /\ d_webhooks (data st') =
         d_webhooks (note_webhook (data st)
                       (sanitize (row_get row "Webhook Action")) (row_tag row)).
Proof.
  intros Hp. unfold row_page in Hp. unfold process_row. rewrite Hp.
  rewrite (sanitize_truthy _ _ Hp). cbv zeta.
  change (negb true) with false. cbv iota.
  set (raw := sanitize (row_get row "Webhook Action")).
  set (bot := sanitize (row_get row "Bot Prompt")).
  set (chips := parse_chips (row_get row "Suggested Chips")).
  set (g1 := note_webhook (data st) raw (row_webhook_tag raw)).
  set (g2 := update_page g1 page bot chips (row_step_info hs hns row)).
  set (g3 := note_first_page g2 page).
  match goal with
  | |- context [emit_routes ?a ?b ?c ?d ?e ?f ?g ?h ?i ?j ?k] =>
      destruct (emit_routes_spec a b c d e f g h i j k)
        as (new & Hr & Hf & Hw & Hv);
      set (loop := emit_routes a b c d e f g h i j k) in *
  end.
  destruct (note_webhook_frame (data st) raw (row_webhook_tag raw))
    as (W1 & W2 & W3 & W4 & W5). fold g1 in W1, W2, W3, W4, W5.
  destruct (update_page_frame g1 page bot chips (row_step_info hs hns row))
    as (U1 & U2 & U3 & U4 & U5). fold g2 in U1, U2, U3, U4, U5.
  destruct (update_page_pages g1 page bot chips (row_step_info hs hns row))
    as (P1 & P2 & P3). fold g2 in P1, P2, P3.
  destruct (note_first_page_frame g2 page) as (F1 & F2 & F3 & F4 & F5).
  fold g3 in F1, F2, F3, F4, F5.
  match goal with
  | |- context [mark_end_state ?a ?b ?c ?d] =>
      destruct (mark_end_state_frame a b c d) as (M1 & M2 & M3 & M4 & M5 & M6);
      set (g5 := mark_end_state a b c d) in *
  end.
  cbn [data pages_with_routes all_pages].
  simpl in M1, M2, M3, M4, M5, M6.
  exists new. unfold prompts_of in *.
  rewrite M3, Hr, F3, U2, W3, M1, F1, M6, F4, U3, W4, Hv, negb_involutive, M4.
  split; [reflexivity|]. split; [exact Hf|]. split; [exact Hw|].
  split; [intros q; now rewrite elem_of_union, elem_of_singleton|].
  split; [intros q; now rewrite P1, W1|].
  split; [intros q Hq; now rewrite P2, W1|].
  split; [now rewrite P3, W1|].
  split; [reflexivity|].
  split; [|now rewrite M5, F5, U5].
  unfold g3, note_first_page. rewrite U4, W5.
  match goal with
  | |- d_first_page (if ?c then _ else _) = _ => destruct c
  end; simpl; [reflexivity|]. now rewrite U4, W5.
Qed.

(** *** The invariant of the loop over the rows

    [seen] are the rows processed so far. *)
Record compiled (seen : list (gmap string cell)) (st : cstate) : Prop := {
  inv_routes_pages :
    forall q, q ∈ pages_with_routes st <->
              exists r, In r (d_routes (data st)) /\ r_page r = q;
  inv_pages_all :
    forall q, In q (PyDict.keys (d_pages (data st))) <-> q ∈ all_pages st;
  inv_all_rows :
    forall q, q ∈ all_pages st <->
              exists row, In row seen /\ row_page row = Some q;
  inv_prompts :
    forall q, prompts_of (data st) q <> [] ->
              In q (d_end_pages (data st)) \/ q ∈ pages_with_routes st;
  inv_route_rows :
    forall r, In r (d_routes (data st)) ->
              r_next_page r <> None
              /\ exists row, In row seen /\ row_page row = Some (r_page r)
                             /\ r_webhook_action r = row_tag row
}.

Lemma compiled_initial path df :
  compiled [] {| data := initial_data path df;
                 pages_with_routes := ∅; all_pages := ∅ |}.
Proof.
  constructor; simpl.
  - intros q. rewrite elem_of_empty. split; [tauto|]. intros (r & [] & _).
  - intros q. rewrite elem_of_empty. tauto.
  - intros q. rewrite elem_of_empty. split; [tauto|]. intros (r & [] & _).
  - intros q H. now contradiction H.
  - intros r [].
Qed.

Lemma Forall_nonempty_ex {A} (P : A -> Prop) (l : list A) :
  Forall P l -> l <> [] -> exists x, In x l /\ P x.
Proof.
  intros H Hn. destruct l as [|x l]; [contradiction|].
  exists x. split; [now left|]. now inversion H.
Qed.

Lemma compiled_step hs hns seen st i row :
  compiled seen st ->
  compiled (seen ++ [row]) (process_row hs hns st (i, row)).
Proof.
  intros [I1 I2 I3 I4 I5].
  destruct (row_page row) as [page|] eqn:Ep.
  - destruct (process_row_spec hs hns st i row page Ep)
      as (new & Hr & Hf & Hw & Ha & Hk & Ho & Hpp & He & _).
    set (st' := process_row hs hns st (i, row)) in *.
    assert (Hnew : forall r, In r new -> route_of page (row_tag row) r).
    { now apply List.Forall_forall. }
    constructor.
    + intros q. rewrite Hw, I1, Hr. split.
      * intros [(r & Hin & E)|[-> Hn]].
        -- exists r. rewrite in_app_iff. tauto.
        -- destruct (Forall_nonempty_ex _ _ Hf Hn) as (r & Hin & E & _).
           exists r. rewrite in_app_iff. tauto.
      * intros (r & Hin & E). apply in_app_iff in Hin as [Hin|Hin].
        -- left. now exists r.
        -- right. destruct (Hnew r Hin) as (E' & _). split; [congruence|].
           intros ->. contradiction.
    + intros q. rewrite Hk, Ha, I2. tauto.
    + intros q. rewrite Ha, I3. split.
      * intros [->|(row' & Hin & E)].
        -- exists row. rewrite in_app_iff. simpl. tauto.
        -- exists row'. rewrite in_app_iff. tauto.
      * intros (row' & Hin & E). apply in_app_iff in Hin as [Hin|[<-|[]]].
        -- right. now exists row'.
        -- left. congruence.
    + intros q Hq. rewrite Hw, He.
      assert (Hmono : In q (d_end_pages (data st)) ->
        In q (if is_nil new && truthy_opt (row_prompt row)
              then append_new (d_end_pages (data st)) page
              else d_end_pages (data st))).
      { intros H. destruct (_ && _); [|exact H]. apply append_new_In. tauto. }
      destruct (String.eqb_spec q page) as [->|Hne].
      * rewrite Hpp in Hq. unfold prompts_after in Hq.
        destruct (truthy_opt (row_prompt row)) eqn:Et.
        -- destruct new as [|r new]; simpl.
           ++ left. apply append_new_In. tauto.
           ++ right. right. split; [reflexivity|discriminate].
        -- assert (Hold : prompts_of (data st) page <> []).
           { destruct (row_prompt row) as [b|]; [|exact Hq].
             simpl in Et. now rewrite Et in Hq. }
           destruct (I4 _ Hold); tauto.
      * rewrite (Ho q Hne) in Hq. destruct (I4 _ Hq); tauto.
    + intros r. rewrite Hr, in_app_iff. intros [Hin|Hin].
      * destruct (I5 r Hin) as (Hn & row' & Hrow & E1 & E2).
        split; [exact Hn|]. exists row'. rewrite in_app_iff. tauto.
      * destruct (Hnew r Hin) as (E1 & E2 & Hn). split; [exact Hn|].
        exists row. rewrite in_app_iff. simpl. split; [tauto|].
        split; congruence.
  - rewrite (process_row_skip _ _ _ _ _ Ep). constructor; try assumption.
    + intros q. rewrite I3. split.
      * intros (row' & Hin & E). exists row'. rewrite in_app_iff. tauto.
      * intros (row' & Hin & E). apply in_app_iff in Hin as [Hin|[<-|[]]].
        -- now exists row'.
        -- congruence.
    + intros r Hin. destruct (I5 r Hin) as (Hn & row' & Hrow & E).
      split; [exact Hn|]. exists row'. rewrite in_app_iff. tauto.
Qed.

Lemma map_snd_enumerate {A} (l : list A) : forall i,
  map snd (enumerate_from i l) = l.
Proof. induction l as [|x l IH]; intros i; simpl; [|rewrite IH]; reflexivity. Qed.

Lemma compiled_rows hs hns irs : forall seen st,
  compiled seen st ->
  compiled (seen ++ map snd irs) (fold_left (process_row hs hns) irs st).
Proof.
  induction irs as [|[i row] irs IH]; intros seen st H; simpl.
  - now rewrite app_nil_r.
  - replace (seen ++ row :: map snd irs) with ((seen ++ [row]) ++ map snd irs)
      by now rewrite <- app_assoc.
    apply IH, compiled_step, H.
Qed.

(** The state of the compiler after the loop over the rows. *)
Definition after_rows (csv_path : string) (df : dataframe) : cstate :=
  fold_left
    (process_row (str_in "Step" (columns df)) (str_in "Next Step" (columns df)))
    (enumerate_from 0 (rows df))
    {| data := initial_data csv_path df;
       pages_with_routes := ∅; all_pages := ∅ |}.

Lemma after_rows_compiled path df : compiled (rows df) (after_rows path df).
Proof.
  unfold after_rows.
  rewrite <- (map_snd_enumerate (rows df) 0) at 1.
  apply (compiled_rows _ _ _ []), compiled_initial.
Qed.

Lemma referenced_loop routes np : forall acc,
  np ∈ fold_left referenced_step routes acc <->
  np ∈ acc \/ exists r, In r routes /\ r_next_page r = Some np /\ truthy np = true.
Proof.
  induction routes as [|r routes IH]; intros acc; simpl.
  - split; [tauto|]. intros [H|(r & [] & _)]. exact H.
  - rewrite IH. unfold referenced_step.
    destruct (r_next_page r) as [t|] eqn:E.
    + destruct (truthy t) eqn:Et.
      * rewrite elem_of_union, elem_of_singleton. split.
        -- intros [[->|H]|(r' & Hin & H)]; [right|tauto|right].
           ++ exists r. tauto.
           ++ exists r'. tauto.
        -- intros [H|(r' & [<-|Hin] & H1 & H2)]; [tauto| |].
           ++ left. left. congruence.
           ++ right. exists r'. tauto.
      * split.
        -- intros [H|(r' & Hin & H)]; [tauto|right]. exists r'. tauto.
        -- intros [H|(r' & [<-|Hin] & H1 & H2)]; [tauto| |].
           ++ congruence.
           ++ right. exists r'. tauto.
    + split.
      * intros [H|(r' & Hin & H)]; [tauto|right]. exists r'. tauto.
      * intros [H|(r' & [<-|Hin] & H1 & H2)]; [tauto| |].
        -- congruence.
        -- right. exists r'. tauto.
Qed.

Lemma infer_end_loop ref pwr fp l q : forall ends,
  In q (fold_left (infer_end_step ref pwr fp) l ends) <->
  In q ends \/ (In q l /\ (q ∉ ref) /\ Some q <> fp /\ (q ∉ pwr)).
Proof.
  induction l as [|p l IH]; intros ends; simpl.
  - tauto.
  - rewrite IH. unfold infer_end_step.
    destruct (bool_decide (p ∈ ref)) eqn:E1; simpl.
    { apply bool_decide_eq_true in E1. split; [tauto|].
      intros [H|([<-|H] & H1 & H2)]; tauto. }
    apply bool_decide_eq_false in E1.
    destruct (bool_decide (Some p = fp)) eqn:E2; simpl.
    { apply bool_decide_eq_true in E2. split; [tauto|].
      intros [H|([<-|H] & H1 & H2 & H3)]; tauto. }
    apply bool_decide_eq_false in E2.
    destruct (bool_decide (p ∈ pwr)) eqn:E3; simpl.
    { apply bool_decide_eq_true in E3. split; [tauto|].
      intros [H|([<-|H] & H1 & H2 & H3)]; tauto. }
    apply bool_decide_eq_false in E3.
    rewrite append_new_In. split.
    + intros [[->|H]|H]; tauto.
    + intros [H|([<-|H] & H1)]; tauto.
Qed.

Lemma In_elements (q : string) (s : gset string) :
  In q (elements s) <-> q ∈ s.
Proof. now rewrite <- list_elem_of_In, elem_of_elements. Qed.

Lemma convert_projections path df :
  let g := convert_single_csv path df in
  let st := after_rows path df in
  d_pages g = d_pages (data st) /\ d_routes g = d_routes (data st)
  /\ d_first_page g = d_first_page (data st)
  /\ d_webhooks g = d_webhooks (data st)
  /\ forall q, In q (d_end_pages g) <->
       In q (d_end_pages (data st))
       \/ (q ∈ all_pages st
           /\ (forall r, In r (d_routes (data st)) -> r_next_page r <> Some q)
           /\ d_first_page (data st) <> Some q
           /\ (q ∉ pages_with_routes st)).
Proof.
  unfold convert_single_csv. fold (after_rows path df).
  set (st := after_rows path df). simpl.
  repeat (split; [reflexivity|]).
  intros q. rewrite infer_end_loop.
  rewrite In_elements, referenced_loop, elem_of_empty.
  assert (Hq : truthy q = true \/ q ∉ all_pages st).
  { destruct (after_rows_compiled path df) as [_ _ I3 _ _].
    destruct q; [right|now left]. fold st in I3. rewrite I3.
    intros (row & _ & E). apply sanitize_truthy in E. discriminate. }
  split; (intros [H|(H1 & H2 & H3 & H4)]; [now left|right]);
    (split; [exact H1|]); (split; [|split; [congruence|exact H4]]).
  - intros r Hin E. apply H2. right. exists r.
    destruct Hq as [Hq|Hq]; [tauto|contradiction].
  - intros [[]|(r & Hin & E & _)]. now apply (H2 r).
Qed.

(** *** Route targets and the pages table *)

(** C2 as worded: every present route target is a key of the pages table. *)
Definition targets_registered (g : graph) : Prop :=
  forall r t, In r (d_routes g) -> r_next_page r = Some t ->
              In t (PyDict.keys (d_pages g)).

(** A sheet with one row: page Welcome, whose next page is Goodbye. *)
Definition dangling_sheet : dataframe :=
  {| columns := ["Page Name"; "Bot Prompt"; "Next Page / Transition"];
     rows := [ list_to_map [("Page Name", Str "Welcome");
                            ("Bot Prompt", Str "Hello");
                            ("Next Page / Transition", Str "Goodbye")] ] |}.

(** C2, as worded, fails: the route of the one row of [dangling_sheet] goes
    to Goodbye, and the pages table holds Welcome only. *)
Lemma targets_registered_counterexample :
  ~ targets_registered (convert_single_csv "flow.csv" dangling_sheet).
Proof.
  intros H.
  specialize (H {| r_page := "Welcome"; r_intent := "Intent_welcome_0";
                   r_next_page := Some "Goodbye"; r_webhook_action := None;
                   r_parameters := None |} "Goodbye").
  vm_compute in H. destruct H as [H|[]]; [now left | reflexivity | discriminate].
Qed.

(** C2 (amended): in every graph that [convert_single_csv] produces, the
    owning page of every route is a key of the pages table and every route
    has a target; the keys of the pages table are exactly the page names of
    the rows, so the target of a route is a key of the table exactly when
    some row has it as its page name. *)
Theorem routes_owned_by_registered_pages (csv_path : string) (df : dataframe)
  (r : route) :
  In r (d_routes (convert_single_csv csv_path df)) ->
  In (r_page r) (PyDict.keys (d_pages (convert_single_csv csv_path df)))
  /\ exists t, r_next_page r = Some t
     /\ (In t (PyDict.keys (d_pages (convert_single_csv csv_path df)))
         <-> exists row, In row (rows df) /\ row_page row = Some t).
Proof.
  destruct (convert_projections csv_path df) as (Ep & Er & _).
  destruct (after_rows_compiled csv_path df) as [_ I2 I3 _ I5].
  rewrite Ep, Er. intros Hin.
  destruct (I5 r Hin) as (Hn & row & Hrow & E & _). split.
  - apply I2, I3. now exists row.
  - destruct (r_next_page r) as [t|]; [|contradiction].
    exists t. split; [reflexivity|]. now rewrite I2, I3.
Qed.

Lemma routes_owned_by_registered_pages_witness :
  let g := convert_single_csv "flow.csv" dangling_sheet in
  exists r, In r (d_routes g) /\ In (r_page r) (PyDict.keys (d_pages g)).
Proof.
  eexists. split.
  - vm_compute. left. reflexivity.
  - apply (routes_owned_by_registered_pages "flow.csv" dangling_sheet).
    vm_compute. left. reflexivity.
Defined.

(** *** End states *)


Definition text_row (l : list (string * string)) : gmap string cell :=
  list_to_map (map (fun kv => (fst kv, Str (snd kv))) l).

(** Two entry pages that both lead to Goodbye, whose own next-page cell is
    empty.  Menu is the first page; Help is targeted by no route, is not the
    first page, and has a route. *)
Definition two_entries_sheet : dataframe :=
  {| columns := ["Page Name"; "Bot Prompt"; "Next Page / Transition"];
     rows :=
       [ text_row [("Page Name", "Menu"); ("Bot Prompt", "Pick one");
                   ("Next Page / Transition", "Goodbye")];
         text_row [("Page Name", "Help"); ("Bot Prompt", "Need help?");
                   ("Next Page / Transition", "Goodbye")];
         <["Next Page / Transition" := NaN]>
           (text_row [("Page Name", "Goodbye"); ("Bot Prompt", "Bye")]) ] |}.


(** A page that is only a route target, with no row of its own, is not put
    in [end_pages] either: the third part of C3 fails on [dangling_sheet]. *)
Lemma target_without_rows_not_end_page :
  let g := convert_single_csv "flow.csv" dangling_sheet in
  (exists r, In r (d_routes g) /\ r_next_page r = Some "Goodbye")
  /\ (forall r, In r (d_routes g) -> r_page r <> "Goodbye")
  /\ ~ In "Goodbye" (d_end_pages g).
Proof.
  split; [|split].
  - eexists. split; [vm_compute; left; reflexivity | reflexivity].
  - intros r Hr. vm_compute in Hr. destruct Hr as [<-|[]]. discriminate.
  - vm_compute. tauto.
Qed.



(** *** Webhook tags in the compiled graph *)

Lemma row_webhook_tag_eq (raw : option string) :
  row_webhook_tag raw = generate_webhook_tag raw.
Proof. destruct raw as [[|c t]|]; reflexivity. Qed.

Lemma note_webhook_no_tag g raw tag :
  truthy_opt tag = false -> note_webhook g raw tag = g.
Proof.
  unfold note_webhook. destruct raw as [raw|], tag as [tag|]; simpl; try reflexivity.
  intros ->. now rewrite andb_false_r.
Qed.

(** C9: the tag is a function of the action text alone.  It is the text
    lower-cased, split into words, without the stop words, cut to four
    words, joined by underscores, without the characters outside
    [[a-z0-9_]], with repeated underscores collapsed and the underscores at
    both ends removed, so it is an identifier; an absent (or empty) text has
    no tag.  The routes that a row adds to the graph all carry the tag of
    the row's action text, whatever the row's position and the rows before
    it, and a row without a tag leaves the webhook table as it was. *)
Theorem webhook_tag_deterministic :
  (forall a : option string,
      generate_webhook_tag a =
        match a with
        | None => None
        | Some t => if String.eqb t "" then None else Some (tag_as_worded t)
        end
      /\ match generate_webhook_tag a with
         | Some t => identifier t
         | None => True
         end)
  /\ generate_webhook_tag None = None
  /\ generate_webhook_tag (Some "") = None
  /\ (forall hs hns st i row,
        let a := sanitize (row_get row "Webhook Action") in
        let st' := process_row hs hns st (i, row) in
        Forall (fun r => In r (d_routes (data st))
                         \/ r_webhook_action r = generate_webhook_tag a)
               (d_routes (data st'))
        /\ (if truthy_opt (generate_webhook_tag a) then True
            else d_webhooks (data st') = d_webhooks (data st)))
  /\ generate_webhook_tag (Some "Fetch the upcoming Assignments for a User")
     = Some "fetch_upcoming_assignments_user"
  /\ generate_webhook_tag (Some "Send an email to the user about order status")
     = Some "send_email_user_about"
  /\ generate_webhook_tag (Some "Look-up  user's E-Mail!") = Some "lookup_users_email"
  /\ generate_webhook_tag (Some "__ get __ it __") = Some "get_it"
  /\ generate_webhook_tag
       (Some ("Check" +:+ String (ascii_of_nat 9) "THE" +:+ String line_feed "status"))
     = Some "check_status"
  /\ generate_webhook_tag (Some "The Of") = Some "".
Proof.
  split; [|split; [reflexivity|split; [reflexivity|split]]].
  - intros a. split; [apply generate_webhook_tag_as_worded|].
    apply generate_webhook_tag_identifier.
  - intros hs hns st i row a st'.
    destruct (row_page row) as [page|] eqn:Ep.
    + destruct (process_row_spec hs hns st i row page Ep)
        as (new & Hr & Hf & _ & _ & _ & _ & _ & _ & _ & Hw).
      fold st' in Hr, Hw. split.
      * rewrite Hr. apply Forall_app. split.
        -- apply List.Forall_forall. intros r Hin. now left.
        -- eapply List.Forall_impl; [|exact Hf]. intros r (_ & E & _). right.
           rewrite E. apply row_webhook_tag_eq.
      * destruct (truthy_opt (generate_webhook_tag a)) eqn:Et; [exact I|].
        rewrite Hw. unfold row_tag. fold a. rewrite row_webhook_tag_eq.
        now rewrite note_webhook_no_tag.
    + unfold st'. rewrite (process_row_skip _ _ _ _ _ Ep). split.
      * apply List.Forall_forall. intros r Hin. now left.
      * destruct (truthy_opt _); [exact I|reflexivity].
  - repeat split; vm_compute; reflexivity.
Qed.

(** ** The retry protocol of [_api_request] *)

Import Upload.

(** An endpoint that gives the same answer to every request. *)
Definition always (o : outcome) : scripted :=
  {| answers := fun _ => o; trace := [] |}.

Lemma requests_made_app tr1 tr2 :
  requests_made (tr1 ++ tr2) = requests_made tr1 + requests_made tr2.
Proof. unfold requests_made. now rewrite List.filter_app, length_app. Qed.

Lemma requests_made_log e (w : scripted) :
  requests_made (trace (log_event e w))
  = requests_made (trace w) + (if is_request e then 1 else 0).
Proof.
  unfold log_event. cbn [trace]. rewrite requests_made_app.
  unfold requests_made at 2. destruct e; reflexivity.
Qed.

Lemma bind_ok {W A B} (m : M W A) (k : A -> M W B) s a s' :
  m s = (Ok a, s') -> bind m k s = k a s'.
Proof. unfold bind. now intros ->. Qed.

Lemma bind_raise {W A B} (m : M W A) (k : A -> M W B) s e s' :
  m s = (Raise e, s') -> bind m k s = (Raise e, s').
Proof. unfold bind. now intros ->. Qed.

(** Each iteration of the loop sends exactly one request. *)
Lemma attempts_request_count todo rq : forall last u (w : scripted),
  let w' := snd (snd (attempts todo rq last (u, w))) in
  requests_made (trace w') <= requests_made (trace w) + length todo
  /\ (todo <> [] -> requests_made (trace w) < requests_made (trace w')).
Proof.
  induction todo as [|attempt todo IH]; intros last u w.
  - simpl. destruct last; simpl; split; try lia; congruence.
  - cbn [attempts].
    set (w0 := if 0 <? attempt then log_event (Slept (2 ^ attempt)) w else w).
    assert (E0 : (if 0 <? attempt then sleep (2 ^ attempt) else ret tt) (u, w)
                 = (Ok tt, (u, w0))).
    { unfold w0. destruct (0 <? attempt); reflexivity. }
    rewrite (bind_ok _ _ _ _ _ E0).
    assert (H0 : requests_made (trace w0) = requests_made (trace w)).
    { unfold w0. destruct (0 <? attempt); [|reflexivity].
      rewrite requests_made_log. simpl. lia. }
    set (w1 := log_event (Requested (headers u)) w0).
    assert (Es : send rq (u, w0)
                 = (Ok (answers w0 (requests_made (trace w0))), (u, w1))).
    { reflexivity. }
    rewrite (bind_ok _ _ _ _ _ Es).
    assert (H1 : requests_made (trace w1) = S (requests_made (trace w))).
    { unfold w1. rewrite requests_made_log, H0. simpl. lia. }
    assert (Hnext : forall last' u' (w2 : scripted),
      requests_made (trace w2) = S (requests_made (trace w)) ->
      let w' := snd (snd (attempts todo rq last' (u', w2))) in
      requests_made (trace w') <= requests_made (trace w) + length (attempt :: todo)
      /\ (attempt :: todo <> [] ->
          requests_made (trace w) < requests_made (trace w'))).
    { intros last' u' w2 H2. destruct (IH last' u' w2) as [Hle Hlt].
      simpl. split; [lia|]. intros _.
      destruct todo as [|a todo'].
      - simpl. destruct last'; simpl; lia.
      - assert (a :: todo' <> []) by discriminate. specialize (Hlt H). lia. }
    assert (Hstop : forall (res : result response),
      let w' := snd (snd (res, (u, w1))) in
      requests_made (trace w') <= requests_made (trace w) + length (attempt :: todo)
      /\ (attempt :: todo <> [] ->
          requests_made (trace w) < requests_made (trace w'))).
    { intros res. cbv zeta. cbn [snd length]. rewrite H1. lia. }
    destruct (answers w0 (requests_made (trace w0))) as [r|detail].
    + destruct ((status_code r =? 401) && (attempt <? max_retries - 1)).
      { assert (Er : _refresh_auth (u, w1)
                     = (Ok tt, (set_headers u "renewed", log_event Refreshed w1))).
        { reflexivity. }
        rewrite (bind_ok _ _ _ _ _ Er).
        apply Hnext. rewrite requests_made_log, H1. simpl. lia. }
      destruct (status_code r =? 429).
      { assert (Esl : sleep (default 5 (retry_after r)) (u, w1)
                      = (Ok tt, (u, log_event (Slept (default 5 (retry_after r))) w1))).
        { reflexivity. }
        rewrite (bind_ok _ _ _ _ _ Esl).
        apply Hnext. rewrite requests_made_log, H1. simpl. lia. }
      destruct (is_error_status (status_code r)); [|apply Hstop].
      unfold on_request_exception.
      destruct (attempt =? max_retries - 1); [apply Hstop|now apply Hnext].
    + unfold on_request_exception.
      destruct (attempt =? max_retries - 1); [apply Hstop|now apply Hnext].
Qed.

(** At most three attempts, and at least one, whatever the endpoint does. *)
Lemma api_request_attempt_bound m url params body u (w : scripted) :
  let w' := snd (snd (_api_request m url params body (u, w))) in
  requests_made (trace w) < requests_made (trace w')
  /\ requests_made (trace w') <= requests_made (trace w) + 3.
Proof.
  unfold _api_request.
  destruct (attempts_request_count (seq 0 max_retries)
              {| rq_method := m; rq_url := url; rq_params := params;
                 rq_body := body |} None u w) as [Hle Hlt].
  split; [apply Hlt; discriminate | exact Hle].
Qed.

(** A response that is no error is returned after one request. *)
Lemma api_request_success m url params body u r :
  is_error_status (status_code r) = false ->
  _api_request m url params body (u, always (Responded r))
  = (Ok r, (u, {| answers := fun _ => Responded r;
                  trace := [Requested (headers u)] |})).
Proof.
  intros H.
  assert (E1 : (status_code r =? 401) = false).
  { destruct (Nat.eqb_spec (status_code r) 401) as [E|]; [|reflexivity].
    rewrite E in H. discriminate. }
  assert (E2 : (status_code r =? 429) = false).
  { destruct (Nat.eqb_spec (status_code r) 429) as [E|]; [|reflexivity].
    rewrite E in H. discriminate. }
  unfold _api_request, always. cbn -[Nat.eqb is_error_status].
  rewrite E1, E2. cbn -[Nat.eqb is_error_status]. now rewrite H.
Qed.

(** A transport failure on every attempt: three requests, two seconds and
    four seconds of back-off between them, then the exception. *)
Lemma api_request_transport_failure m url params body u detail :
  _api_request m url params body (u, always (Failed detail))
  = (Raise (ConnectionError detail),
     (u, {| answers := fun _ => Failed detail;
            trace := [Requested (headers u); Slept 2; Requested (headers u);
                      Slept 4; Requested (headers u)] |})).
Proof. reflexivity. Qed.

(** An error status other than 401 and 429 on every attempt: the same
    schedule, then the [HTTPError] of the last response. *)
Lemma api_request_error_status m url params body u r :
  is_error_status (status_code r) = true ->
  status_code r <> 401 -> status_code r <> 429 ->
  _api_request m url params body (u, always (Responded r))
  = (Raise (HTTPError r),
     (u, {| answers := fun _ => Responded r;
            trace := [Requested (headers u); Slept 2; Requested (headers u);
                      Slept 4; Requested (headers u)] |})).
Proof.
  intros H H1 H2. apply Nat.eqb_neq in H1, H2.
  unfold _api_request, always. cbn -[Nat.eqb is_error_status].
  rewrite !H1, !H2. cbn -[is_error_status]. rewrite !H.
  cbn -[is_error_status]. rewrite !H1, !H2. cbn -[is_error_status].
  rewrite !H. cbn -[is_error_status]. rewrite !H1, !H2.
  cbn -[is_error_status]. rewrite !H. reflexivity.
Qed.

(** 401 on every attempt: the token is renewed after the first and the
    second attempt, the later attempts carry the renewed token, and the
    third attempt raises. *)
Lemma api_request_unauthorized m url params body u ra j :
  let r := {| status_code := 401; retry_after := ra; resp_json := j |} in
  _api_request m url params body (u, always (Responded r))
  = (Raise (HTTPError r),
     (set_headers u "renewed",
      {| answers := fun _ => Responded r;
         trace := [Requested (headers u); Refreshed; Slept 2;
                   Requested "renewed"; Refreshed; Slept 4;
                   Requested "renewed"] |})).
Proof. reflexivity. Qed.

(** C7, where the code departs from it: an endpoint that answers 429 to
    every request gets three requests, each followed by the wait the server
    asked for (five seconds by default), and after the third wait
    [_api_request] returns the 429 response to its caller: no exception is
    raised. *)
Theorem api_request_rate_limited_returns m url params body u ra j :
  let r := {| status_code := 429; retry_after := ra; resp_json := j |} in
  _api_request m url params body (u, always (Responded r))
  = (Ok r,
     (u, {| answers := fun _ => Responded r;
            trace := [Requested (headers u); Slept (default 5 ra); Slept 2;
                      Requested (headers u); Slept (default 5 ra); Slept 4;
                      Requested (headers u); Slept (default 5 ra)] |})).
Proof. reflexivity. Qed.

(** ** [upsert_page] and the end-state flag *)

(** C10: [is_end_state] has no effect on [upsert_page]: whatever the
    transport and the state, the requests sent (they are part of the world
    afterwards), the identifier returned and the state afterwards are the
    same for both values of the flag; and the [end_pages] of a graph have no
    effect on its upload. *)
Theorem upsert_page_ignores_end_state :
  (forall (W : Type) (T : Transport W) flow display_name prompts chips
          pages_index (s : uploader * W),
      upsert_page flow display_name prompts chips pages_index true s
      = upsert_page flow display_name prompts chips pages_index false s)
  /\ (forall (W : Type) (T : Transport W) json_path data flow_name
             (end_pages : list string) (s : uploader * W),
        upload_single_flow json_path (set_end_pages data end_pages) flow_name s
        = upload_single_flow json_path data flow_name s).
Proof.
  split.
  - reflexivity.
  - intros. reflexivity.
Qed.

(** ** The synchronisation engine against the remote agent *)

(** The name and the display name of each resource: what look-ups and
    creations depend on. *)
Definition entries (l : list resource) : list (string * string) :=
  map (fun r => (res_name r, res_display r)) l.

Definition page_entries (l : list (string * resource))
  : list (string * (string * string)) :=
  map (fun fp => (fst fp, (res_name (snd fp), res_display (snd fp)))) l.

Definition shape_of (rm : remote) :=
  (entries (rm_flows rm), entries (rm_webhooks rm), entries (rm_intents rm),
   page_entries (rm_pages rm)).

Definition display_names (l : list resource) : list string := map res_display l.

(** The pages of the remote agent by flow and display name. *)
Definition page_display_names (rm : remote) : list (string * string) :=
  map (fun fp => (fst fp, res_display (snd fp))) (rm_pages rm).

Abbreviation world := (remote * list request)%type.

Definition mk_request (m : method) (u : url) (params : option string)
  (body : option json) : request :=
  {| rq_method := m; rq_url := u; rq_params := params; rq_body := body |}.

Lemma has_name_entries n l :
  has_name n l = true <-> In n (map fst (entries l)).
Proof.
  unfold has_name, entries. rewrite existsb_exists, map_map, in_map_iff. simpl.
  split; intros (r & H1 & H2); exists r.
  - apply String.eqb_eq in H2. tauto.
  - rewrite <- H1. split; [exact H2 | apply String.eqb_refl].
Qed.

Lemma entries_patch name mask v l :
  entries (map (patch_resource name mask v) l) = entries l.
Proof.
  unfold entries. rewrite map_map. apply map_ext. intros r.
  unfold patch_resource. now destruct (String.eqb (res_name r) name).
Qed.

Lemma page_entries_patch name mask v l :
  page_entries (map (fun fp => (fst fp, patch_resource name mask v (snd fp))) l)
  = page_entries l.
Proof.
  unfold page_entries. rewrite map_map. apply map_ext. intros [f r]. simpl.
  unfold patch_resource. now destruct (String.eqb (res_name r) name).
Qed.


Lemma serve_not_post_shape rq rm :
  rq_method rq <> POST -> shape_of (snd (serve rq rm)) = shape_of rm.
Proof.
  intros Hm. unfold serve.
  destruct (rq_method rq); [| contradiction |]; destruct (rq_url rq);
    repeat match goal with
    | |- context [if ?c then _ else _] => destruct c
    | |- context [match ?x with _ => _ end] => destruct x
    end; try reflexivity.
  unfold shape_of. simpl.
  now rewrite !entries_patch, page_entries_patch.
Qed.

Lemma serve_get rq rm : rq_method rq = GET -> snd (serve rq rm) = rm.
Proof.
  intros Hm. unfold serve. rewrite Hm.
  destruct (rq_url rq);
    repeat match goal with
    | |- context [if ?c then _ else _] => destruct c
    end; reflexivity.
Qed.

(** A request that the service accepts is answered on the first attempt. *)
Lemma api_request_ok m url params body u rm log :
  let rq := mk_request m url params body in
  status_code (fst (serve rq rm)) = 200 ->
  _api_request m url params body (u, (rm, log))
  = (Ok (fst (serve rq rm)), (u, (snd (serve rq rm), log ++ [rq]))).
Proof.
  intros rq H. unfold _api_request. fold (mk_request m url params body).
  fold rq. cbn [seq max_retries attempts].
  assert (E0 : (if 0 <? 0 then sleep (2 ^ 0) else @ret world _ tt) (u, (rm, log))
               = (Ok tt, (u, (rm, log)))) by reflexivity.
  rewrite (bind_ok _ _ _ _ _ E0).
  assert (Es : send rq (u, (rm, log))
               = (Ok (Responded (fst (serve rq rm))),
                  (u, (snd (serve rq rm), log ++ [rq])))).
  { cbn. destruct (serve rq rm). reflexivity. }
  rewrite (bind_ok _ _ _ _ _ Es). rewrite H. reflexivity.
Qed.



(** *** Indexes by display name *)

(** The index that [list_by_name] builds from a listing: for each display
    name, the last item that has it. *)
Definition index_of (l : list resource) : gmap string json :=
  fold_left (fun idx r => <[res_display r := item_json r]> idx) l ∅.

(** [item["name"]], when it is there and is a string. *)
Definition item_name (j : json) : option string :=
  match json_get "name" j with
  | Some (JStr n) => Some n
  | _ => None
  end.

(** An index agrees with a collection, given by its names and display
    names: an indexed display name leads to the name of a resource that has
    it, and a display name that is not indexed is not in the collection. *)
Definition indexed (idx : gmap string json) (sk : list (string * string)) : Prop :=
  forall dn,
    match idx !! dn with
    | Some item => exists n, item_name item = Some n /\ In (n, dn) sk
    | None => ~ In dn (map snd sk)
    end.

Lemma name_of_item {W} (item : json) n (s : uploader * W) :
  item_name item = Some n -> name_of item s = (Ok n, s).
Proof.
  unfold item_name, name_of, subscript, json_get.
  destruct item as [| | | |fields]; try discriminate.
  destruct (PyDict.get "name" fields) as [[| |x| |]|]; try discriminate.
  now intros [= ->].
Qed.

Lemma item_name_item_json r : item_name (item_json r) = Some (res_name r).
Proof. reflexivity. Qed.

Lemma item_name_name_obj n : item_name (JObj [("name", JStr n)]) = Some n.
Proof. reflexivity. Qed.

Lemma indexed_insert_new idx sk n dn item :
  indexed idx sk -> item_name item = Some n ->
  indexed (<[dn := item]> idx) (sk ++ [(n, dn)]).
Proof.
  intros H Hn dn'. destruct (String.eqb_spec dn dn') as [<-|Hne].
  - rewrite lookup_insert_eq. exists n. split; [exact Hn|].
    apply in_app_iff. right. now left.
  - rewrite lookup_insert_ne by exact Hne. specialize (H dn').
    destruct (idx !! dn') as [it|].
    + destruct H as (n' & H1 & H2). exists n'. split; [exact H1|].
      apply in_app_iff. now left.
    + rewrite map_app, in_app_iff. simpl. intros [H'|[H'|[]]]; [tauto|congruence].
Qed.

Lemma indexed_insert_present idx sk n dn item :
  indexed idx sk -> item_name item = Some n -> In (n, dn) sk ->
  indexed (<[dn := item]> idx) sk.
Proof.
  intros H Hn Hin dn'. destruct (String.eqb_spec dn dn') as [<-|Hne].
  - rewrite lookup_insert_eq. now exists n.
  - rewrite lookup_insert_ne by exact Hne. apply H.
Qed.

Lemma indexed_empty : indexed ∅ [].
Proof. intros dn. rewrite lookup_empty. simpl. tauto. Qed.

Lemma index_fold_indexed l : forall idx sk,
  indexed idx sk ->
  indexed (fold_left (fun idx r => <[res_display r := item_json r]> idx) l idx)
          (sk ++ entries l).
Proof.
  induction l as [|r l IH]; intros idx sk H; simpl.
  - now rewrite app_nil_r.
  - replace (sk ++ (res_name r, res_display r) :: entries l)
      with ((sk ++ [(res_name r, res_display r)]) ++ entries l)
      by now rewrite <- app_assoc.
    apply IH. now apply indexed_insert_new.
Qed.

Lemma index_of_indexed l : indexed (index_of l) (entries l).
Proof. apply (index_fold_indexed l ∅ []), indexed_empty. Qed.

Lemma indexed_size_zero idx sk :
  indexed idx sk -> size idx = 0 -> sk = [].
Proof.
  intros H Hs. apply map_size_empty_iff in Hs. subst idx.
  destruct sk as [|[n dn] sk]; [reflexivity|].
  specialize (H dn). rewrite lookup_empty in H. simpl in H. tauto.
Qed.

Lemma indexed_present idx sk dn :
  indexed idx sk -> (is_Some (idx !! dn) <-> In dn (map snd sk)).
Proof.
  intros H. specialize (H dn). destruct (idx !! dn) as [item|].
  - destruct H as (n & _ & Hin). split; [intros _|eauto].
    apply in_map_iff. now exists (n, dn).
  - split; [intros [x Hx]; discriminate | tauto].
Qed.

(** The loop of [list_by_name] over a listing of the service. *)
Lemma index_loop {W} (l : list resource) :
  forall (idx : gmap string json) (s : uploader * W),
  for_each (map item_json l) idx
    (fun idx item =>
       bind (subscript item "displayName")
         (fun dn => bind (as_str dn) (fun dn => ret (<[dn := item]> idx)))) s
  = (Ok (fold_left (fun idx r => <[res_display r := item_json r]> idx) l idx), s).
Proof.
  induction l as [|r l IH]; intros idx s; [reflexivity|].
  cbn [map for_each fold_left].
  erewrite bind_ok; [apply IH | reflexivity].
Qed.

Definition list_request (u : url) : request := mk_request GET u None None.

Lemma list_by_name_collection kind (coll : remote -> list resource) u rm log :
  serve (list_request (AgentCollection kind)) rm
  = (ok_response (JObj [(kind, JList (map item_json (coll rm)))]), rm) ->
  list_by_name (AgentCollection kind) kind (u, (rm, log))
  = (Ok (index_of (coll rm)),
     (u, (rm, log ++ [list_request (AgentCollection kind)]))).
Proof.
  intros Hs. unfold list_by_name.
  pose proof (api_request_ok GET (AgentCollection kind) None None u rm log) as Ha.
  cbv zeta in Ha. fold (list_request (AgentCollection kind)) in Ha.
  rewrite Hs in Ha. rewrite (bind_ok _ _ _ _ _ (Ha eq_refl)).
  cbn [fst snd ok_response resp_json PyDict.get]. rewrite String.eqb_refl.
  erewrite bind_ok; [apply index_loop | reflexivity].
Qed.

Lemma list_by_name_flows u rm log :
  list_by_name (AgentCollection "flows") "flows" (u, (rm, log))
  = (Ok (index_of (rm_flows rm)),
     (u, (rm, log ++ [list_request (AgentCollection "flows")]))).
Proof. now apply (list_by_name_collection "flows" rm_flows). Qed.

Lemma list_by_name_webhooks u rm log :
  list_by_name (AgentCollection "webhooks") "webhooks" (u, (rm, log))
  = (Ok (index_of (rm_webhooks rm)),
     (u, (rm, log ++ [list_request (AgentCollection "webhooks")]))).
Proof. now apply (list_by_name_collection "webhooks" rm_webhooks). Qed.

Lemma list_by_name_intents u rm log :
  list_by_name (AgentCollection "intents") "intents" (u, (rm, log))
  = (Ok (index_of (rm_intents rm)),
     (u, (rm, log ++ [list_request (AgentCollection "intents")]))).
Proof. now apply (list_by_name_collection "intents" rm_intents). Qed.

Lemma list_by_name_pages flow u rm log :
  has_name flow (rm_flows rm) = true ->
  list_by_name (FlowPages flow) "pages" (u, (rm, log))
  = (Ok (index_of (pages_of flow (rm_pages rm))),
     (u, (rm, log ++ [list_request (FlowPages flow)]))).
Proof.
  intros Hf. unfold list_by_name.
  pose proof (api_request_ok GET (FlowPages flow) None None u rm log) as Ha.
  cbv zeta in Ha. fold (list_request (FlowPages flow)) in Ha.
  assert (Hs : serve (list_request (FlowPages flow)) rm
    = (ok_response
         (JObj [("pages", JList (map item_json (pages_of flow (rm_pages rm))))]),
       rm)).
  { unfold serve. simpl. now rewrite Hf. }
  rewrite Hs in Ha. rewrite (bind_ok _ _ _ _ _ (Ha eq_refl)).
  cbn [fst snd ok_response resp_json PyDict.get].
  change (String.eqb "pages" "pages") with true. cbv iota.
  erewrite bind_ok; [apply index_loop | reflexivity].
Qed.

(** *** Webhook upsert on a display-name match *)

Lemma set_cache_webhooks_same u k v :
  cache_webhooks u !! k = Some v ->
  set_cache_webhooks u (<[k := v]> (cache_webhooks u)) = u.
Proof.
  intros H. rewrite (insert_id _ _ _ H). now destruct u.
Qed.

(** C8: when a webhook with the display name exists on the service (and the
    cache entry for this name and URI, if there is one, is the identifier of
    such a webhook, as [upsert_webhook] leaves it), [upsert_webhook] sends
    nothing but at most the listing request, the service is exactly as it
    was, with the URI and the headers of every webhook, and the identifier
    of an existing webhook of that display name is returned and is in the
    cache under the name and the target URI. *)
Theorem upsert_webhook_keeps_existing (u : uploader) (rm : remote)
  (log : list request) (display_name uri : string)
  (headers_map : option (PyDict.dict string)) :
  In display_name (display_names (rm_webhooks rm)) ->
  (forall id, cache_webhooks u !! (display_name +:+ "::" +:+ uri) = Some id ->
              In (id, display_name) (entries (rm_webhooks rm))) ->
  exists id sent,
    upsert_webhook display_name uri headers_map (u, (rm, log))
    = (Ok id,
       (set_cache_webhooks u
          (<[display_name +:+ "::" +:+ uri := id]> (cache_webhooks u)),
        (rm, log ++ sent)))
    /\ Forall (fun rq => rq_method rq = GET) sent
    /\ In (id, display_name) (entries (rm_webhooks rm)).
Proof.
  intros Hin Hcache. unfold upsert_webhook.
  set (key := display_name +:+ "::" +:+ uri) in *.
  erewrite bind_ok; [|reflexivity].
  destruct (cache_webhooks u !! key) as [cached|] eqn:Ec.
  - exists cached, []. rewrite app_nil_r, set_cache_webhooks_same by exact Ec.
    split; [reflexivity|]. split; [constructor | now apply Hcache].
  - rewrite (bind_ok _ _ _ _ _ (list_by_name_webhooks u rm log)).
    pose proof (index_of_indexed (rm_webhooks rm) display_name) as Hi.
    destruct (index_of (rm_webhooks rm) !! display_name) as [item|].
    + destruct Hi as (n & Hn & Hentry).
      exists n, [list_request (AgentCollection "webhooks")].
      rewrite (bind_ok _ _ _ _ _ (name_of_item item n _ Hn)).
      erewrite bind_ok; [|reflexivity].
      split; [reflexivity|]. split; [|exact Hentry].
      constructor; [reflexivity|constructor].
    + exfalso. apply Hi. unfold entries. rewrite map_map. exact Hin.
Qed.

(** An agent that already has the dispatcher webhook. *)
Definition agent_with_dispatcher : remote :=
  {| rm_flows := [];
     rm_webhooks :=
       [{| res_name := "webhooks/0"; res_display := "Dispatcher";
           res_fields :=
             [("genericWebService", JObj [("uri", JStr "https://old.example/hook")])] |}];
     rm_intents := []; rm_pages := []; rm_counter := 1 |}.

(** The uploader as [__init__] leaves it. *)
Definition new_uploader (token url : string) (header : option string) : uploader :=
  {| headers := token; cache_flows := ∅; cache_webhooks := ∅;
     dispatcher_url := url; dispatcher_header := header |}.

Lemma upsert_webhook_keeps_existing_witness :
  exists id sent,
    upsert_webhook "Dispatcher" "https://new.example/hook" None
      (new_uploader "t" "https://new.example/hook" None, (agent_with_dispatcher, []))
    = (Ok id,
       (set_cache_webhooks (new_uploader "t" "https://new.example/hook" None)
          (<["Dispatcher" +:+ "::" +:+ "https://new.example/hook" := id]> ∅),
        (agent_with_dispatcher, [] ++ sent)))
    /\ Forall (fun rq => rq_method rq = GET) sent
    /\ In (id, "Dispatcher") (entries (rm_webhooks agent_with_dispatcher)).
Proof.
  apply (upsert_webhook_keeps_existing
           (new_uploader "t" "https://new.example/hook" None)
           agent_with_dispatcher [] "Dispatcher" "https://new.example/hook" None).
  - simpl. now left.
  - intros id H. simpl in H. rewrite lookup_empty in H. discriminate.
Defined.

(** *** Flow and webhook upserts *)

Ltac split_conj := repeat match goal with |- _ /\ _ => split end.

Ltac no_cache_hit :=
  match goal with
  | |- is_Some None -> _ => intros [? ?]; discriminate
  end.

(** The flow identifiers in the cache are identifiers of flows of the
    service. *)
Definition cache_valid (u : uploader) (rm : remote) : Prop :=
  forall dn id, cache_flows u !! dn = Some id -> has_name id (rm_flows rm) = true.

Lemma has_name_app n l1 l2 :
  has_name n (l1 ++ l2) = has_name n l1 || has_name n l2.
Proof. unfold has_name. apply existsb_app. Qed.

Lemma has_name_same_entries n l1 l2 :
  entries l1 = entries l2 -> has_name n l1 = has_name n l2.
Proof.
  intros E. apply eq_true_iff_eq. now rewrite !has_name_entries, E.
Qed.

Lemma in_entries_has_name n dn l :
  In (n, dn) (entries l) -> has_name n l = true.
Proof.
  intros H. apply has_name_entries, in_map_iff. now exists (n, dn).
Qed.

Lemma entries_app l1 l2 : entries (l1 ++ l2) = entries l1 ++ entries l2.
Proof. apply map_app. Qed.

Lemma upsert_flow_run fn u rm log :
  cache_valid u rm ->
  exists F u' rm' log',
    upsert_flow fn (u, (rm, log)) = (Ok F, (u', (rm', log')))
    /\ cache_flows u' !! fn = Some F
    /\ has_name F (rm_flows rm') = true
    /\ cache_valid u' rm'
    /\ cache_webhooks u' = cache_webhooks u
    /\ dispatcher_url u' = dispatcher_url u
    /\ dispatcher_header u' = dispatcher_header u
    /\ rm_webhooks rm' = rm_webhooks rm
    /\ rm_intents rm' = rm_intents rm
    /\ rm_pages rm' = rm_pages rm
    /\ (is_Some (cache_flows u !! fn) -> u' = u /\ rm' = rm).
Proof.
  intros Hv. unfold upsert_flow. erewrite bind_ok; [|reflexivity].
  destruct (cache_flows u !! fn) as [cached|] eqn:Ec.
  - exists cached, u, rm, log. split; [reflexivity|].
    split_conj; try assumption; try reflexivity; [now apply (Hv fn) | tauto].
  - rewrite (bind_ok _ _ _ _ _ (list_by_name_flows u rm log)).
    set (log1 := log ++ [list_request (AgentCollection "flows")]).
    pose proof (index_of_indexed (rm_flows rm) fn) as Hi.
    destruct (index_of (rm_flows rm) !! fn) as [item|].
    + destruct Hi as (n & Hn & Hentry).
      rewrite (bind_ok _ _ _ _ _ (name_of_item item n _ Hn)).
      erewrite bind_ok; [|reflexivity].
      exists n, (set_cache_flows u (<[fn := n]> (cache_flows u))), rm, log1.
      split; [reflexivity|]. simpl. rewrite lookup_insert_eq.
      pose proof (in_entries_has_name _ _ _ Hentry) as Hh.
      split_conj; try reflexivity; try assumption; try no_cache_hit.
      intros dn id. simpl. destruct (String.eqb_spec fn dn) as [<-|Hne].
      * rewrite lookup_insert_eq. now intros [= <-].
      * rewrite lookup_insert_ne by exact Hne. apply Hv.
    + set (r := {| res_name := fresh_name "flows" rm; res_display := fn;
                   res_fields := [] |}).
      set (rm1 := {| rm_flows := rm_flows rm ++ [r];
                     rm_webhooks := rm_webhooks rm;
                     rm_intents := rm_intents rm; rm_pages := rm_pages rm;
                     rm_counter := S (rm_counter rm) |}).
      pose proof (api_request_ok POST (AgentCollection "flows") None
                    (Some (JObj [("displayName", JStr fn)])) u rm log1) as Ha.
      cbv zeta in Ha.
      assert (Hs : serve (mk_request POST (AgentCollection "flows") None
                            (Some (JObj [("displayName", JStr fn)]))) rm
                   = (ok_response (item_json r), rm1)) by reflexivity.
      rewrite Hs in Ha. specialize (Ha eq_refl). cbn [fst snd] in Ha.
      erewrite bind_ok; [|erewrite bind_ok; [|exact Ha]; reflexivity].
      erewrite bind_ok; [|reflexivity].
      eexists _, _, rm1, _. split; [reflexivity|]. simpl.
      rewrite lookup_insert_eq, has_name_app. simpl.
      rewrite String.eqb_refl, orb_true_r.
      split_conj; try reflexivity; try no_cache_hit.
      intros dn id. simpl. rewrite has_name_app.
      destruct (String.eqb_spec fn dn) as [<-|Hne].
      * rewrite lookup_insert_eq. intros [= <-]. simpl.
        now rewrite String.eqb_refl, orb_true_r.
      * rewrite lookup_insert_ne by exact Hne. intros H.
        now rewrite (Hv _ _ H).
Qed.

Lemma upsert_webhook_run dn uri hm u rm log :
  exists n u' rm' log',
    upsert_webhook dn uri hm (u, (rm, log)) = (Ok n, (u', (rm', log')))
    /\ cache_webhooks u' !! (dn +:+ "::" +:+ uri) = Some n
    /\ cache_flows u' = cache_flows u
    /\ dispatcher_url u' = dispatcher_url u
    /\ dispatcher_header u' = dispatcher_header u
    /\ rm_flows rm' = rm_flows rm
    /\ rm_intents rm' = rm_intents rm
    /\ rm_pages rm' = rm_pages rm
    /\ (is_Some (cache_webhooks u !! (dn +:+ "::" +:+ uri)) -> u' = u /\ rm' = rm).
Proof.
  unfold upsert_webhook. set (key := dn +:+ "::" +:+ uri).
  erewrite bind_ok; [|reflexivity].
  destruct (cache_webhooks u !! key) as [cached|] eqn:Ec.
  - exists cached, u, rm, log. split; [reflexivity|].
    split_conj; try assumption; try reflexivity. tauto.
  - rewrite (bind_ok _ _ _ _ _ (list_by_name_webhooks u rm log)).
    set (log1 := log ++ [list_request (AgentCollection "webhooks")]).
    pose proof (index_of_indexed (rm_webhooks rm) dn) as Hi.
    destruct (index_of (rm_webhooks rm) !! dn) as [item|].
    + destruct Hi as (n & Hn & Hentry).
      rewrite (bind_ok _ _ _ _ _ (name_of_item item n _ Hn)).
      erewrite bind_ok; [|reflexivity].
      exists n, (set_cache_webhooks u (<[key := n]> (cache_webhooks u))), rm, log1.
      split; [reflexivity|]. simpl. rewrite lookup_insert_eq.
      split_conj; try reflexivity; no_cache_hit.
    + match goal with
      | |- context [_api_request POST ?url None (Some ?payload)] =>
          pose proof (api_request_ok POST url None (Some payload) u rm log1) as Ha;
          set (body := payload) in *
      end.
      cbv zeta in Ha.
      assert (Hs : exists r,
        serve (mk_request POST (AgentCollection "webhooks") None (Some body)) rm
        = (ok_response (item_json r),
           {| rm_flows := rm_flows rm; rm_webhooks := rm_webhooks rm ++ [r];
              rm_intents := rm_intents rm; rm_pages := rm_pages rm;
              rm_counter := S (rm_counter rm) |})).
      { eexists. reflexivity. }
      destruct Hs as (r & Hs). rewrite Hs in Ha. specialize (Ha eq_refl).
      cbn [fst snd] in Ha.
      erewrite bind_ok; [|erewrite bind_ok; [|exact Ha]; reflexivity].
      erewrite bind_ok; [|reflexivity].
      eexists _, _, _, _. split; [reflexivity|]. simpl.
      rewrite lookup_insert_eq.
      split_conj; try reflexivity; no_cache_hit.
Qed.

(** *** Page and intent upserts *)

(** The names and display names of the pages of flow [F]. *)
Definition under (F : string) (pe : list (string * (string * string)))
  : list (string * string) :=
  map snd (List.filter (fun x => String.eqb (fst x) F) pe).

Lemma entries_pages_of F pages :
  entries (pages_of F pages) = under F (page_entries pages).
Proof.
  unfold entries, pages_of, under, page_entries.
  induction pages as [|[f r] pages IH]; simpl; [reflexivity|].
  destruct (String.eqb f F); simpl; now rewrite IH.
Qed.

Lemma under_app F pe1 pe2 : under F (pe1 ++ pe2) = under F pe1 ++ under F pe2.
Proof. unfold under. now rewrite List.filter_app, map_app. Qed.

Lemma under_has_name F n dn pages :
  In (n, dn) (under F (page_entries pages)) ->
  has_name n (map snd pages) = true.
Proof.
  rewrite <- entries_pages_of. intros H. apply in_entries_has_name in H.
  apply has_name_entries in H. apply has_name_entries.
  unfold entries, pages_of in *. rewrite !map_map in *.
  apply in_map_iff in H as (fp & E & Hin). apply List.filter_In in Hin as [Hin _].
  apply in_map_iff. now exists fp.
Qed.

Lemma index_or_list_pages F idx u rm log :
  has_name F (rm_flows rm) = true ->
  indexed idx (under F (page_entries (rm_pages rm))) ->
  exists idx' log',
    index_or_list idx (FlowPages F) "pages" (u, (rm, log))
    = (Ok idx', (u, (rm, log')))
    /\ indexed idx' (under F (page_entries (rm_pages rm))).
Proof.
  intros Hf Hi. unfold index_or_list. destruct (size idx =? 0).
  - rewrite (list_by_name_pages F u rm log Hf). eexists _, _.
    split; [reflexivity|]. rewrite <- entries_pages_of. apply index_of_indexed.
  - exists idx, log. now split.
Qed.

Lemma index_or_list_intents idx u rm log :
  indexed idx (entries (rm_intents rm)) ->
  exists idx' log',
    index_or_list idx (AgentCollection "intents") "intents" (u, (rm, log))
    = (Ok idx', (u, (rm, log')))
    /\ indexed idx' (entries (rm_intents rm)).
Proof.
  intros Hi. unfold index_or_list. destruct (size idx =? 0).
  - rewrite (list_by_name_intents u rm log). eexists _, _.
    split; [reflexivity|]. apply index_of_indexed.
  - exists idx, log. now split.
Qed.

(** A PATCH of an existing resource is accepted and changes no name and no
    display name. *)
Lemma patch_existing n mask v u rm log :
  has_name n (rm_flows rm) || has_name n (rm_webhooks rm)
  || has_name n (rm_intents rm) || has_name n (map snd (rm_pages rm)) = true ->
  exists rm' log',
    _api_request PATCH (Resource n) (Some mask) (Some (JObj [(mask, v)]))
      (u, (rm, log))
    = (Ok (ok_response (JObj [])), (u, (rm', log')))
    /\ shape_of rm' = shape_of rm.
Proof.
  intros Hh.
  pose proof (api_request_ok PATCH (Resource n) (Some mask)
                (Some (JObj [(mask, v)])) u rm log) as Ha.
  cbv zeta in Ha.
  pose proof (serve_not_post_shape
                (mk_request PATCH (Resource n) (Some mask) (Some (JObj [(mask, v)])))
                rm) as Hs.
  assert (E : fst (serve (mk_request PATCH (Resource n) (Some mask)
                            (Some (JObj [(mask, v)]))) rm)
              = ok_response (JObj [])).
  { unfold serve. simpl. rewrite Hh, String.eqb_refl. reflexivity. }
  rewrite E in Ha. eexists _, _. split; [apply Ha; reflexivity|].
  apply Hs. discriminate.
Qed.

Lemma shape_components rm rm' :
  shape_of rm' = shape_of rm ->
  entries (rm_flows rm') = entries (rm_flows rm)
  /\ entries (rm_webhooks rm') = entries (rm_webhooks rm)
  /\ entries (rm_intents rm') = entries (rm_intents rm)
  /\ page_entries (rm_pages rm') = page_entries (rm_pages rm).
Proof. unfold shape_of. intros [= -> -> -> ->]. auto. Qed.

Lemma upsert_page_run F dn prompts chips idx b u rm log :
  has_name F (rm_flows rm) = true ->
  indexed idx (under F (page_entries (rm_pages rm))) ->
  exists n rm' log' new,
    upsert_page F dn prompts chips idx b (u, (rm, log))
    = (Ok n, (u, (rm', log')))
    /\ entries (rm_flows rm') = entries (rm_flows rm)
    /\ entries (rm_webhooks rm') = entries (rm_webhooks rm)
    /\ entries (rm_intents rm') = entries (rm_intents rm)
    /\ page_entries (rm_pages rm') = page_entries (rm_pages rm) ++ new
    /\ (new = [] \/ new = [(F, (n, dn))])
    /\ (In dn (map snd (under F (page_entries (rm_pages rm)))) -> new = [])
    /\ In (n, dn) (under F (page_entries (rm_pages rm'))).
Proof.
  intros Hf Hi. unfold upsert_page.
  destruct (index_or_list_pages F idx u rm log Hf Hi) as (idx' & log1 & E1 & Hi').
  rewrite (bind_ok _ _ _ _ _ E1).
  pose proof (Hi' dn) as Hdn. destruct (idx' !! dn) as [item|].
  - destruct Hdn as (n & Hn & Hentry).
    rewrite (bind_ok _ _ _ _ _ (name_of_item item n _ Hn)).
    destruct (patch_existing n "entryFulfillment"
                (entry_fulfillment prompts chips) u rm log1) as (rm' & log' & E2 & Hs).
    { rewrite (under_has_name _ _ _ _ Hentry). now rewrite !orb_true_r. }
    rewrite (bind_ok _ _ _ _ _ E2).
    destruct (shape_components _ _ Hs) as (S1 & S2 & S3 & S4).
    exists n, rm', log', []. rewrite app_nil_r, S4.
    split_conj; auto.
  - set (r := {| res_name := fresh_name (F +:+ "/pages") rm; res_display := dn;
                 res_fields := [("entryFulfillment", entry_fulfillment prompts chips)] |}).
    set (rm1 := {| rm_flows := rm_flows rm; rm_webhooks := rm_webhooks rm;
                   rm_intents := rm_intents rm;
                   rm_pages := rm_pages rm ++ [(F, r)];
                   rm_counter := S (rm_counter rm) |}).
    match goal with
    | |- context [_api_request POST ?url None (Some ?payload)] =>
        pose proof (api_request_ok POST url None (Some payload) u rm log1) as Ha
    end.
    cbv zeta in Ha.
    match type of Ha with
    | context [serve ?rq rm] =>
        assert (Hs : serve rq rm = (ok_response (item_json r), rm1))
    end.
    { unfold serve. simpl. rewrite Hf. reflexivity. }
    rewrite Hs in Ha. specialize (Ha eq_refl). cbn [fst snd] in Ha.
    rewrite (bind_ok _ _ _ _ _ Ha).
    exists (res_name r), rm1, (log1 ++ [mk_request POST (FlowPages F) None
      (Some (JObj [("displayName", JStr dn);
                   ("entryFulfillment", entry_fulfillment prompts chips)]))]),
      [(F, (res_name r, dn))].
    split; [reflexivity|]. simpl rm_flows. simpl rm_webhooks. simpl rm_intents.
    simpl rm_pages.
    assert (Hpe : page_entries (rm_pages rm ++ [(F, r)])
                  = page_entries (rm_pages rm) ++ [(F, (res_name r, dn))]).
    { unfold page_entries. now rewrite map_app. }
    rewrite Hpe. split_conj; auto.
    + intros H. contradiction.
    + rewrite under_app, in_app_iff. right. unfold under. simpl.
      rewrite String.eqb_refl. simpl. now left.
Qed.

Lemma upsert_intent_run dn tp idx u rm log :
  indexed idx (entries (rm_intents rm)) ->
  exists n rm' log' new,
    upsert_intent dn tp idx (u, (rm, log)) = (Ok n, (u, (rm', log')))
    /\ entries (rm_flows rm') = entries (rm_flows rm)
    /\ entries (rm_webhooks rm') = entries (rm_webhooks rm)
    /\ page_entries (rm_pages rm') = page_entries (rm_pages rm)
    /\ entries (rm_intents rm') = entries (rm_intents rm) ++ new
    /\ (new = [] \/ new = [(n, dn)])
    /\ (In dn (map snd (entries (rm_intents rm))) -> new = [])
    /\ In (n, dn) (entries (rm_intents rm')).
Proof.
  intros Hi. unfold upsert_intent.
  destruct (index_or_list_intents idx u rm log Hi) as (idx' & log1 & E1 & Hi').
  rewrite (bind_ok _ _ _ _ _ E1).
  pose proof (Hi' dn) as Hdn. destruct (idx' !! dn) as [item|].
  - destruct Hdn as (n & Hn & Hentry).
    rewrite (bind_ok _ _ _ _ _ (name_of_item item n _ Hn)).
    destruct (patch_existing n "trainingPhrases"
                (training_phrases_json tp) u rm log1) as (rm' & log' & E2 & Hs).
    { rewrite (in_entries_has_name _ _ _ Hentry). now rewrite !orb_true_r. }
    rewrite (bind_ok _ _ _ _ _ E2).
    destruct (shape_components _ _ Hs) as (S1 & S2 & S3 & S4).
    exists n, rm', log', []. rewrite app_nil_r, S3.
    split_conj; auto.
  - set (r := {| res_name := fresh_name "intents" rm; res_display := dn;
                 res_fields := [("trainingPhrases", training_phrases_json tp)] |}).
    set (rm1 := {| rm_flows := rm_flows rm; rm_webhooks := rm_webhooks rm;
                   rm_intents := rm_intents rm ++ [r];
                   rm_pages := rm_pages rm;
                   rm_counter := S (rm_counter rm) |}).
    match goal with
    | |- context [_api_request POST ?url None (Some ?payload)] =>
        pose proof (api_request_ok POST url None (Some payload) u rm log1) as Ha
    end.
    cbv zeta in Ha.
    match type of Ha with
    | context [serve ?rq rm] =>
        assert (Hs : serve rq rm = (ok_response (item_json r), rm1))
          by reflexivity
    end.
    rewrite Hs in Ha. specialize (Ha eq_refl). cbn [fst snd] in Ha.
    rewrite (bind_ok _ _ _ _ _ Ha).
    eexists (res_name r), rm1, _, [(res_name r, dn)].
    split; [reflexivity|]. simpl rm_flows. simpl rm_webhooks. simpl rm_intents.
    simpl rm_pages. rewrite entries_app. simpl entries at 2.
    split_conj; auto.
    + intros H. contradiction.
    + rewrite in_app_iff. right. now left.
Qed.

(** *** The two upsert loops *)

Lemma in_map_snd_app {A B} (x : B) (l1 l2 : list (A * B)) :
  In x (map snd l1) -> In x (map snd (l1 ++ l2)).
Proof. rewrite map_app, in_app_iff. tauto. Qed.

Lemma pages_loop F ends pgs : forall idx ids u rm log,
  has_name F (rm_flows rm) = true ->
  indexed idx (under F (page_entries (rm_pages rm))) ->
  exists idx' ids' rm' log' new,
    for_each pgs (idx, ids) (upsert_pages_step F ends) (u, (rm, log))
    = (Ok (idx', ids'), (u, (rm', log')))
    /\ entries (rm_flows rm') = entries (rm_flows rm)
    /\ entries (rm_webhooks rm') = entries (rm_webhooks rm)
    /\ entries (rm_intents rm') = entries (rm_intents rm)
    /\ page_entries (rm_pages rm') = page_entries (rm_pages rm) ++ new
    /\ ((forall dn, In dn (PyDict.keys pgs) ->
                    In dn (map snd (under F (page_entries (rm_pages rm))))) ->
        new = [])
    /\ (forall dn, In dn (PyDict.keys pgs) ->
                   In dn (map snd (under F (page_entries (rm_pages rm')))))
    /\ indexed idx' (under F (page_entries (rm_pages rm'))).
Proof.
  induction pgs as [|[dn info] pgs IH]; intros idx ids u rm log Hf Hi.
  - exists idx, ids, rm, log, []. rewrite app_nil_r.
    split; [reflexivity|]. split_conj; auto. intros dn [].
  - cbn [for_each]. unfold upsert_pages_step at 1.
    destruct (upsert_page_run F dn (pg_prompts info) (pg_chips info) idx
                (str_in dn ends) u rm log Hf Hi)
      as (n & rm1 & log1 & new1 & E1 & F1 & W1 & I1 & P1 & Hnew & Hpres & Hin).
    erewrite bind_ok; [|erewrite bind_ok; [|exact E1]; reflexivity].
    assert (Hf1 : has_name F (rm_flows rm1) = true).
    { now rewrite (has_name_same_entries F _ _ F1). }
    assert (Hi1 : indexed (<[dn := JObj [("name", JStr n)]]> idx)
                    (under F (page_entries (rm_pages rm1)))).
    { destruct Hnew as [->| ->].
      - rewrite P1, app_nil_r. apply (indexed_insert_present _ _ n);
          [exact Hi | reflexivity |]. now rewrite P1, app_nil_r in Hin.
      - rewrite P1, under_app. unfold under at 2. simpl.
        rewrite String.eqb_refl. simpl.
        now apply indexed_insert_new. }
    destruct (IH _ (<[dn := n]> ids) u rm1 log1 Hf1 Hi1)
      as (idx' & ids' & rm' & log' & new2 & E2 & F2 & W2 & I2 & P2
          & Hnone & Hall & Hi').
    exists idx', ids', rm', log', (new1 ++ new2).
    split; [exact E2|]. rewrite F2, W2, I2, P2, P1, <- app_assoc.
    split_conj; auto.
    + intros Hpresent.
      assert (new1 = []) as ->.
      { apply Hpres, Hpresent. now left. }
      rewrite app_nil_r in P1. simpl. apply Hnone. intros dn' Hdn'.
      rewrite P1. apply Hpresent. now right.
    + intros dn' [<-|Hdn'].
      * rewrite app_assoc, <- P1, under_app. apply in_map_snd_app.
        apply in_map_iff. now exists (n, dn).
      * rewrite app_assoc, <- P1, <- P2. now apply Hall.
    + now rewrite app_assoc, <- P1, <- P2.
Qed.

Lemma intents_loop its : forall idx ids u rm log,
  indexed idx (entries (rm_intents rm)) ->
  exists idx' ids' rm' log' new,
    for_each its (idx, ids) upsert_intents_step (u, (rm, log))
    = (Ok (idx', ids'), (u, (rm', log')))
    /\ entries (rm_flows rm') = entries (rm_flows rm)
    /\ entries (rm_webhooks rm') = entries (rm_webhooks rm)
    /\ page_entries (rm_pages rm') = page_entries (rm_pages rm)
    /\ entries (rm_intents rm') = entries (rm_intents rm) ++ new
    /\ ((forall dn, In dn (PyDict.keys its) ->
                    In dn (map snd (entries (rm_intents rm)))) ->
        new = [])
    /\ (forall dn, In dn (PyDict.keys its) ->
                   In dn (map snd (entries (rm_intents rm'))))
    /\ indexed idx' (entries (rm_intents rm')).
Proof.
  induction its as [|[dn tp] its IH]; intros idx ids u rm log Hi.
  - exists idx, ids, rm, log, []. rewrite app_nil_r.
    split; [reflexivity|]. split_conj; auto. intros dn [].
  - cbn [for_each]. unfold upsert_intents_step at 1.
    destruct (upsert_intent_run dn tp idx u rm log Hi)
      as (n & rm1 & log1 & new1 & E1 & F1 & W1 & P1 & I1 & Hnew & Hpres & Hin).
    erewrite bind_ok; [|erewrite bind_ok; [|exact E1]; reflexivity].
    assert (Hi1 : indexed (<[dn := JObj [("name", JStr n)]]> idx)
                    (entries (rm_intents rm1))).
    { destruct Hnew as [->| ->].
      - rewrite I1, app_nil_r. apply (indexed_insert_present _ _ n);
          [exact Hi | reflexivity |]. now rewrite I1, app_nil_r in Hin.
      - rewrite I1. now apply indexed_insert_new. }
    destruct (IH _ (<[dn := n]> ids) u rm1 log1 Hi1)
      as (idx' & ids' & rm' & log' & new2 & E2 & F2 & W2 & P2 & I2
          & Hnone & Hall & Hi').
    exists idx', ids', rm', log', (new1 ++ new2).
    split; [exact E2|]. rewrite F2, W2, P2, I2, I1, <- app_assoc.
    split_conj; auto.
    + intros Hpresent.
      assert (new1 = []) as ->.
      { apply Hpres, Hpresent. now left. }
      rewrite app_nil_r in I1. simpl. apply Hnone. intros dn' Hdn'.
      rewrite I1. apply Hpresent. now right.
    + intros dn' [<-|Hdn'].
      * rewrite app_assoc, <- I1. apply in_map_snd_app.
        apply in_map_iff. now exists (n, dn).
      * rewrite app_assoc, <- I1, <- I2. now apply Hall.
    + now rewrite app_assoc, <- I1, <- I2.
Qed.

(** *** Steps that create nothing *)












(** *** One upload *)

Definition flow_display_name (json_path : string) (flow_name : option string)
  : string :=
  if truthy_opt flow_name then default "" flow_name
  else title (replace "_" " " (replace "dialogflow_" "" (path_stem json_path))).

Definition dispatcher_needed (data : graph) : bool :=
  existsb (fun r => truthy_opt (r_webhook_action r)) (d_routes data)
  || negb (PyDict.is_empty_list (d_webhooks data)).





(** *** Uploading twice *)

Lemma display_names_entries l : display_names l = map snd (entries l).
Proof. unfold display_names, entries. now rewrite map_map. Qed.



(** A small graph: two pages, one intent, one route with a webhook action. *)
Definition demo_graph : graph :=
  {| d_pages :=
       [("Welcome", {| pg_prompts := ["Hello"]; pg_chips := ["Yes"; "No"];
                       pg_metadata := [] |});
        ("Goodbye", {| pg_prompts := ["Bye"]; pg_chips := []; pg_metadata := [] |})];
     d_intents := [("Intent_welcome :: Yes", ["Yes"])];
     d_routes :=
       [{| r_page := "Welcome"; r_intent := "Intent_welcome :: Yes";
           r_next_page := Some "Goodbye"; r_webhook_action := Some "fetch_data";
           r_parameters := Some [("topic", "demo")] |}];
     d_end_pages := ["Goodbye"];
     d_first_page := Some "Welcome";
     d_webhooks := [("fetch_data", "Fetch the data")];
     d_source_file := "demo.csv";
     d_has_step_info := false |}.

Definition empty_agent : remote :=
  {| rm_flows := []; rm_webhooks := []; rm_intents := []; rm_pages := [];
     rm_counter := 0 |}.

Definition demo_start : uploader * world :=
  (new_uploader "t" "https://dispatch.example/hook" None, (empty_agent, [])).


(** The same two uploads, computed. *)
Example upload_demo_computed :
  let r1 := upload_single_flow "out/dialogflow_demo_flow.json" demo_graph None
              demo_start in
  let r2 := upload_single_flow "out/dialogflow_demo_flow.json" demo_graph None
              (snd r1) in
  fst r1 = (true, "Demo Flow") /\ fst r2 = (true, "Demo Flow")
  /\ display_names (rm_flows (fst (snd (snd r2)))) = ["Demo Flow"]
  /\ display_names (rm_webhooks (fst (snd (snd r2)))) = ["Dispatcher"]
  /\ display_names (rm_intents (fst (snd (snd r2)))) = ["Intent_welcome :: Yes"]
  /\ page_display_names (fst (snd (snd r2)))
     = [("flows/0", "Welcome"); ("flows/0", "Goodbye")]
  /\ length (snd (snd (snd r1))) = 14 /\ length (snd (snd (snd r2))) = 22.
Proof. vm_compute. repeat split. Qed.

(** * Further properties of the converter *)

(** ** The parameter parser *)

(** The binding a token of the parameter cell stands for, if any: the
    trimmed key and value around its first equals sign, or the trimmed token
    with an empty value. *)
Definition param_binding (pair : string) : option (string * string) :=
  let pair := strip pair in
  if truthy pair
  then if contains "="%char pair
       then match split1 "="%char pair with
            | Some (k, v) => Some (strip k, strip v)
            | None => None
            end
       else Some (pair, "")
  else None.

(** The bindings of a parameter cell, in the order of the cell. *)
Definition param_bindings (param_str : option string) : list (string * string) :=
  match param_str with
  | None => []
  | Some p => omap param_binding (split ","%char p)
  end.

(** The value of the last binding of key [k]. *)
Definition last_binding (k : string) (bs : list (string * string)) : option string :=
  fold_left (fun acc b => if String.eqb k (fst b) then Some (snd b) else acc) bs None.

Lemma keys_set_NoDup {V} k (v : V) d :
  NoDup (PyDict.keys d) -> NoDup (PyDict.keys (PyDict.set k v d)).
Proof.
  unfold PyDict.keys. induction d as [|[k' v'] d IH]; simpl; intros H.
  - repeat constructor. intros Hin. inversion Hin.
  - apply NoDup_cons in H as [Hk Hd].
    destruct (String.eqb_spec k k') as [->|Hne]; simpl.
    + now apply NoDup_cons.
    + apply NoDup_cons. split; [|now apply IH].
      rewrite list_elem_of_In in *. fold (PyDict.keys (PyDict.set k v d)).
      rewrite keys_set. intros [E|Hin]; [congruence | now apply Hk].
Qed.

Lemma parse_params_step_binding result pair :
  parse_params_step result pair =
    match param_binding pair with
    | Some (k, v) => PyDict.set k v result
    | None => result
    end.
Proof.
  unfold parse_params_step, param_binding.
  destruct (truthy (strip pair)); simpl; [|reflexivity].
  destruct (contains "="%char (strip pair)); [|reflexivity].
  now destruct (split1 "="%char (strip pair)) as [[k v]|].
Qed.

Lemma parse_params_loop pairs : forall acc k,
  NoDup (PyDict.keys acc) ->
  NoDup (PyDict.keys (fold_left parse_params_step pairs acc))
  /\ PyDict.get k (fold_left parse_params_step pairs acc) =
       match last_binding k (omap param_binding pairs) with
       | Some v => Some v
       | None => PyDict.get k acc
       end.
Proof.
  unfold last_binding.
  induction pairs as [|pair pairs IH]; intros acc k Hnd; simpl.
  - auto.
  - rewrite parse_params_step_binding.
    destruct (param_binding pair) as [[k' v']|]; simpl; [|now apply IH].
    destruct (IH (PyDict.set k' v' acc) k (keys_set_NoDup _ _ _ Hnd)) as [H1 H2].
    split; [exact H1|]. rewrite H2. clear.
    assert (Hfold : forall bs (o : option string),
      fold_left (fun acc b => if String.eqb k b.1 then Some b.2 else acc) bs o
      = match fold_left (fun acc b => if String.eqb k b.1 then Some b.2 else acc) bs None with
        | Some v => Some v
        | None => o
        end).
    { induction bs as [|b bs IHb]; intros o; simpl; [reflexivity|].
      destruct (String.eqb k b.1).
      - rewrite (IHb (Some b.2)). now destruct (fold_left _ bs None).
      - apply IHb. }
    destruct (String.eqb_spec k k') as [->|Hne].
    + rewrite (Hfold _ (Some v')), get_set_same.
      now destruct (fold_left _ _ None).
    + now rewrite get_set_other.
Qed.

(** X1: the mapping that [parse_params] returns has each key once, and the
    value of a key is that of its last binding in the cell (a token without
    an equals sign binds its text to the empty string); an absent or empty
    cell gives the empty mapping. *)
Theorem parse_params_last_wins (param_str : option string) :
  NoDup (PyDict.keys (parse_params param_str))
  /\ (forall k, PyDict.get k (parse_params param_str)
                = last_binding k (param_bindings param_str))
  /\ parse_params None = [] /\ parse_params (Some "") = [].
Proof.
  split; [|split; [|split; reflexivity]].
  - destruct param_str as [p|]; simpl; [|constructor].
    destruct (truthy p); simpl; [|constructor].
    apply (parse_params_loop _ [] ""). constructor.
  - intros k. destruct param_str as [[|c p]|]; try reflexivity.
    unfold parse_params, param_bindings. simpl negb. cbv iota.
    destruct (parse_params_loop (split ","%char (String c p)) [] k) as [_ H].
    { constructor. }
    rewrite H. now destruct (last_binding k _).
Qed.

Example parse_params_overwrite :
  parse_params (Some "a=1, b = 2 ,flag,a=3") = [("a", "3"); ("b", "2"); ("flag", "")].
Proof. vm_compute. reflexivity. Qed.

(** ** Wrapping quotes *)

Lemma lstrip_by_first f s :
  char_is f (first_char s) = false -> lstrip_by f s = s.
Proof. destruct s as [|c s]; simpl; [reflexivity|]. now intros ->. Qed.

Lemma rstrip_by_last f s :
  char_is f (last_char s) = false -> rstrip_by f s = s.
Proof.
  induction s as [|c s IH]; [reflexivity|].
  intros H. simpl rstrip_by. destruct s as [|d s].
  - simpl in *. now rewrite H.
  - rewrite IH by exact H. reflexivity.
Qed.

Section QuoteFacts.
Variable q : ascii.

Let is_q (c : ascii) : bool := Ascii.eqb c q.

(** Without two quotes in a row there is nothing to collapse. *)
Lemma replace_no_doubled s :
  has_double is_q s = false ->
  replace (String q (String q "")) (String q "") s = s.
Proof.
  unfold replace. induction s as [|a s IH]; [reflexivity|].
  intros H. cbn [replace_aux].
  assert (Hs : startswith (String q (String q "")) (String a s) = false).
  { destruct s as [|b s]; cbn [startswith has_double] in *.
    - now rewrite andb_false_r.
    - apply orb_false_iff in H as [H _]. unfold is_q in H.
      rewrite (Ascii.eqb_sym q a), (Ascii.eqb_sym q b).
      rewrite andb_true_r. exact H. }
  rewrite Hs. f_equal. apply IH.
  destruct s as [|b s]; [reflexivity|]. cbn [has_double] in H.
  now apply orb_false_iff in H as [_ H].
Qed.

Lemma has_double_free s :
  contains q s = false -> has_double is_q s = false.
Proof.
  induction s as [|a s IH]; [reflexivity|].
  cbn [contains]. intros H. apply orb_false_iff in H as [Ha Hs].
  destruct s as [|b s]; [reflexivity|]. cbn [has_double].
  unfold is_q at 1. rewrite (Ascii.eqb_sym a q), Ha.
  rewrite andb_false_l, orb_false_l. now apply IH.
Qed.

Lemma has_double_snoc s :
  contains q s = false -> s <> "" ->
  has_double is_q (s +:+ String q "") = false.
Proof.
  induction s as [|a s IH]; [congruence|]. intros H _.
  cbn [contains] in H. apply orb_false_iff in H as [Ha Hs].
  destruct s as [|b s].
  - change (has_double is_q (String a (String q "")) = false).
    cbn [has_double]. unfold is_q at 1.
    rewrite (Ascii.eqb_sym a q), Ha. reflexivity.
  - change (has_double is_q (String a (String b (s +:+ String q ""))) = false).
    cbn [has_double]. unfold is_q at 1. rewrite (Ascii.eqb_sym a q), Ha.
    rewrite andb_false_l, orb_false_l.
    apply IH; [exact Hs | discriminate].
Qed.

Lemma has_double_wrapped t :
  t <> "" -> contains q t = false ->
  has_double is_q (String q (t +:+ String q "")) = false.
Proof.
  intros Hne Hq. destruct t as [|a t]; [congruence|].
  change (has_double is_q (String q (String a (t +:+ String q ""))) = false).
  pose proof Hq as Hq'. cbn [contains] in Hq'.
  apply orb_false_iff in Hq' as [Ha Ht].
  cbn [has_double]. unfold is_q at 2. rewrite (Ascii.eqb_sym a q), Ha.
  rewrite andb_false_r, orb_false_l.
  apply (has_double_snoc (String a t)); [exact Hq | discriminate].
Qed.

Lemma contains_lstrip f s :
  contains q s = false -> contains q (lstrip_by f s) = false.
Proof.
  induction s as [|a s IH]; [reflexivity|]. cbn [contains lstrip_by].
  intros H. pose proof H as H'. apply orb_false_iff in H' as [Ha Hs].
  destruct (f a); [now apply IH | exact H].
Qed.

Lemma contains_rstrip f s :
  contains q s = false -> contains q (rstrip_by f s) = false.
Proof.
  induction s as [|a s IH]; [reflexivity|]. cbn [contains rstrip_by].
  intros H. apply orb_false_iff in H as [Ha Hs]. specialize (IH Hs).
  destruct (rstrip_by f s) as [|b r].
  - destruct (f a); cbn [contains]; [reflexivity | now rewrite Ha].
  - change (contains q (String a (String b r)))
      with (Ascii.eqb q a || contains q (String b r)).
    now rewrite Ha, IH.
Qed.
End QuoteFacts.

(** X2: [strip_wrapping_quotes] undoes one layer of quoting: a non-empty text
    without quote characters, wrapped in a pair of quotes, comes back as it
    was, inner spaces included; and a text without quote characters is only
    trimmed. *)
Theorem strip_wrapping_quotes_unwraps (t : string) :
  contains dquote t = false ->
  (t <> "" -> strip_wrapping_quotes (String dquote (t +:+ dq)) = t)
  /\ strip_wrapping_quotes t = strip t.
Proof.
  intros Hq. split.
  - intros Hne. unfold strip_wrapping_quotes.
    set (s := String dquote (t +:+ dq)).
    assert (Hl : last_char s = Some dquote).
    { unfold s. change (String dquote (t +:+ dq)) with ((String dquote t) +:+ dq).
      unfold dq. apply last_char_snoc. }
    assert (Es : strip s = s).
    { unfold strip, strip_by. rewrite rstrip_by_last, lstrip_by_first;
        try reflexivity. now rewrite Hl. }
    rewrite Es. unfold s, dqdq, dq in *. cbv zeta.
    rewrite (replace_no_doubled dquote _ (has_double_wrapped dquote t Hne Hq)).
    assert (Hlen : (2 <=? String.length (String dquote (t +:+ String dquote "")))
                   = true).
    { cbn [String.length]. rewrite length_snoc. reflexivity. }
    rewrite Hl, Hlen, !Ascii.eqb_refl.
    cbn [andb]. apply drop_last_snoc.
  - unfold strip_wrapping_quotes.
    assert (Hs : contains dquote (strip t) = false).
    { unfold strip, strip_by. now apply contains_lstrip, contains_rstrip. }
    unfold dqdq, dq. cbv zeta.
    rewrite (replace_no_doubled dquote _ (has_double_free dquote _ Hs)).
    destruct (strip t) as [|c s] eqn:E; [reflexivity|].
    cbn [contains] in Hs. apply orb_false_iff in Hs as [Hc _].
    rewrite (Ascii.eqb_sym c dquote), Hc, andb_false_r. reflexivity.
Qed.

Lemma strip_wrapping_quotes_unwraps_witness :
  strip_wrapping_quotes (String dquote (" Yes, please " +:+ dq)) = " Yes, please "
  /\ strip_wrapping_quotes " plain " = "plain".
Proof.
  destruct (strip_wrapping_quotes_unwraps " Yes, please " eq_refl) as [H _].
  destruct (strip_wrapping_quotes_unwraps " plain " eq_refl) as [_ H'].
  split; [apply H; discriminate | exact H'].
Defined.

(** An empty pair of quotes is collapsed before it is looked at: what comes
    back is one quote character, not the empty text. *)
Example strip_wrapping_quotes_empty_pair : strip_wrapping_quotes dqdq = dq.
Proof. reflexivity. Qed.

(** ** Slugs *)

Lemma ident_char_lower c : is_ident_char c = true -> lower_ascii c = c.
Proof.
  unfold is_ident_char, lower_ascii. cbv zeta. intros H.
  destruct ((65 <=? nat_of_ascii c) && (nat_of_ascii c <=? 90)) eqn:E;
    [|reflexivity].
  apply andb_true_iff in E as [E1 E2].
  apply Nat.leb_le in E1, E2.
  apply orb_true_iff in H as [H|H].
  - apply orb_true_iff in H as [H|H]; apply andb_true_iff in H as [H1 H2];
      apply Nat.leb_le in H1, H2; lia.
  - apply Nat.eqb_eq in H. lia.
Qed.

Lemma ident_char_not_space c : is_ident_char c = true -> is_space c = false.
Proof.
  unfold is_ident_char, is_space. cbv zeta. intros H.
  apply orb_false_iff. split; apply andb_false_iff;
    rewrite !Nat.leb_gt;
    (apply orb_true_iff in H as [H|H];
     [apply orb_true_iff in H as [H|H]; apply andb_true_iff in H as [H1 H2];
      apply Nat.leb_le in H1, H2
     |apply Nat.eqb_eq in H]); lia.
Qed.

Lemma lower_ident s : chars_all is_ident_char s = true -> lower s = s.
Proof.
  induction s as [|c s IH]; [reflexivity|]. cbn [chars_all lower].
  intros H. apply andb_true_iff in H as [Hc Hs].
  now rewrite (ident_char_lower c Hc), IH.
Qed.

Lemma filter_chars_all f s : chars_all f s = true -> filter_chars f s = s.
Proof.
  induction s as [|c s IH]; [reflexivity|]. cbn [chars_all filter_chars].
  intros H. apply andb_true_iff in H as [Hc Hs]. now rewrite Hc, IH.
Qed.

(** Without a character of the class, and without two in a row when the
    class is the underscore alone, there is no run to replace. *)
Lemma sub_runs_none f s :
  (forall c, is_ident_char c = true -> f c = false) ->
  chars_all is_ident_char s = true -> sub_runs f s = s.
Proof.
  intros Hf. induction s as [|c s IH]; [reflexivity|]. cbn [chars_all sub_runs].
  intros H. apply andb_true_iff in H as [Hc Hs].
  now rewrite (Hf c Hc), IH.
Qed.

Lemma sub_runs_single s :
  has_double is_underscore s = false -> sub_runs is_underscore s = s.
Proof.
  induction s as [|c s IH]; [reflexivity|]. intros H.
  assert (Hs : has_double is_underscore s = false).
  { destruct s as [|d s]; [reflexivity|]. cbn [has_double] in H.
    now apply orb_false_iff in H as [_ H]. }
  cbn [sub_runs]. destruct (is_underscore c) eqn:Ec.
  - assert (c = "_"%char) as -> by now apply Ascii.eqb_eq.
    destruct s as [|d s]; [reflexivity|].
    cbn [has_double] in H. apply orb_false_iff in H as [H _].
    rewrite Ec in H. cbn [andb] in H. rewrite H. now rewrite IH.
  - now rewrite IH.
Qed.

Lemma char_is_ident_space s :
  chars_all is_ident_char s = true ->
  char_is is_space (first_char s) = false
  /\ char_is is_space (last_char s) = false.
Proof.
  induction s as [|c s IH]; [split; reflexivity|].
  cbn [chars_all]. intros H. apply andb_true_iff in H as [Hc Hs].
  split; [exact (ident_char_not_space c Hc)|].
  destruct s as [|d s]; [exact (ident_char_not_space c Hc)|].
  exact (proj2 (IH Hs)).
Qed.

Lemma slugify_fixes_identifier t : identifier t -> Csv.slugify t = t.
Proof.
  intros (Hc & Hd & Hf & Hl). unfold Csv.slugify. cbv zeta.
  destruct (char_is_ident_space t Hc) as [Sf Sl].
  rewrite (lower_ident t Hc).
  assert (E1 : strip t = t).
  { unfold strip, strip_by. now rewrite (rstrip_by_last _ _ Sl), lstrip_by_first. }
  rewrite E1, (sub_runs_none is_space t ident_char_not_space Hc).
  unfold sub_non_ident. rewrite (filter_chars_all _ _ Hc), (sub_runs_single t Hd).
  unfold strip_by. now rewrite (rstrip_by_last _ _ Hl), lstrip_by_first.
Qed.

(** X3: a slug is an identifier (characters of [[a-z0-9_]] only, no two
    underscores in a row, none at either end), making a slug of a slug changes
    nothing, and the uploader's [slugify] is the same function as the
    converter's. *)
Theorem slugify_idempotent (s : string) :
  identifier (Csv.slugify s)
  /\ Csv.slugify (Csv.slugify s) = Csv.slugify s
  /\ Upload.slugify s = Csv.slugify s.
Proof.
  split; [apply identifier_cleanup|]. split; [|reflexivity].
  apply slugify_fixes_identifier, identifier_cleanup.
Qed.

Example slugify_example : Csv.slugify "  Check-In: Step #2  " = "checkin_step_2".
Proof. vm_compute. reflexivity. Qed.

(** * Further properties of the graph compiler *)

(** ** Lists without repeated and without empty entries *)

Definition tidy (l : list string) : Prop :=
  NoDup l /\ Forall (fun x => truthy x = true) l.

Definition tidy_page (pg : page) : Prop :=
  tidy (pg_prompts pg) /\ tidy (pg_chips pg).

Definition intents_tidy (its : PyDict.dict (list string)) : Prop :=
  NoDup (PyDict.keys its) /\ Forall tidy (PyDict.values its).

Lemma tidy_nil : tidy [].
Proof. split; constructor. Qed.

Lemma append_new_NoDup l x : NoDup l -> NoDup (append_new l x).
Proof.
  unfold append_new. intros H. destruct (str_in x l) eqn:E; [exact H|].
  apply str_in_not_In in E. apply NoDup_app. split; [exact H|].
  split; [|apply NoDup_singleton].
  intros y Hy Hx. apply list_elem_of_In in Hy, Hx.
  destruct Hx as [<-|[]]. contradiction.
Qed.

Lemma tidy_append_new l x : tidy l -> truthy x = true -> tidy (append_new l x).
Proof.
  intros [H1 H2] Hx. split; [now apply append_new_NoDup|].
  apply List.Forall_forall. intros y Hy. apply append_new_In in Hy as [->|Hy];
    [exact Hx|]. rewrite List.Forall_forall in H2. now apply H2.
Qed.

Lemma tidy_append_all xs : forall l,
  tidy l -> Forall (fun x => truthy x = true) xs ->
  tidy (fold_left append_new xs l).
Proof.
  induction xs as [|x xs IH]; intros l Hl Hxs; simpl; [exact Hl|].
  inversion Hxs; subst. apply IH; [now apply tidy_append_new | assumption].
Qed.

Section DictValues.
Context {V : Type} (P : V -> Prop).

Lemma values_set_Forall k v (d : PyDict.dict V) :
  Forall P (PyDict.values d) -> P v -> Forall P (PyDict.values (PyDict.set k v d)).
Proof.
  unfold PyDict.values. intros Hd Hv.
  induction d as [|[k' v'] d IH]; simpl.
  - repeat constructor. exact Hv.
  - inversion Hd; subst. destruct (String.eqb k k'); simpl; constructor; auto.
Qed.

Lemma get_values_Forall k v (d : PyDict.dict V) :
  Forall P (PyDict.values d) -> PyDict.get k d = Some v -> P v.
Proof.
  unfold PyDict.values. induction d as [|[k' v'] d IH]; simpl; [discriminate|].
  intros Hd. inversion Hd; subst.
  destruct (String.eqb k k'); [now intros [= <-] | now apply IH].
Qed.

Lemma setdefault_Forall k v (d : PyDict.dict V) :
  Forall P (PyDict.values d) -> P v ->
  Forall P (PyDict.values (fst (PyDict.setdefault k v d)))
  /\ P (snd (PyDict.setdefault k v d)).
Proof.
  intros Hd Hv. unfold PyDict.setdefault.
  destruct (PyDict.get k d) as [v'|] eqn:E; simpl.
  - split; [exact Hd | exact (get_values_Forall _ _ _ Hd E)].
  - split; [now apply values_set_Forall | exact Hv].
Qed.

Lemma keys_setdefault_NoDup k v (d : PyDict.dict V) :
  NoDup (PyDict.keys d) -> NoDup (PyDict.keys (fst (PyDict.setdefault k v d))).
Proof.
  intros H. unfold PyDict.setdefault. destruct (PyDict.get k d); simpl;
    [exact H | now apply keys_set_NoDup].
Qed.
End DictValues.

Lemma update_page_tidy g page bot chips info :
  NoDup (PyDict.keys (d_pages g)) ->
  Forall tidy_page (PyDict.values (d_pages g)) ->
  Forall (fun c => truthy c = true) chips ->
  let g' := update_page g page bot chips info in
  NoDup (PyDict.keys (d_pages g')) /\ Forall tidy_page (PyDict.values (d_pages g')).
Proof.
  intros Hk Hv Hc. unfold update_page.
  pose proof (keys_setdefault_NoDup page
    {| pg_prompts := []; pg_chips := []; pg_metadata := [] |} (d_pages g) Hk) as Hk'.
  destruct (setdefault_Forall tidy_page page
    {| pg_prompts := []; pg_chips := []; pg_metadata := [] |} (d_pages g) Hv)
    as [Hv' Hpg].
  { split; apply tidy_nil. }
  destruct (PyDict.setdefault page _ (d_pages g)) as [pages pg].
  cbn [fst snd] in *. cbn [set_pages d_pages].
  split; [now apply keys_set_NoDup|].
  apply values_set_Forall; [exact Hv'|].
  destruct Hpg as [Hp1 Hp2]. split; cbn [pg_prompts pg_chips].
  - destruct bot as [b|]; [|exact Hp1].
    destruct (truthy b) eqn:Eb; [|exact Hp1]. now apply tidy_append_new.
  - now apply tidy_append_all.
Qed.

Lemma add_phrases_keys name phrases its k :
  In k (PyDict.keys (add_phrases name phrases its))
  <-> k = name \/ In k (PyDict.keys its).
Proof.
  unfold add_phrases.
  pose proof (keys_setdefault name [] its k) as H.
  destruct (PyDict.setdefault name [] its) as [its' tp]. cbn [fst] in H.
  rewrite keys_set, H. tauto.
Qed.

Lemma add_phrases_tidy name phrases its :
  intents_tidy its -> Forall (fun x => truthy x = true) phrases ->
  intents_tidy (add_phrases name phrases its).
Proof.
  intros [Hk Hv] Hp. unfold add_phrases.
  pose proof (keys_setdefault_NoDup name [] its Hk) as Hk'.
  destruct (setdefault_Forall tidy name [] its Hv tidy_nil) as [Hv' Htp].
  destruct (PyDict.setdefault name [] its) as [its' tp]. cbn [fst snd] in *.
  split; [now apply keys_set_NoDup|].
  apply values_set_Forall; [exact Hv'|]. now apply tidy_append_all.
Qed.

Lemma example_phrase_truthy ue :
  Forall (fun x => truthy x = true) (example_phrase ue).
Proof.
  unfold example_phrase. destruct ue as [e|]; [|constructor].
  destruct (truthy e) eqn:E; repeat constructor. exact E.
Qed.

(** ** The routes of a row *)

(** A route that names an intent of the table [its] and goes to one of the
    targets [nps]. *)
Definition route_sound (its : PyDict.dict (list string))
  (nps : list (option string)) (r : route) : Prop :=
  In (r_intent r) (PyDict.keys its)
  /\ r_next_page r <> None /\ In (r_next_page r) nps.

Lemma nth_Some_In {A} (l : list (option A)) j x :
  nth j l None = Some x -> In (Some x) l.
Proof.
  intros H. destruct (Nat.lt_ge_cases j (length l)) as [Hlt|Hge].
  - rewrite <- H. now apply nth_In.
  - rewrite nth_overflow in H by exact Hge. discriminate.
Qed.

Lemma route_sound_mono its its' nps r :
  (forall k, In k (PyDict.keys its) -> In k (PyDict.keys its')) ->
  route_sound its nps r -> route_sound its' nps r.
Proof. intros Hm (H1 & H2 & H3). split; [now apply Hm | now split]. Qed.

Lemma chip_step_sound page inr ue nps tag ps st0 ic :
  truthy (snd ic) = true -> intents_tidy (cl_intents st0) ->
  let res := chip_step page inr ue nps tag ps st0 ic in
  intents_tidy (cl_intents res)
  /\ (forall k, In k (PyDict.keys (cl_intents st0)) ->
                In k (PyDict.keys (cl_intents res)))
  /\ exists new,
       cl_routes res = cl_routes st0 ++ new
       /\ Forall (route_sound (cl_intents res) nps) new
       /\ length new <= 1.
Proof.
  destruct ic as [i chip]. cbn [snd]. intros Hc Ht. unfold chip_step.
  set (name := _ +:+ " :: " +:+ chip).
  set (its := add_phrases name (chip :: example_phrase ue) (cl_intents st0)).
  assert (Hits : intents_tidy its).
  { apply add_phrases_tidy; [exact Ht|].
    constructor; [exact Hc | apply example_phrase_truthy]. }
  assert (Hmono : forall k, In k (PyDict.keys (cl_intents st0)) ->
                            In k (PyDict.keys its)).
  { intros k Hk. apply add_phrases_keys. now right. }
  destruct (if i <? length nps then nth i nps None else nth 0 nps None)
    as [np|] eqn:En; cbv zeta; cbn [cl_intents cl_routes].
  - split; [exact Hits|]. split; [exact Hmono|].
    eexists [_]. split; [reflexivity|]. split; [|simpl; lia].
    constructor; [|constructor]. split; [|split]; cbn [r_intent r_next_page].
    + apply add_phrases_keys. now left.
    + discriminate.
    + destruct (i <? length nps); eapply nth_Some_In; exact En.
  - split; [exact Hits|]. split; [exact Hmono|].
    exists []. rewrite app_nil_r. split; [reflexivity|].
    split; [constructor | simpl; lia].
Qed.

Lemma chip_loop_sound page inr ue nps tag ps ics : forall st0,
  Forall (fun ic => truthy (snd ic) = true) ics ->
  intents_tidy (cl_intents st0) ->
  let res := fold_left (chip_step page inr ue nps tag ps) ics st0 in
  intents_tidy (cl_intents res)
  /\ (forall k, In k (PyDict.keys (cl_intents st0)) ->
                In k (PyDict.keys (cl_intents res)))
  /\ exists new,
       cl_routes res = cl_routes st0 ++ new
       /\ Forall (route_sound (cl_intents res) nps) new
       /\ length new <= length ics.
Proof.
  induction ics as [|ic ics IH]; intros st0 Hics Ht; simpl.
  - split; [exact Ht|]. split; [auto|]. exists []. rewrite app_nil_r.
    split; [reflexivity|]. split; [constructor | simpl; lia].
  - inversion Hics as [|? ? Hic Hrest]; subst.
    destruct (chip_step_sound page inr ue nps tag ps st0 ic Hic Ht)
      as (Ht1 & Hm1 & new1 & Hr1 & Hf1 & Hl1).
    destruct (IH (chip_step page inr ue nps tag ps st0 ic) Hrest Ht1)
      as (Ht2 & Hm2 & new2 & Hr2 & Hf2 & Hl2).
    split; [exact Ht2|]. split; [auto|].
    exists (new1 ++ new2). rewrite Hr2, Hr1, <- app_assoc.
    split; [reflexivity|]. split.
    + apply Forall_app. split; [|exact Hf2].
      eapply List.Forall_impl; [|exact Hf1]. intros r.
      now apply route_sound_mono.
    + rewrite length_app. lia.
Qed.

Lemma enumerate_truthy (l : list string) : forall i,
  Forall (fun c => truthy c = true) l ->
  Forall (fun ic : nat * string => truthy (snd ic) = true) (enumerate_from i l).
Proof.
  induction l as [|x l IH]; intros i H; simpl; [constructor|].
  inversion H; subst. constructor; [assumption | now apply IH].
Qed.

Lemma length_enumerate {A} (l : list A) : forall i,
  length (enumerate_from i l) = length l.
Proof. induction l as [|x l IH]; intros i; simpl; [|rewrite IH]; reflexivity. Qed.

Lemma emit_routes_sound intents routes pwr i page inr ue nps tag ps chips :
  Forall (fun c => truthy c = true) chips -> intents_tidy intents ->
  let res := emit_routes intents routes pwr i page inr ue nps tag ps chips in
  intents_tidy (cl_intents res)
  /\ (forall k, In k (PyDict.keys intents) -> In k (PyDict.keys (cl_intents res)))
  /\ exists new,
       cl_routes res = routes ++ new
       /\ Forall (route_sound (cl_intents res) nps) new
       /\ length new <= Nat.max 1 (length chips).
Proof.
  intros Hc Ht. unfold emit_routes. destruct chips as [|c chips].
  - set (name := or_else inr _).
    set (its := add_phrases name (example_phrase ue) intents).
    assert (Hits : intents_tidy its).
    { apply add_phrases_tidy; [exact Ht | apply example_phrase_truthy]. }
    assert (Hmono : forall k, In k (PyDict.keys intents) -> In k (PyDict.keys its)).
    { intros k Hk. apply add_phrases_keys. now right. }
    destruct (nth 0 nps None) as [np|] eqn:En; cbv zeta; cbn [cl_intents cl_routes].
    + split; [exact Hits|]. split; [exact Hmono|].
      eexists [_]. split; [reflexivity|]. split; [|simpl; lia].
      constructor; [|constructor]. split; [|split]; cbn [r_intent r_next_page].
      * apply add_phrases_keys. now left.
      * discriminate.
      * eapply nth_Some_In; exact En.
    + split; [exact Hits|]. split; [exact Hmono|].
      exists []. rewrite app_nil_r. split; [reflexivity|].
      split; [constructor | simpl; lia].
  - destruct (chip_loop_sound page inr ue nps tag ps
                (enumerate_from 0 (c :: chips))
                {| cl_intents := intents; cl_routes := routes;
                   cl_pages_with_routes := pwr; cl_has_valid_route := false |}
                (enumerate_truthy _ 0 Hc) Ht)
      as (H1 & H2 & new & H3 & H4 & H5).
    split; [exact H1|]. split; [exact H2|]. exists new.
    split; [exact H3|]. split; [exact H4|].
    rewrite length_enumerate in H5. lia.
Qed.

(** ** The targets that [parse_next_pages] gives *)

(** A target that is present is a non-empty text and none of the sentinel
    tokens of the next-page parser. *)
Definition target_ok (o : option string) : Prop :=
  match o with
  | Some t => truthy t = true /\ ~ In t next_page_empty
  | None => True
  end.

Lemma list_mul_Forall {A} (P : A -> Prop) x n :
  P x -> Forall P (list_mul [x] n).
Proof. intros H. induction n as [|n IH]; simpl; constructor; assumption. Qed.

Lemma clean_targets_ok targets : forall cleaned,
  Forall target_ok cleaned ->
  Forall target_ok (fold_left clean_target_step targets cleaned).
Proof.
  induction targets as [|t targets IH]; intros cleaned H; simpl; [exact H|].
  apply IH. unfold clean_target_step.
  destruct (truthy t && negb (str_in t next_page_empty)) eqn:E;
    apply Forall_app; (split; [exact H|]); repeat constructor.
  - now apply andb_true_iff in E as [E _].
  - apply andb_true_iff in E as [_ E]. apply negb_true_iff in E.
    now apply str_in_not_In.
Qed.

Lemma last_Forall {A} (P : A -> Prop) (l : list A) d :
  Forall P l -> P d -> P (List.last l d).
Proof.
  intros H Hd. induction H as [|x l Hx Hl IH]; [exact Hd|].
  destruct l; [exact Hx | exact IH].
Qed.

Lemma pad_targets_ok fuel : forall cleaned n,
  Forall target_ok cleaned -> Forall target_ok (pad_targets fuel cleaned n).
Proof.
  induction fuel as [|fuel IH]; intros cleaned n H; simpl; [exact H|].
  destruct (length cleaned <? n); [|exact H].
  apply IH, Forall_app. split; [exact H|]. repeat constructor.
  now apply last_Forall.
Qed.

Lemma Forall_firstn {A} (P : A -> Prop) n (l : list A) :
  Forall P l -> Forall P (firstn n l).
Proof.
  intros H. revert n. induction H as [|x l Hx Hl IH]; intros [|n]; simpl;
    constructor; auto.
Qed.

Lemma parse_next_pages_ok cell n :
  Forall target_ok (fst (parse_next_pages cell n)).
Proof.
  unfold parse_next_pages. destruct cell as [c|];
    [|now apply list_mul_Forall].
  cbv zeta.
  destruct (negb (truthy (strip c)) || str_in (strip c) next_page_empty) eqn:E;
    [now apply list_mul_Forall|].
  apply orb_false_iff in E as [E1 E2]. apply negb_false_iff in E1.
  apply str_in_not_In in E2.
  assert (Hc : forall targets,
    Forall target_ok
      (fst (let cleaned_targets := fold_left clean_target_step targets [] in
            if length cleaned_targets =? 1
            then (list_mul cleaned_targets n, [])
            else if length cleaned_targets =? n
                 then (cleaned_targets, [])
                 else (firstn n (pad_targets n cleaned_targets n),
                       [NextPageCountMismatch (length cleaned_targets) n])))).
  { intros targets. cbv zeta.
    pose proof (clean_targets_ok targets [] (Forall_nil_2 _)) as Hcl.
    destruct (length (fold_left clean_target_step targets []) =? 1) eqn:E1'.
    - apply Nat.eqb_eq in E1'.
      destruct (fold_left clean_target_step targets []) as [|x [|y l]];
        try discriminate.
      cbn [fst]. apply list_mul_Forall. now inversion Hcl.
    - destruct (length (fold_left clean_target_step targets []) =? n);
        cbn [fst]; [exact Hcl|].
      now apply Forall_firstn, pad_targets_ok. }
  destruct (contains newline (strip c)); [apply Hc|].
  destruct (contains "/"%char (strip c) && negb (startswith "http" (strip c)));
    [apply Hc|].
  cbn [fst]. apply list_mul_Forall. split; assumption.
Qed.

(** ** The tables after each row *)

Definition row_chips (row : gmap string cell) : list string :=
  parse_chips (row_get row "Suggested Chips").

Definition row_targets (row : gmap string cell) : list (option string) :=
  fst (parse_next_pages (sanitize (row_get row "Next Page / Transition"))
         (match row_chips row with [] => 1 | _ => length (row_chips row) end)).

Definition not_start_alias (p : string) : bool :=
  negb (str_in (lower p) start_aliases).

(** The page names of the rows that have one, in the order of the sheet. *)
Definition row_pages (seen : list (gmap string cell)) : list string :=
  omap row_page seen.

Lemma parse_chips_truthy c : Forall (fun q => truthy q = true) (parse_chips c).
Proof.
  unfold parse_chips. destruct (is_none c); [constructor|]. cbv zeta.
  destruct (negb (truthy (strip (str c))) || str_in (strip (str c)) chip_empty_cell);
    [constructor|].
  rewrite parse_chips_loop. simpl app.
  rewrite (dedup_loop _ ∅ [] []).
  - simpl app. apply List.Forall_forall. intros q Hq.
    apply first_occurrences_from_In in Hq as [Hq _].
    apply filter_In in Hq as [_ Hq]. unfold chip_kept in Hq.
    now apply andb_true_iff in Hq as [Hq _].
  - intros x. rewrite elem_of_empty. simpl. tauto.
Qed.

Lemma process_row_tables hs hns st i row page :
  row_page row = Some page ->
  exists g1 info pwr inr ue ps,
    d_pages g1 = d_pages (data st)
    /\ d_pages (data (process_row hs hns st (i, row)))
       = d_pages (update_page g1 page (row_prompt row) (row_chips row) info)
    /\ d_intents (data (process_row hs hns st (i, row)))
       = cl_intents (emit_routes (d_intents (data st)) (d_routes (data st)) pwr i
                       page inr ue (row_targets row) (row_tag row) ps
                       (row_chips row))
    /\ d_routes (data (process_row hs hns st (i, row)))
       = cl_routes (emit_routes (d_intents (data st)) (d_routes (data st)) pwr i
                      page inr ue (row_targets row) (row_tag row) ps
                      (row_chips row)).
Proof.
  intros Hp. unfold row_page in Hp.
  unfold process_row, row_targets, row_chips, row_prompt, row_tag. rewrite Hp.
  rewrite (sanitize_truthy _ _ Hp). cbv zeta.
  change (negb true) with false. cbv iota.
  set (raw := sanitize (row_get row "Webhook Action")).
  set (bot := sanitize (row_get row "Bot Prompt")).
  set (chips := parse_chips (row_get row "Suggested Chips")).
  set (g1 := note_webhook (data st) raw (row_webhook_tag raw)).
  set (g2 := update_page g1 page bot chips (row_step_info hs hns row)).
  set (g3 := note_first_page g2 page).
  destruct (note_webhook_frame (data st) raw (row_webhook_tag raw))
    as (W1 & W2 & W3 & _). fold g1 in W1, W2, W3.
  destruct (update_page_frame g1 page bot chips (row_step_info hs hns row))
    as (U1 & U2 & _). fold g2 in U1, U2.
  destruct (note_first_page_frame g2 page) as (F1 & F2 & F3 & _).
  fold g3 in F1, F2, F3.
  match goal with
  | |- context [mark_end_state ?a ?b ?c ?d] =>
      destruct (mark_end_state_frame a b c d) as (M1 & M2 & M3 & _);
      set (g5 := mark_end_state a b c d) in *
  end.
  cbn [data]. cbn [set_routes set_intents d_pages d_intents d_routes] in M1, M2, M3.
  exists g1, (row_step_info hs hns row).
  rewrite M1, M2, M3, F1, F2, F3, U1, U2, W2, W3.
  do 4 eexists. split; [exact W1|]. split; [reflexivity|].
  split; reflexivity.
Qed.

Lemma note_webhook_table g rawopt :
  let g' := note_webhook g rawopt (row_webhook_tag rawopt) in
  (NoDup (PyDict.keys (d_webhooks g)) -> NoDup (PyDict.keys (d_webhooks g')))
  /\ (forall k, In k (PyDict.keys (d_webhooks g)) ->
                In k (PyDict.keys (d_webhooks g')))
  /\ (forall tag, row_webhook_tag rawopt = Some tag -> truthy tag = true ->
                  In tag (PyDict.keys (d_webhooks g')))
  /\ (forall tag raw, PyDict.get tag (d_webhooks g') = Some raw ->
        PyDict.get tag (d_webhooks g) = Some raw
        \/ (truthy tag = true /\ generate_webhook_tag (Some raw) = Some tag)).
Proof.
  unfold note_webhook. destruct rawopt as [raw|].
  2:{ cbn. split_conj; auto. intros tag [=]. }
  destruct (row_webhook_tag (Some raw)) as [tag|] eqn:Et.
  2:{ split_conj; auto. intros tag [=]. }
  destruct (truthy raw && truthy tag) eqn:E.
  - apply andb_true_iff in E as [E1 E2]. cbn [set_webhooks d_webhooks].
    split_conj.
    + apply keys_set_NoDup.
    + intros k Hk. apply keys_set. now right.
    + intros tag' [= <-] _. apply keys_set. now left.
    + intros tag' raw' H. destruct (String.eqb_spec tag' tag) as [->|Hne].
      * rewrite get_set_same in H. injection H as <-. right.
        split; [exact E2|]. now rewrite <- row_webhook_tag_eq.
      * rewrite get_set_other in H by exact Hne. now left.
  - split_conj; auto. intros tag' [= <-] Ht.
    unfold row_webhook_tag in Et. cbn [truthy_opt] in Et.
    destruct (truthy raw); [|discriminate]. rewrite Ht in E. discriminate.
Qed.

Lemma first_page_step (first : option string) (l : list string) page :
  Forall (fun p => truthy p = true) l ->
  first = head (List.filter not_start_alias l) ->
  (if negb (truthy_opt first) && negb (str_in (lower page) start_aliases)
   then Some page else first)
  = head (List.filter not_start_alias (l ++ [page])).
Proof.
  intros Hl ->. rewrite List.filter_app. cbn [List.filter].
  fold (not_start_alias page).
  destruct (List.filter not_start_alias l) as [|x xs] eqn:E; cbn [head app].
  - cbn [truthy_opt negb andb]. now destruct (not_start_alias page).
  - assert (Hx : truthy x = true).
    { rewrite List.Forall_forall in Hl. apply Hl.
      assert (Hin : In x (List.filter not_start_alias l)) by (rewrite E; now left).
      now apply filter_In in Hin as [Hin _]. }
    cbn [truthy_opt]. now rewrite Hx.
Qed.

Lemma row_pages_snoc seen row :
  row_pages (seen ++ [row])
  = row_pages seen ++ match row_page row with Some p => [p] | None => [] end.
Proof.
  unfold row_pages. rewrite omap_app. cbn [omap list_omap].
  now destruct (row_page row).
Qed.

Lemma row_pages_truthy seen : Forall (fun p => truthy p = true) (row_pages seen).
Proof.
  induction seen as [|row seen IH]; [constructor|].
  unfold row_pages in *. cbn [omap list_omap].
  destruct (row_page row) as [p|] eqn:E; [|exact IH].
  constructor; [|exact IH]. exact (sanitize_truthy _ _ E).
Qed.

Lemma prompts_after_nonempty old bot :
  old <> [] \/ truthy_opt bot = true -> prompts_after old bot <> [].
Proof.
  unfold prompts_after. destruct bot as [b|]; cbn [truthy_opt].
  - destruct (truthy b); [intros _; apply append_new_nonempty|].
    intros [H|H]; [exact H | discriminate].
  - intros [H|H]; [exact H | discriminate].
Qed.

(** The invariant of the loop over the rows, for the tables of the graph;
    [seen] are the rows processed so far. *)
Record well_formed (seen : list (gmap string cell)) (st : cstate) : Prop := {
  wf_pages_keys : NoDup (PyDict.keys (d_pages (data st)));
  wf_pages : Forall tidy_page (PyDict.values (d_pages (data st)));
  wf_intents : intents_tidy (d_intents (data st));
  wf_webhook_keys : NoDup (PyDict.keys (d_webhooks (data st)));
  wf_webhooks :
    forall tag raw, PyDict.get tag (d_webhooks (data st)) = Some raw ->
      truthy tag = true /\ generate_webhook_tag (Some raw) = Some tag;
  wf_routes :
    forall r, In r (d_routes (data st)) ->
      In (r_intent r) (PyDict.keys (d_intents (data st)))
      /\ r_next_page r <> None /\ target_ok (r_next_page r)
      /\ (truthy_opt (r_webhook_action r) = true ->
          exists tag, r_webhook_action r = Some tag
                      /\ In tag (PyDict.keys (d_webhooks (data st))));
  wf_end_nodup : NoDup (d_end_pages (data st));
  wf_end :
    forall q, In q (d_end_pages (data st)) ->
      q ∈ all_pages st /\ prompts_of (data st) q <> [];
  wf_first :
    d_first_page (data st) = head (List.filter not_start_alias (row_pages seen))
}.

Lemma well_formed_initial path df :
  well_formed [] {| data := initial_data path df;
                    pages_with_routes := ∅; all_pages := ∅ |}.
Proof.
  constructor; simpl; try constructor; try constructor; try contradiction;
    try discriminate.
Qed.

Lemma well_formed_step hs hns seen st i row :
  well_formed seen st ->
  well_formed (seen ++ [row]) (process_row hs hns st (i, row)).
Proof.
  intros [Hpk Hpv Hit Hwk Hwh Hrt Hen Hend Hfirst].
  destruct (row_page row) as [page|] eqn:Ep.
  2:{ rewrite (process_row_skip _ _ _ _ _ Ep). constructor; try assumption.
      rewrite row_pages_snoc, Ep, app_nil_r. exact Hfirst. }
  destruct (process_row_spec hs hns st i row page Ep)
    as (new0 & Hr0 & Hf0 & _ & Ha & _ & Ho & Hpp & He & Hfp & Hw).
  destruct (process_row_tables hs hns st i row page Ep)
    as (g1 & info & pwr & inr & ue & ps & Hg1 & Hpg & Hin & Hro).
  set (st' := process_row hs hns st (i, row)) in *.
  destruct (update_page_tidy g1 page (row_prompt row) (row_chips row) info)
    as [Hpk' Hpv']; [now rewrite Hg1 | now rewrite Hg1 | apply parse_chips_truthy |].
  destruct (emit_routes_sound (d_intents (data st)) (d_routes (data st)) pwr i
              page inr ue (row_targets row) (row_tag row) ps (row_chips row)
              (parse_chips_truthy _) Hit)
    as (Hit' & Hmono & new & Hnew & Hsound & _).
  rewrite <- Hin in Hit', Hmono, Hsound. rewrite <- Hro in Hnew.
  assert (new0 = new) as ->.
  { rewrite Hr0 in Hnew. now apply app_inv_head in Hnew. }
  destruct (note_webhook_table (data st) (sanitize (row_get row "Webhook Action")))
    as (N1 & N2 & N3 & N4).
  fold (row_tag row) in N1, N2, N3, N4. rewrite <- Hw in N1, N2, N3, N4.
  constructor.
  - now rewrite Hpg.
  - now rewrite Hpg.
  - exact Hit'.
  - now apply N1.
  - intros tag raw H. destruct (N4 tag raw H) as [H'|H']; [now apply Hwh | exact H'].
  - intros r. rewrite Hr0, in_app_iff. intros [Hr|Hr].
    + destruct (Hrt r Hr) as (R1 & R2 & R3 & R4).
      split; [now apply Hmono|]. split; [exact R2|]. split; [exact R3|].
      intros Ht. destruct (R4 Ht) as (tag & E & Hk). exists tag.
      split; [exact E | now apply N2].
    + rewrite List.Forall_forall in Hsound, Hf0.
      destruct (Hsound r Hr) as (S1 & S2 & S3).
      destruct (Hf0 r Hr) as (_ & T2 & _).
      split; [exact S1|]. split; [exact S2|]. split.
      * pose proof (parse_next_pages_ok
          (sanitize (row_get row "Next Page / Transition"))
          (match row_chips row with [] => 1 | _ => length (row_chips row) end))
          as Hok.
        rewrite List.Forall_forall in Hok. now apply Hok.
      * rewrite T2. intros Ht. destruct (row_tag row) as [tag|] eqn:Etag;
          [|discriminate]. exists tag. split; [reflexivity|].
        apply N3; [reflexivity | exact Ht].
  - rewrite He. destruct (_ && _); [now apply append_new_NoDup | exact Hen].
  - intros q. rewrite He, Ha.
    assert (Hold : In q (d_end_pages (data st)) ->
      (q = page \/ q ∈ all_pages st) /\ prompts_of (data st') q <> []).
    { intros Hq. destruct (Hend q Hq) as [H1 H2]. split; [now right|].
      destruct (String.eqb_spec q page) as [->|Hne].
      - rewrite Hpp. apply prompts_after_nonempty. now left.
      - now rewrite (Ho q Hne). }
    destruct (is_nil new && truthy_opt (row_prompt row)) eqn:Ec; [|exact Hold].
    intros Hq. apply append_new_In in Hq as [->|Hq]; [|now apply Hold].
    split; [now left|]. rewrite Hpp. apply prompts_after_nonempty. right.
    now apply andb_true_iff in Ec as [_ Ec].
  - rewrite Hfp, row_pages_snoc, Ep.
    apply first_page_step; [apply row_pages_truthy | exact Hfirst].
Qed.

Lemma well_formed_rows hs hns irs : forall seen st,
  well_formed seen st ->
  well_formed (seen ++ map snd irs) (fold_left (process_row hs hns) irs st).
Proof.
  induction irs as [|[i row] irs IH]; intros seen st H; simpl.
  - now rewrite app_nil_r.
  - replace (seen ++ row :: map snd irs) with ((seen ++ [row]) ++ map snd irs)
      by now rewrite <- app_assoc.
    apply IH, well_formed_step, H.
Qed.

Lemma after_rows_well_formed path df : well_formed (rows df) (after_rows path df).
Proof.
  unfold after_rows.
  rewrite <- (map_snd_enumerate (rows df) 0) at 1.
  apply (well_formed_rows _ _ _ []), well_formed_initial.
Qed.

Lemma infer_end_NoDup ref pwr fp l : forall ends,
  NoDup ends -> NoDup (fold_left (infer_end_step ref pwr fp) l ends).
Proof.
  induction l as [|p l IH]; intros ends H; simpl; [exact H|].
  apply IH. unfold infer_end_step.
  destruct (_ && _); [now apply append_new_NoDup | exact H].
Qed.

Lemma convert_intents path df :
  d_intents (convert_single_csv path df) = d_intents (data (after_rows path df)).
Proof. reflexivity. Qed.

Lemma convert_end_pages_NoDup path df :
  NoDup (d_end_pages (convert_single_csv path df)).
Proof.
  unfold convert_single_csv. fold (after_rows path df). cbn [set_end_pages d_end_pages].
  apply infer_end_NoDup. apply (after_rows_well_formed path df).
Qed.

(** ** The compiled graph *)

(** X4: in every graph that [convert_single_csv] produces, the pages, the
    intents and the webhooks tables have each key once; the prompts and the
    chips of every page and the training phrases of every intent hold no
    entry twice and no empty text; and no page is listed twice in
    [end_pages]. *)
Theorem convert_tables_tidy (csv_path : string) (df : dataframe) :
  let g := convert_single_csv csv_path df in
  NoDup (PyDict.keys (d_pages g))
  /\ NoDup (PyDict.keys (d_intents g))
  /\ NoDup (PyDict.keys (d_webhooks g))
  /\ Forall tidy_page (PyDict.values (d_pages g))
  /\ Forall tidy (PyDict.values (d_intents g))
  /\ NoDup (d_end_pages g).
Proof.
  cbv zeta.
  destruct (convert_projections csv_path df) as (Ep & _ & _ & Ew & _).
  destruct (after_rows_well_formed csv_path df)
    as [Hpk Hpv [Hik Hiv] Hwk _ _ _ _ _].
  rewrite Ep, Ew, convert_intents. split_conj; try assumption.
  apply convert_end_pages_NoDup.
Qed.


(** X6: only pages of the table are listed in [end_pages], and a listed page
    has prompt content, or else no route leaves it, no route goes to it and
    it is not the first page. *)
Theorem end_pages_only_if (csv_path : string) (df : dataframe) (q : string) :
  In q (d_end_pages (convert_single_csv csv_path df)) ->
  In q (PyDict.keys (d_pages (convert_single_csv csv_path df)))
  /\ (prompts_of (convert_single_csv csv_path df) q <> []
      \/ ((forall r, In r (d_routes (convert_single_csv csv_path df)) ->
                     r_page r <> q /\ r_next_page r <> Some q)
          /\ d_first_page (convert_single_csv csv_path df) <> Some q)).
Proof.
  destruct (convert_projections csv_path df) as (Ep & Er & Ef & _ & Ee).
  destruct (after_rows_well_formed csv_path df) as [_ _ _ _ _ _ _ Hend _].
  destruct (after_rows_compiled csv_path df) as [I1 I2 _ _ _].
  unfold prompts_of. rewrite Ep, Er, Ef, Ee.
  intros [Hq|(Hall & Href & Hfirst & Hpwr)].
  - destruct (Hend q Hq) as [H1 H2]. split; [now apply I2 | now left].
  - split; [now apply I2|]. right. split; [|exact Hfirst].
    intros r Hr. split; [|now apply Href].
    intros E. apply Hpwr, I1. now exists r.
Qed.

Lemma end_pages_only_if_witness :
  In "Goodbye" (PyDict.keys (d_pages (convert_single_csv "flow.csv" two_entries_sheet))).
Proof.
  apply (end_pages_only_if "flow.csv" two_entries_sheet "Goodbye").
  vm_compute. tauto.
Defined.

(** X7: every route of the graph names an intent of the intents table and
    has a target, which is a non-empty text and none of the sentinel tokens
    of the next-page parser; a non-empty webhook tag on a route is a key of
    the webhooks table. *)
Theorem convert_routes_resolvable (csv_path : string) (df : dataframe) (r : route) :
  In r (d_routes (convert_single_csv csv_path df)) ->
  In (r_intent r) (PyDict.keys (d_intents (convert_single_csv csv_path df)))
  /\ (exists t, r_next_page r = Some t /\ t <> "" /\ ~ In t next_page_empty)
  /\ (forall tag, r_webhook_action r = Some tag -> tag <> "" ->
        In tag (PyDict.keys (d_webhooks (convert_single_csv csv_path df)))).
Proof.
  destruct (convert_projections csv_path df) as (_ & Er & _ & Ew & _).
  destruct (after_rows_well_formed csv_path df) as [_ _ _ _ _ Hrt _ _ _].
  rewrite Er, Ew, convert_intents. intros Hr.
  destruct (Hrt r Hr) as (R1 & R2 & R3 & R4).
  split; [exact R1|]. split.
  - destruct (r_next_page r) as [t|]; [|contradiction].
    destruct R3 as [R3 R3']. exists t. split; [reflexivity|].
    split; [now apply truthy_true | exact R3'].
  - intros tag E Ht. rewrite E in R4. cbn [truthy_opt] in R4.
    destruct R4 as (tag' & [= <-] & Hk); [now apply truthy_true | exact Hk].
Qed.

Lemma convert_routes_resolvable_witness :
  exists r, In (r_intent r)
    (PyDict.keys (d_intents (convert_single_csv "flow.csv" dangling_sheet))).
Proof.
  eexists.
  apply (convert_routes_resolvable "flow.csv" dangling_sheet).
  vm_compute. left. reflexivity.
Defined.

(** X8: every entry of the webhooks table pairs an action text with the tag
    that [generate_webhook_tag] gives for it, and the tag is a non-empty
    identifier; the uploader's test for setting up the dispatcher webhook
    (a route with a webhook tag, or a non-empty webhooks table) comes down to
    the table being non-empty. *)
Theorem convert_webhooks_table (csv_path : string) (df : dataframe) :
  let g := convert_single_csv csv_path df in
  (forall tag raw, PyDict.get tag (d_webhooks g) = Some raw ->
     tag <> "" /\ identifier tag /\ generate_webhook_tag (Some raw) = Some tag)
  /\ dispatcher_needed g = negb (PyDict.is_empty_list (d_webhooks g)).
Proof.
  cbv zeta. unfold dispatcher_needed.
  destruct (convert_projections csv_path df) as (_ & Er & _ & Ew & _).
  destruct (after_rows_well_formed csv_path df) as [_ _ _ _ Hwh Hrt _ _ _].
  rewrite Er, Ew. split.
  - intros tag raw H. destruct (Hwh tag raw H) as [H1 H2].
    split; [now apply truthy_true|]. split; [|exact H2].
    pose proof (generate_webhook_tag_identifier (Some raw)) as Hi.
    now rewrite H2 in Hi.
  - destruct (existsb _ _) eqn:E; [|reflexivity].
    apply existsb_exists in E as (r & Hr & Ht).
    destruct (Hrt r Hr) as (_ & _ & _ & R4).
    destruct (R4 Ht) as (tag & _ & Hk).
    destruct (d_webhooks (data (after_rows csv_path df))); [contradiction|].
    reflexivity.
Qed.

(** ** Trigger cells *)

Lemma split1_before c s : forall a b,
  split1 c s = Some (a, b) -> contains c a = false.
Proof.
  induction s as [|d s IH]; intros a b; cbn [split1]; [discriminate|].
  destruct (Ascii.eqb c d) eqn:E.
  - now intros [= <- <-].
  - destruct (split1 c s) as [[a' b']|]; [|discriminate].
    intros [= <- <-]. cbn [contains]. rewrite E. now apply (IH a' b').
Qed.

(** X9: [parse_trigger_and_example] gives a trigger type and an example
    together or neither, and neither exactly for an absent or empty cell;
    the trigger type is trimmed and holds no colon; a cell without a colon
    has the type Intent and, as its example, the cell without its wrapping
    quotes. *)
Theorem parse_trigger_shape (trigger_raw : option string) :
  match parse_trigger_and_example trigger_raw with
  | (Some ty, Some e) =>
      truthy_opt trigger_raw = true
      /\ contains ":"%char ty = false /\ strip ty = ty
      /\ (forall t, trigger_raw = Some t -> contains ":"%char t = false ->
            ty = "Intent" /\ e = strip_wrapping_quotes t)
  | (None, None) => truthy_opt trigger_raw = false
  | _ => False
  end.
Proof.
  unfold parse_trigger_and_example. destruct trigger_raw as [t|]; [|reflexivity].
  cbn [truthy_opt]. destruct (truthy t) eqn:Et; cbn [negb]; cbv iota;
    [|reflexivity].
  destruct (contains ":"%char t) eqn:Ec.
  - destruct (split1 ":"%char t) as [[a b]|] eqn:Es.
    + cbv zeta. split; [reflexivity|]. split; [|split].
      * unfold strip, strip_by. apply contains_lstrip, contains_rstrip.
        exact (split1_before _ _ _ _ Es).
      * apply strip_idem.
      * intros t0 [= <-] H. congruence.
    + split; [reflexivity|]. split; [reflexivity|]. split; [reflexivity|].
      intros t0 [= <-] _. split; reflexivity.
  - split; [reflexivity|]. split; [reflexivity|]. split; [reflexivity|].
    intros t0 [= <-] _. split; reflexivity.
Qed.

Example parse_trigger_example :
  parse_trigger_and_example
    (Some ("Choice : User says " +:+ dq +:+ "Book a room" +:+ dq))
  = (Some "Choice", Some "Book a room").
Proof. vm_compute. reflexivity. Qed.

(** * Further properties of the uploader *)

(** ** Grouping the routes by page *)

(** The routes with a target that leave page [p], in the order of the
    graph. *)
Definition routes_from (p : string) (routes : list route) : list route :=
  List.filter (fun r => truthy_opt (r_next_page r) && String.eqb (r_page r) p)
    routes.

Lemma group_step_get acc r p :
  PyDict.get p (group_step acc r) =
    if truthy_opt (r_next_page r) && String.eqb (r_page r) p
    then Some (default [] (PyDict.get p acc) ++ [r])
    else PyDict.get p acc.
Proof.
  unfold group_step. destruct (truthy_opt (r_next_page r)); cbn [negb andb];
    [|reflexivity].
  unfold PyDict.setdefault.
  destruct (String.eqb_spec (r_page r) p) as [<-|Hne].
  - destruct (PyDict.get (r_page r) acc) as [l|] eqn:E; cbn [from_option id];
      now rewrite get_set_same.
  - destruct (PyDict.get (r_page r) acc) as [l|] eqn:E;
      rewrite ?get_set_other by congruence; reflexivity.
Qed.

Lemma group_step_keys acc r :
  NoDup (PyDict.keys acc) -> NoDup (PyDict.keys (group_step acc r)).
Proof.
  intros H. unfold group_step. destruct (negb _); [exact H|].
  pose proof (keys_setdefault_NoDup (r_page r) [] acc H) as H'.
  destruct (PyDict.setdefault (r_page r) [] acc) as [d l]. cbn [fst] in H'.
  now apply keys_set_NoDup.
Qed.

Lemma group_loop routes p : forall acc,
  PyDict.get p (fold_left group_step routes acc) =
    match routes_from p routes with
    | [] => PyDict.get p acc
    | l => Some (default [] (PyDict.get p acc) ++ l)
    end.
Proof.
  induction routes as [|r routes IH]; intros acc; [reflexivity|].
  cbn [fold_left]. rewrite IH, group_step_get. unfold routes_from.
  cbn [List.filter].
  destruct (truthy_opt (r_next_page r) && String.eqb (r_page r) p);
    cbn [from_option id].
  - destruct (List.filter _ routes); [reflexivity|]. now rewrite <- app_assoc.
  - reflexivity.
Qed.

Lemma group_loop_keys routes : forall acc,
  NoDup (PyDict.keys acc) -> NoDup (PyDict.keys (fold_left group_step routes acc)).
Proof.
  induction routes as [|r routes IH]; intros acc H; [exact H|].
  cbn [fold_left]. now apply IH, group_step_keys.
Qed.

(** X10: the loop of [upload_single_flow] that groups the routes gives each
    page that has a route with a (non-empty) target one entry, which holds
    those routes of the page in the order of the graph; a page without such
    a route has no entry, and a route without a target is in no entry. *)
Theorem routes_grouped_by_page (routes : list route) :
  let groups := fold_left group_step routes [] in
  NoDup (PyDict.keys groups)
  /\ (forall p, PyDict.get p groups =
                match routes_from p routes with [] => None | l => Some l end)
  /\ (forall p, In p (PyDict.keys groups) <->
                exists r, In r routes /\ r_page r = p
                          /\ truthy_opt (r_next_page r) = true).
Proof.
  cbv zeta. split; [apply group_loop_keys; constructor|].
  assert (Hg : forall p, PyDict.get p (fold_left group_step routes []) =
                match routes_from p routes with [] => None | l => Some l end).
  { intros p. rewrite group_loop. now destruct (routes_from p routes). }
  split; [exact Hg|]. intros p. rewrite keys_get, Hg. split.
  - destruct (routes_from p routes) as [|r l] eqn:E; [congruence|]. intros _.
    assert (Hin : In r (routes_from p routes)) by (rewrite E; now left).
    apply filter_In in Hin as [Hin Hc]. apply andb_true_iff in Hc as [H1 H2].
    exists r. apply String.eqb_eq in H2. tauto.
  - intros (r & Hin & E & Ht).
    assert (Hr : In r (routes_from p routes)).
    { apply filter_In. split; [exact Hin|]. rewrite Ht, E. apply String.eqb_refl. }
    destruct (routes_from p routes); [contradiction | discriminate].
Qed.

(** ** The payload of a route *)

(** X11: when [upload_single_flow] builds a payload for a route, the route
    has a target whose page identifier is known and non-empty, and that
    identifier is the [targetPage] of the payload; a [triggerFulfillment] is
    never empty, never holds an empty list of parameter actions, and holds a
    webhook exactly when it holds a tag, which needs a dispatcher and a
    non-empty tag on the route. *)
Theorem route_payload_never_empty
  (intent_name_to_id page_name_to_id : gmap string string)
  (dispatcher_name : option string) (r : route) (payload : json) :
  route_payload intent_name_to_id page_name_to_id dispatcher_name r = Some payload ->
  (exists t ref,
      r_next_page r = Some t /\ t <> "" /\ page_name_to_id !! t = Some ref
      /\ ref <> "" /\ json_get "targetPage" payload = Some (JStr ref))
  /\ match json_get "triggerFulfillment" payload with
     | None => True
     | Some trig =>
         trig <> JObj []
         /\ json_get "setParameterActions" trig <> Some (JList [])
         /\ (json_get "webhook" trig <> None <-> json_get "tag" trig <> None)
         /\ (json_get "tag" trig <> None ->
             truthy_opt dispatcher_name = true
             /\ truthy_opt (r_webhook_action r) = true)
     end.
Proof.
  unfold route_payload. destruct (r_next_page r) as [t|]; [|discriminate].
  destruct (truthy t) eqn:Et; cbn [negb]; cbv iota; [|discriminate].
  destruct (page_name_to_id !! t) as [ref|] eqn:Er; [|discriminate].
  destruct (truthy ref) eqn:Eref; cbn [negb]; cbv iota; [|discriminate].
  cbv zeta. intros [= <-]. split.
  - exists t, ref. split; [reflexivity|]. split; [now apply truthy_true|].
    split; [exact Er|]. split; [now apply truthy_true | reflexivity].
  - destruct (truthy_opt (r_webhook_action r) && truthy_opt dispatcher_name) eqn:Ew.
    + apply andb_true_iff in Ew as [Ew1 Ew2].
      destruct (match r_parameters r with
                | Some params => negb (PyDict.is_empty_list params)
                                 && existsb truthy (PyDict.values params)
                | None => false
                end); cbn [orb];
        [destruct (param_actions (default [] (r_parameters r)))|];
        cbn; (split; [discriminate|]); (split; [discriminate|]);
        (split; [split; discriminate | auto]).
    + destruct (match r_parameters r with
                | Some params => negb (PyDict.is_empty_list params)
                                 && existsb truthy (PyDict.values params)
                | None => false
                end); cbn [orb]; [|exact I].
      destruct (param_actions (default [] (r_parameters r))); cbn; [exact I|].
      split; [discriminate|]. split; [discriminate|].
      split; [split; intros H; now contradiction H|].
      intros H. now contradiction H.
Qed.

Lemma route_payload_never_empty_witness :
  exists t ref,
    Some "Goodbye" = Some t /\ t <> ""
    /\ ({["Goodbye" := "pages/2"]} : gmap string string) !! t = Some ref.
Proof.
  assert (H : route_payload ∅ {["Goodbye" := "pages/2"]} (Some "webhooks/0")
                {| r_page := "Welcome"; r_intent := "Intent_welcome :: Yes";
                   r_next_page := Some "Goodbye";
                   r_webhook_action := Some "fetch_data";
                   r_parameters := Some [("topic", "demo")] |}
              = Some (JObj [("intent", JNull); ("targetPage", JStr "pages/2");
                            ("triggerFulfillment",
                             JObj [("webhook", JStr "webhooks/0");
                                   ("tag", JStr "fetch_data");
                                   ("setParameterActions",
                                    JList [JObj [("parameter", JStr "topic");
                                                 ("value", JStr "demo")]])])])).
  { vm_compute. reflexivity. }
  destruct (route_payload_never_empty _ _ _ _ _ H)
    as [(t & ref & H1 & H2 & H3 & _) _].
  exists t, ref. auto.
Defined.

(** ** What [_api_request] gives back *)

Section Outcome.
Context {W : Type} {T : Transport W}.

(** A result of [_api_request] in the model: with a [Retry-After] header
    that is a natural number and a credential source that does not fail,
    the only exceptions left are the ones of [requests]. *)
Definition settled (res : result response) : Prop :=
  match res with
  | Ok r => is_error_status (status_code r) = false \/ status_code r = 429
  | Raise e => is_request_exception e = true
  end.

Lemma attempts_settled rq n : forall a last (s : uploader * W),
  a + n = max_retries -> 0 < n ->
  settled (fst (attempts (seq a n) rq last s)).
Proof.
  induction n as [|n IH]; intros a last [u w] Han Hn; [lia|].
  assert (Hnext : forall last' s', a <> max_retries - 1 ->
    settled (fst (attempts (seq (S a) n) rq last' s'))).
  { intros last' s' Ha. apply IH; unfold max_retries in *; lia. }
  cbn [seq attempts]. unfold bind at 1.
  assert (E0 : exists w0,
    (if 0 <? a then sleep (2 ^ a) else ret tt) (u, w) = (Ok tt, (u, w0))).
  { destruct (0 <? a); eexists; reflexivity. }
  destruct E0 as (w0 & ->).
  unfold bind at 1. unfold send at 1.
  destruct (requests_request rq (headers u) w0) as [[r|detail] w1].
  - destruct ((status_code r =? 401) && (a <? max_retries - 1)) eqn:E401.
    + apply andb_true_iff in E401 as [_ Hlt]. apply Nat.ltb_lt in Hlt.
      unfold bind at 1, _refresh_auth at 1. destruct (fetch_token w1) as [tok w2].
      apply Hnext. lia.
    + destruct (status_code r =? 429) eqn:E429.
      * unfold bind at 1, sleep at 1. destruct n as [|n'].
        -- cbn. right. now apply Nat.eqb_eq.
        -- apply Hnext. unfold max_retries in *. lia.
      * destruct (is_error_status (status_code r)) eqn:Ee.
        -- unfold on_request_exception.
           destruct (a =? max_retries - 1) eqn:Ea; [reflexivity|].
           apply Hnext. now apply Nat.eqb_neq.
        -- cbn. now left.
  - unfold on_request_exception.
    destruct (a =? max_retries - 1) eqn:Ea; [reflexivity|].
    apply Hnext. now apply Nat.eqb_neq.
Qed.
End Outcome.

(** X12: whatever the transport does, a response that [_api_request]
    returns has no error status or has the status 429: an error response
    other than 429 is never returned; and the [return response] after the
    loop never finds [response] unbound, so [_api_request] does not raise
    [UnboundLocalError].  Which other exceptions it raises is not stated
    here. *)
Theorem api_request_settles (W : Type) (T : Transport W) (m : method) (u : url)
  (params : option string) (body : option json) (s : uploader * W) :
  match fst (_api_request m u params body s) with
  | Ok r => is_error_status (status_code r) = false \/ status_code r = 429
  | Raise e => e <> UnboundLocalError
  end.
Proof.
  unfold _api_request.
  pose proof (attempts_settled
                {| rq_method := m; rq_url := u; rq_params := params;
                   rq_body := body |} max_retries 0 None s eq_refl) as H.
  unfold settled in H.
  destruct (fst (attempts (seq 0 max_retries) _ None s)) as [r|e].
  - apply H. unfold max_retries. lia.
  - intros ->. assert (0 < max_retries) as H0 by (unfold max_retries; lia).
    specialize (H H0). discriminate.
Qed.

(** ** Attempts and waits of [_api_request] on a scripted endpoint *)

Lemma eqb_401_false r :
  is_error_status (status_code r) = false -> (status_code r =? 401) = false.
Proof.
  intros H. destruct (Nat.eqb_spec (status_code r) 401) as [E|]; [|reflexivity].
  rewrite E in H. discriminate.
Qed.

Lemma eqb_429_false r :
  is_error_status (status_code r) = false -> (status_code r =? 429) = false.
Proof.
  intros H. destruct (Nat.eqb_spec (status_code r) 429) as [E|]; [|reflexivity].
  rewrite E in H. discriminate.
Qed.

Lemma attempt_send attempt rq u (w : scripted) :
  let w0 := if 0 <? attempt then log_event (Slept (2 ^ attempt)) w else w in
  (if 0 <? attempt then sleep (2 ^ attempt) else ret tt) (u, w) = (Ok tt, (u, w0))
  /\ send rq (u, w0)
     = (Ok (answers w (requests_made (trace w))),
        (u, log_event (Requested (headers u)) w0)).
Proof.
  cbv zeta. split; [destruct (0 <? attempt); reflexivity|].
  destruct (0 <? attempt); [|reflexivity].
  unfold send. cbn [requests_request scripted_endpoint].
  rewrite requests_made_log. cbn [is_request answers log_event].
  now rewrite Nat.add_0_r.
Qed.

(** One attempt that is answered by a response which is no error. *)
Lemma attempt_answered attempt todo rq last u (w : scripted) r :
  answers w (requests_made (trace w)) = Responded r ->
  is_error_status (status_code r) = false ->
  attempts (attempt :: todo) rq last (u, w)
  = (Ok r,
     (u, log_event (Requested (headers u))
           (if 0 <? attempt then log_event (Slept (2 ^ attempt)) w else w))).
Proof.
  intros Ha He. cbn [attempts].
  destruct (attempt_send attempt rq u w) as [E0 Es].
  rewrite (bind_ok _ _ _ _ _ E0), (bind_ok _ _ _ _ _ Es), Ha.
  now rewrite (eqb_401_false r He), (eqb_429_false r He), He.
Qed.

(** One attempt that is answered by 401 before the last attempt. *)
Lemma attempt_unauthorized attempt todo rq last u (w : scripted) r :
  answers w (requests_made (trace w)) = Responded r ->
  status_code r = 401 -> attempt < max_retries - 1 ->
  attempts (attempt :: todo) rq last (u, w)
  = attempts todo rq (Some r)
      (set_headers u "renewed",
       log_event Refreshed
         (log_event (Requested (headers u))
            (if 0 <? attempt then log_event (Slept (2 ^ attempt)) w else w))).
Proof.
  intros Ha H401 Hlt. cbn [attempts].
  destruct (attempt_send attempt rq u w) as [E0 Es].
  rewrite (bind_ok _ _ _ _ _ E0), (bind_ok _ _ _ _ _ Es), Ha, H401.
  apply Nat.ltb_lt in Hlt. rewrite Hlt. cbn [Nat.eqb andb].
  erewrite bind_ok; reflexivity.
Qed.

(** One attempt that fails before the last attempt. *)
Lemma attempt_failed attempt todo rq last u (w : scripted) :
  match answers w (requests_made (trace w)) with
  | Failed _ => True
  | Responded r => is_error_status (status_code r) = true
                   /\ status_code r <> 401 /\ status_code r <> 429
  end ->
  attempt <> max_retries - 1 ->
  attempts (attempt :: todo) rq last (u, w)
  = attempts todo rq
      (match answers w (requests_made (trace w)) with
       | Failed _ => last
       | Responded r => Some r
       end)
      (u, log_event (Requested (headers u))
            (if 0 <? attempt then log_event (Slept (2 ^ attempt)) w else w)).
Proof.
  intros Ha Hne. cbn [attempts].
  destruct (attempt_send attempt rq u w) as [E0 Es].
  rewrite (bind_ok _ _ _ _ _ E0), (bind_ok _ _ _ _ _ Es).
  apply Nat.eqb_neq in Hne. unfold on_request_exception. rewrite Hne.
  destruct (answers w (requests_made (trace w))) as [r|detail]; [|reflexivity].
  destruct Ha as (E1 & E2 & E3). apply Nat.eqb_neq in E2, E3.
  now rewrite E2, E3, E1.
Qed.

(** X13: when the endpoint's next answer is a response that is no error,
    [_api_request] returns it after one request, without waiting and
    without touching the uploader. *)
Theorem api_request_first_answer (m : method) (url : Upload.url)
  (params : option string) (body : option json) (u : uploader) (w : scripted)
  (r : response) :
  answers w (requests_made (trace w)) = Responded r ->
  is_error_status (status_code r) = false ->
  _api_request m url params body (u, w)
  = (Ok r, (u, log_event (Requested (headers u)) w)).
Proof.
  intros Ha He. unfold _api_request.
  change (seq 0 max_retries) with (0 :: [1; 2]).
  now rewrite (attempt_answered 0 _ _ _ u w r Ha He).
Qed.

Lemma api_request_first_answer_witness :
  _api_request GET (AgentCollection "flows") None None
    (new_uploader "t" "https://dispatch.example/hook" None,
     always (Responded (ok_response (JObj []))))
  = (Ok (ok_response (JObj [])),
     (new_uploader "t" "https://dispatch.example/hook" None,
      log_event (Requested "t") (always (Responded (ok_response (JObj [])))))).
Proof.
  apply (api_request_first_answer GET (AgentCollection "flows") None None
           (new_uploader "t" "https://dispatch.example/hook" None)
           (always (Responded (ok_response (JObj [])))) (ok_response (JObj [])));
    reflexivity.
Defined.

(** X14: a 401 answer to the first attempt makes [_api_request] renew the
    token, wait two seconds and try again with the renewed token; when the
    second answer is no error it is returned, and the uploader keeps the
    renewed token. *)
Theorem api_request_renews_token (m : method) (url : Upload.url)
  (params : option string) (body : option json) (u : uploader) (w : scripted)
  (r1 r2 : response) :
  answers w (requests_made (trace w)) = Responded r1 ->
  status_code r1 = 401 ->
  answers w (S (requests_made (trace w))) = Responded r2 ->
  is_error_status (status_code r2) = false ->
  _api_request m url params body (u, w)
  = (Ok r2,
     (set_headers u "renewed",
      {| answers := answers w;
         trace := trace w ++ [Requested (headers u); Refreshed; Slept 2;
                              Requested "renewed"] |})).
Proof.
  intros Ha1 H401 Ha2 He. unfold _api_request.
  change (seq 0 max_retries) with (0 :: 1 :: [2]).
  rewrite (attempt_unauthorized 0 _ _ _ u w r1 Ha1 H401) by (unfold max_retries; lia).
  cbn [Nat.ltb Nat.leb].
  set (w1 := log_event Refreshed (log_event (Requested (headers u)) w)).
  rewrite (attempt_answered 1 [2] _ _ (set_headers u "renewed") w1 r2).
  - unfold w1, log_event. cbn. now rewrite <- !app_assoc.
  - unfold w1. rewrite !requests_made_log. cbn [is_request answers log_event].
    now rewrite ?Nat.add_0_r, Nat.add_1_r.
  - exact He.
Qed.

Definition answers_then (first later : outcome) : scripted :=
  {| answers := fun n => match n with 0 => first | _ => later end; trace := [] |}.

Lemma api_request_renews_token_witness :
  fst (_api_request GET (AgentCollection "flows") None None
         (new_uploader "t" "https://dispatch.example/hook" None,
          answers_then (Responded (error_response 401))
                       (Responded (ok_response (JObj [])))))
  = Ok (ok_response (JObj [])).
Proof.
  rewrite (api_request_renews_token GET (AgentCollection "flows") None None
             (new_uploader "t" "https://dispatch.example/hook" None)
             (answers_then (Responded (error_response 401))
                           (Responded (ok_response (JObj []))))
             (error_response 401) (ok_response (JObj [])));
    reflexivity.
Defined.

(** X15: a first attempt that fails, by a transport failure or by an error
    status other than 401 and 429, is followed by a wait of two seconds and
    a second attempt; when that one is answered by a response that is no
    error, the response is returned and nothing is raised. *)
Theorem api_request_retries_after_failure (m : method) (url : Upload.url)
  (params : option string) (body : option json) (u : uploader) (w : scripted)
  (r2 : response) :
  match answers w (requests_made (trace w)) with
  | Failed _ => True
  | Responded r1 => is_error_status (status_code r1) = true
                    /\ status_code r1 <> 401 /\ status_code r1 <> 429
  end ->
  answers w (S (requests_made (trace w))) = Responded r2 ->
  is_error_status (status_code r2) = false ->
  _api_request m url params body (u, w)
  = (Ok r2,
     (u, {| answers := answers w;
            trace := trace w ++ [Requested (headers u); Slept 2;
                                 Requested (headers u)] |})).
Proof.
  intros Ha1 Ha2 He. unfold _api_request.
  change (seq 0 max_retries) with (0 :: 1 :: [2]).
  rewrite (attempt_failed 0 _ _ _ u w Ha1) by (unfold max_retries; lia).
  cbn [Nat.ltb Nat.leb].
  set (w1 := log_event (Requested (headers u)) w).
  rewrite (attempt_answered 1 [2] _ _ u w1 r2).
  - unfold w1, log_event. cbn. now rewrite <- !app_assoc.
  - unfold w1. rewrite !requests_made_log. cbn [is_request answers log_event].
    now rewrite ?Nat.add_0_r, Nat.add_1_r.
  - exact He.
Qed.

Lemma api_request_retries_after_failure_witness :
  fst (_api_request GET (AgentCollection "flows") None None
         (new_uploader "t" "https://dispatch.example/hook" None,
          answers_then (Failed "timeout") (Responded (ok_response (JObj [])))))
  = Ok (ok_response (JObj [])).
Proof.
  rewrite (api_request_retries_after_failure GET (AgentCollection "flows") None None
             (new_uploader "t" "https://dispatch.example/hook" None)
             (answers_then (Failed "timeout") (Responded (ok_response (JObj []))))
             (ok_response (JObj [])));
    [reflexivity | exact I | reflexivity | reflexivity].
Defined.

(** X16: against any endpoint, [_api_request] sends at least one request
    and at most three; when every attempt fails the same way, by a transport
    failure or by an error status other than 401 and 429, it sends three,
    waits two and then four seconds between them, and raises the last
    failure. *)
Theorem api_request_gives_up (m : method) (url : Upload.url)
  (params : option string) (body : option json) (u : uploader) :
  (forall w : scripted,
      let w' := snd (snd (_api_request m url params body (u, w))) in
      requests_made (trace w) < requests_made (trace w')
      /\ requests_made (trace w') <= requests_made (trace w) + 3)
  /\ (forall detail,
        _api_request m url params body (u, always (Failed detail))
        = (Raise (ConnectionError detail),
           (u, {| answers := fun _ => Failed detail;
                  trace := [Requested (headers u); Slept 2; Requested (headers u);
                            Slept 4; Requested (headers u)] |})))
  /\ (forall r,
        is_error_status (status_code r) = true ->
        status_code r <> 401 -> status_code r <> 429 ->
        _api_request m url params body (u, always (Responded r))
        = (Raise (HTTPError r),
           (u, {| answers := fun _ => Responded r;
                  trace := [Requested (headers u); Slept 2; Requested (headers u);
                            Slept 4; Requested (headers u)] |}))).
Proof.
  split; [|split].
  - intros w. apply api_request_attempt_bound.
  - intros detail. apply api_request_transport_failure.
  - intros r. apply api_request_error_status.
Qed.

(** ** Listings *)

(** The last resource of a listing that has the display name [dn]. *)
Fixpoint last_named (dn : string) (l : list resource) : option resource :=
  match l with
  | [] => None
  | r :: l' =>
      match last_named dn l' with
      | Some x => Some x
      | None => if String.eqb (res_display r) dn then Some r else None
      end
  end.

Lemma index_fold_lookup l dn : forall idx : gmap string json,
  fold_left (fun idx r => <[res_display r := item_json r]> idx) l idx !! dn
  = match last_named dn l with
    | Some r => Some (item_json r)
    | None => idx !! dn
    end.
Proof.
  induction l as [|r l IH]; intros idx; [reflexivity|].
  cbn [fold_left last_named]. rewrite IH.
  destruct (last_named dn l) as [x|]; [reflexivity|].
  destruct (String.eqb_spec (res_display r) dn) as [->|Hne].
  - now rewrite lookup_insert_eq.
  - now rewrite lookup_insert_ne.
Qed.

Lemma index_of_lookup l dn :
  index_of l !! dn = item_json <$> last_named dn l.
Proof.
  unfold index_of. rewrite index_fold_lookup, lookup_empty.
  now destruct (last_named dn l).
Qed.

(** X17: against the service, [list_by_name] sends one GET, changes neither
    the uploader nor the service, and returns an index in which each display
    name of the collection leads to the last listed resource that has it;
    a display name that no listed resource has is not in the index. *)
Theorem list_by_name_last_wins (u : uploader) (rm : remote) (log : list request) :
  (exists idx,
      list_by_name (AgentCollection "flows") "flows" (u, (rm, log))
      = (Ok idx, (u, (rm, log ++ [list_request (AgentCollection "flows")])))
      /\ forall dn, idx !! dn = item_json <$> last_named dn (rm_flows rm))
  /\ (exists idx,
      list_by_name (AgentCollection "webhooks") "webhooks" (u, (rm, log))
      = (Ok idx, (u, (rm, log ++ [list_request (AgentCollection "webhooks")])))
      /\ forall dn, idx !! dn = item_json <$> last_named dn (rm_webhooks rm))
  /\ (exists idx,
      list_by_name (AgentCollection "intents") "intents" (u, (rm, log))
      = (Ok idx, (u, (rm, log ++ [list_request (AgentCollection "intents")])))
      /\ forall dn, idx !! dn = item_json <$> last_named dn (rm_intents rm))
  /\ (forall flow, has_name flow (rm_flows rm) = true ->
      exists idx,
        list_by_name (FlowPages flow) "pages" (u, (rm, log))
        = (Ok idx, (u, (rm, log ++ [list_request (FlowPages flow)])))
        /\ forall dn, idx !! dn
                      = item_json <$> last_named dn (pages_of flow (rm_pages rm))).
Proof.
  split_conj.
  - eexists. split; [apply list_by_name_flows | apply index_of_lookup].
  - eexists. split; [apply list_by_name_webhooks | apply index_of_lookup].
  - eexists. split; [apply list_by_name_intents | apply index_of_lookup].
  - intros flow Hf. eexists.
    split; [now apply list_by_name_pages | apply index_of_lookup].
Qed.

(** X18: [list_by_name] on a response whose body has no list under the key
    gives the empty index; an item of the list that has no [displayName]
    makes it raise [KeyError]. *)
Theorem list_by_name_malformed (url : Upload.url) (key : string) (u : uploader)
  (fields : PyDict.dict json) :
  (PyDict.get key fields = None ->
   fst (list_by_name url key (u, always (Responded (ok_response (JObj fields)))))
   = Ok ∅)
  /\ (forall item_fields rest,
        PyDict.get key fields = Some (JList (JObj item_fields :: rest)) ->
        PyDict.get "displayName" item_fields = None ->
        fst (list_by_name url key
               (u, always (Responded (ok_response (JObj fields)))))
        = Raise (KeyError "displayName")).
Proof.
  assert (Ha : _api_request GET url None None
                 (u, always (Responded (ok_response (JObj fields))))
               = (Ok (ok_response (JObj fields)),
                  (u, {| answers := fun _ => Responded (ok_response (JObj fields));
                         trace := [Requested (headers u)] |}))).
  { now apply api_request_success. }
  split.
  - intros Hk. unfold list_by_name. rewrite (bind_ok _ _ _ _ _ Ha).
    cbn [resp_json ok_response]. rewrite Hk. reflexivity.
  - intros item_fields rest Hk Hd. unfold list_by_name.
    rewrite (bind_ok _ _ _ _ _ Ha). cbn [resp_json ok_response]. rewrite Hk.
    erewrite bind_ok; [|reflexivity]. cbn [for_each].
    erewrite bind_raise; [reflexivity|].
    erewrite bind_raise; [reflexivity|].
    unfold subscript. rewrite Hd. reflexivity.
Qed.

(** ** Flows: look up, create once, then answer from the cache *)

Lemma last_named_None dn l :
  last_named dn l = None <-> ~ In dn (display_names l).
Proof.
  unfold display_names. induction l as [|r l IH]; cbn [last_named map In]; [tauto|].
  destruct (last_named dn l) as [x|].
  - split; [discriminate|]. intros H. exfalso. apply H. right.
    destruct IH as [_ IH]. destruct (in_dec String.string_dec dn (map res_display l));
      [assumption|]. now specialize (IH n).
  - destruct (String.eqb_spec (res_display r) dn) as [E|Hne].
    + split; [discriminate|]. intros H. exfalso. apply H. now left.
    + split; [|reflexivity]. intros _ [E|Hin]; [contradiction|]. now apply IH.
Qed.

Lemma last_named_Some dn l r :
  last_named dn l = Some r -> In r l /\ res_display r = dn.
Proof.
  induction l as [|x l IH]; cbn [last_named]; [discriminate|].
  destruct (last_named dn l) as [y|].
  - intros [= <-]. destruct (IH eq_refl) as [H1 H2]. split; [now right | exact H2].
  - destruct (String.eqb_spec (res_display x) dn) as [E|Hne]; [|discriminate].
    intros [= <-]. split; [now left | exact E].
Qed.

(** X19: [upsert_flow] for a display name that is not in the cache lists
    the flows; when a flow has the name, nothing is created and the name of
    the last such flow is returned; otherwise exactly one flow with that
    display name is created.  Either way the identifier is put in the cache,
    and a second call returns it without sending anything. *)
Theorem upsert_flow_creates_once (display_name : string) (u : uploader)
  (rm : remote) (log : list request) :
  cache_flows u !! display_name = None ->
  exists id rm' sent,
    let u' := set_cache_flows u (<[display_name := id]> (cache_flows u)) in
    upsert_flow display_name (u, (rm, log)) = (Ok id, (u', (rm', log ++ sent)))
    /\ In (id, display_name) (entries (rm_flows rm'))
    /\ (In display_name (display_names (rm_flows rm)) ->
        rm' = rm /\ Forall (fun rq => rq_method rq = GET) sent)
    /\ (~ In display_name (display_names (rm_flows rm)) ->
        display_names (rm_flows rm') = display_names (rm_flows rm) ++ [display_name]
        /\ rm_webhooks rm' = rm_webhooks rm /\ rm_intents rm' = rm_intents rm
        /\ rm_pages rm' = rm_pages rm)
    /\ upsert_flow display_name (u', (rm', log ++ sent))
       = (Ok id, (u', (rm', log ++ sent))).
Proof.
  intros Hc. unfold upsert_flow at 1. erewrite bind_ok; [|reflexivity].
  rewrite Hc.
  rewrite (bind_ok _ _ _ _ _ (list_by_name_flows u rm log)).
  set (log1 := log ++ [list_request (AgentCollection "flows")]).
  assert (Hsecond : forall id rm' log',
    upsert_flow display_name
      (set_cache_flows u (<[display_name := id]> (cache_flows u)), (rm', log'))
    = (Ok id, (set_cache_flows u (<[display_name := id]> (cache_flows u)),
               (rm', log')))).
  { intros id rm' log'. unfold upsert_flow. erewrite bind_ok; [|reflexivity].
    cbn [cache_flows set_cache_flows]. now rewrite lookup_insert_eq. }
  rewrite index_of_lookup.
  destruct (last_named display_name (rm_flows rm)) as [r|] eqn:El; cbn [fmap option_fmap option_map].
  - destruct (last_named_Some _ _ _ El) as [Hin Hd].
    rewrite (bind_ok _ _ _ _ _ (name_of_item _ _ _ (item_name_item_json r))).
    erewrite bind_ok; [|reflexivity].
    exists (res_name r), rm, [list_request (AgentCollection "flows")]. cbv zeta.
    split; [reflexivity|]. split_conj.
    + unfold entries. apply in_map_iff. exists r. now rewrite Hd.
    + intros _. split; [reflexivity|]. repeat constructor.
    + intros Hn. apply last_named_None in Hn. congruence.
    + apply Hsecond.
  - set (r := {| res_name := fresh_name "flows" rm; res_display := display_name;
                 res_fields := [] |}).
    set (rm1 := {| rm_flows := rm_flows rm ++ [r];
                   rm_webhooks := rm_webhooks rm;
                   rm_intents := rm_intents rm; rm_pages := rm_pages rm;
                   rm_counter := S (rm_counter rm) |}).
    pose proof (api_request_ok POST (AgentCollection "flows") None
                  (Some (JObj [("displayName", JStr display_name)])) u rm log1) as Ha.
    cbv zeta in Ha.
    assert (Hs : serve (mk_request POST (AgentCollection "flows") None
                          (Some (JObj [("displayName", JStr display_name)]))) rm
                 = (ok_response (item_json r), rm1)) by reflexivity.
    rewrite Hs in Ha. specialize (Ha eq_refl). cbn [fst snd] in Ha.
    erewrite bind_ok; [|erewrite bind_ok; [|exact Ha]; reflexivity].
    erewrite bind_ok; [|reflexivity].
    exists (res_name r), rm1,
      [list_request (AgentCollection "flows");
       mk_request POST (AgentCollection "flows") None
         (Some (JObj [("displayName", JStr display_name)]))].
    cbv zeta. split.
    { unfold log1. rewrite <- app_assoc. reflexivity. }
    split_conj.
    + cbn [rm_flows rm1]. rewrite entries_app, in_app_iff. right. now left.
    + intros Hin. apply last_named_None in El. contradiction.
    + intros _. cbn [rm_flows rm1]. unfold display_names.
      rewrite map_app. split_conj; reflexivity.
    + apply Hsecond.
Qed.

Lemma upsert_flow_creates_once_witness :
  exists id rm' sent,
    upsert_flow "Demo Flow"
      (new_uploader "t" "https://dispatch.example/hook" None, (empty_agent, []))
    = (Ok id,
       (set_cache_flows (new_uploader "t" "https://dispatch.example/hook" None)
          (<["Demo Flow" := id]> ∅),
        (rm', [] ++ sent)))
    /\ In (id, "Demo Flow") (entries (rm_flows rm')).
Proof.
  destruct (upsert_flow_creates_once "Demo Flow"
              (new_uploader "t" "https://dispatch.example/hook" None)
              empty_agent [] eq_refl)
    as (id & rm' & sent & H1 & H2 & _).
  exists id, rm', sent. split; [exact H1 | exact H2].
Defined.

(** ** The start route of a flow *)

Lemma page_map_loop {W} (l : list resource) :
  forall (pm : gmap string string) (s : uploader * W),
  for_each (map item_json l) pm page_map_step s
  = (Ok (fold_left (fun pm r => <[res_display r := res_name r]> pm) l pm), s).
Proof.
  induction l as [|r l IH]; intros pm s; [reflexivity|].
  cbn [map for_each fold_left].
  erewrite bind_ok; [apply IH | reflexivity].
Qed.

Lemma page_map_lookup l dn : forall pm : gmap string string,
  fold_left (fun pm r => <[res_display r := res_name r]> pm) l pm !! dn
  = match last_named dn l with
    | Some r => Some (res_name r)
    | None => pm !! dn
    end.
Proof.
  induction l as [|r l IH]; intros pm; [reflexivity|].
  cbn [fold_left last_named]. rewrite IH.
  destruct (last_named dn l) as [x|]; [reflexivity|].
  destruct (String.eqb_spec (res_display r) dn) as [->|Hne].
  - now rewrite lookup_insert_eq.
  - now rewrite lookup_insert_ne.
Qed.

(** The body that [patch_flow_start_route] sends. *)
Definition start_route_body (target : string) : json :=
  JObj [("transitionRoutes",
         JList [JObj [("condition", JStr "true"); ("targetPage", JStr target)]])].

(** What [patch_flow_start_route] does against the service. *)
Lemma start_route_outcome (flow first_page_name : string)
  (u : uploader) (rm : remote) (log : list request) :
  has_name flow (rm_flows rm) = true ->
  (~ In first_page_name (display_names (pages_of flow (rm_pages rm))) ->
   patch_flow_start_route flow first_page_name (u, (rm, log))
   = (Raise (RuntimeError (first_page_missing first_page_name)),
      (u, (rm, log ++ [list_request (FlowPages flow)]))))
  /\ (forall r,
        last_named first_page_name (pages_of flow (rm_pages rm)) = Some r ->
        res_name r <> "" ->
        exists rm',
          patch_flow_start_route flow first_page_name (u, (rm, log))
          = (Ok tt,
             (u, (rm', log ++ [list_request (FlowPages flow);
                               mk_request PATCH (Resource flow)
                                 (Some "transitionRoutes")
                                 (Some (start_route_body (res_name r)))])))
          /\ shape_of rm' = shape_of rm
          /\ forall f, In f (rm_flows rm') -> res_name f = flow ->
               PyDict.get "transitionRoutes" (res_fields f)
               = json_get "transitionRoutes" (start_route_body (res_name r))).
Proof.
  intros Hf.
  pose proof (api_request_ok GET (FlowPages flow) None None u rm log) as Ha.
  cbv zeta in Ha. fold (list_request (FlowPages flow)) in Ha.
  assert (Hs : serve (list_request (FlowPages flow)) rm
    = (ok_response
         (JObj [("pages", JList (map item_json (pages_of flow (rm_pages rm))))]),
       rm)).
  { unfold serve. simpl. now rewrite Hf. }
  rewrite Hs in Ha. specialize (Ha eq_refl). cbn [fst snd] in Ha.
  set (log1 := log ++ [list_request (FlowPages flow)]) in *.
  assert (Hrun :
    patch_flow_start_route flow first_page_name (u, (rm, log))
    = match last_named first_page_name (pages_of flow (rm_pages rm)) with
      | Some r =>
          if truthy (res_name r)
          then bind (_api_request PATCH (Resource flow) (Some "transitionRoutes")
                       (Some (start_route_body (res_name r))))
                 (fun _ => ret tt) (u, (rm, log1))
          else (Raise (RuntimeError (first_page_missing first_page_name)),
                (u, (rm, log1)))
      | None => (Raise (RuntimeError (first_page_missing first_page_name)),
                 (u, (rm, log1)))
      end).
  { unfold patch_flow_start_route.
    rewrite (bind_ok _ _ _ _ _ Ha). cbn [resp_json ok_response json_get PyDict.get].
    change (String.eqb "pages" "pages") with true. cbv iota.
    erewrite bind_ok; [|reflexivity].
    rewrite (bind_ok _ _ _ _ _ (page_map_loop _ _ _)).
    rewrite page_map_lookup, lookup_empty.
    destruct (last_named first_page_name (pages_of flow (rm_pages rm))) as [r|];
      [|reflexivity].
    destruct (truthy (res_name r)); reflexivity. }
  split.
  - intros Hn. apply last_named_None in Hn. now rewrite Hrun, Hn.
  - intros r Hr Hname. rewrite Hrun, Hr.
    apply truthy_true in Hname. rewrite Hname.
    pose proof (api_request_ok PATCH (Resource flow) (Some "transitionRoutes")
                  (Some (start_route_body (res_name r))) u rm log1) as Hp.
    cbv zeta in Hp.
    set (v := JList [JObj [("condition", JStr "true");
                           ("targetPage", JStr (res_name r))]]) in *.
    set (rm1 :=
      {| rm_flows := map (patch_resource flow "transitionRoutes" v) (rm_flows rm);
         rm_webhooks := map (patch_resource flow "transitionRoutes" v) (rm_webhooks rm);
         rm_intents := map (patch_resource flow "transitionRoutes" v) (rm_intents rm);
         rm_pages :=
           map (fun fp => (fst fp, patch_resource flow "transitionRoutes" v (snd fp)))
               (rm_pages rm);
         rm_counter := rm_counter rm |}).
    assert (Hsp : serve (mk_request PATCH (Resource flow) (Some "transitionRoutes")
                           (Some (start_route_body (res_name r)))) rm
                  = (ok_response (JObj []), rm1)).
    { unfold serve. simpl. now rewrite Hf. }
    rewrite Hsp in Hp. specialize (Hp eq_refl). cbn [fst snd] in Hp.
    rewrite (bind_ok _ _ _ _ _ Hp). exists rm1. split.
    { unfold log1. now rewrite <- app_assoc. }
    split.
    { unfold shape_of, rm1. cbn [rm_flows rm_webhooks rm_intents rm_pages].
      now rewrite !entries_patch, page_entries_patch. }
    intros f Hin Hfn. cbn [rm_flows rm1] in Hin.
    apply in_map_iff in Hin as (f0 & <- & Hin0).
    unfold patch_resource in *.
    destruct (String.eqb_spec (res_name f0) flow) as [E|Hne].
    + cbn [res_fields]. rewrite get_set_same. reflexivity.
    + contradiction.
Qed.

(** X20: [patch_flow_start_route] lists the pages of the flow; when no
    page has the display name of the first page it raises [RuntimeError]
    after that one GET and the service is as before; when a page has it (and
    a non-empty name), it sends one PATCH with the mask [transitionRoutes]
    that routes to the last such page, after which the flow holds that
    start route and no name or display name of the service has changed. *)
Theorem start_route_needs_first_page (flow first_page_name : string)
  (u : uploader) (rm : remote) (log : list request) :
  has_name flow (rm_flows rm) = true ->
  (~ In first_page_name (display_names (pages_of flow (rm_pages rm))) ->
   patch_flow_start_route flow first_page_name (u, (rm, log))
   = (Raise (RuntimeError (first_page_missing first_page_name)),
      (u, (rm, log ++ [list_request (FlowPages flow)]))))
  /\ (forall r,
        last_named first_page_name (pages_of flow (rm_pages rm)) = Some r ->
        res_name r <> "" ->
        exists rm',
          patch_flow_start_route flow first_page_name (u, (rm, log))
          = (Ok tt,
             (u, (rm', log ++ [list_request (FlowPages flow);
                               mk_request PATCH (Resource flow)
                                 (Some "transitionRoutes")
                                 (Some (start_route_body (res_name r)))])))
          /\ shape_of rm' = shape_of rm
          /\ forall f, In f (rm_flows rm') -> res_name f = flow ->
               PyDict.get "transitionRoutes" (res_fields f)
               = json_get "transitionRoutes" (start_route_body (res_name r))).
Proof. apply start_route_outcome. Qed.

(** A service with one flow and no page. *)
Definition agent_with_flow : remote :=
  {| rm_flows := [{| res_name := "flows/0"; res_display := "Demo Flow";
                     res_fields := [] |}];
     rm_webhooks := []; rm_intents := []; rm_pages := []; rm_counter := 1 |}.

Lemma start_route_needs_first_page_witness :
  patch_flow_start_route "flows/0" "Welcome"
    (new_uploader "t" "https://dispatch.example/hook" None, (agent_with_flow, []))
  = (Raise (RuntimeError "First page 'Welcome' not found in flow."),
     (new_uploader "t" "https://dispatch.example/hook" None,
      (agent_with_flow, [list_request (FlowPages "flows/0")]))).
Proof.
  destruct (start_route_needs_first_page "flows/0" "Welcome"
              (new_uploader "t" "https://dispatch.example/hook" None)
              agent_with_flow [] eq_refl) as [H _].
  apply H. simpl. tauto.
Defined.

(** ** What an upsert leaves on the service *)

(** The service after an accepted PATCH of the field [mask] of the
    resources named [name]. *)
Definition patched (name mask : string) (v : json) (rm : remote) : remote :=
  {| rm_flows := map (patch_resource name mask v) (rm_flows rm);
     rm_webhooks := map (patch_resource name mask v) (rm_webhooks rm);
     rm_intents := map (patch_resource name mask v) (rm_intents rm);
     rm_pages :=
       map (fun fp => (fst fp, patch_resource name mask v (snd fp))) (rm_pages rm);
     rm_counter := rm_counter rm |}.

Lemma patch_run n mask v u rm log :
  has_name n (rm_flows rm) || has_name n (rm_webhooks rm)
  || has_name n (rm_intents rm) || has_name n (map snd (rm_pages rm)) = true ->
  _api_request PATCH (Resource n) (Some mask) (Some (JObj [(mask, v)]))
    (u, (rm, log))
  = (Ok (ok_response (JObj [])),
     (u, (patched n mask v rm,
          log ++ [mk_request PATCH (Resource n) (Some mask)
                    (Some (JObj [(mask, v)]))]))).
Proof.
  intros Hh.
  pose proof (api_request_ok PATCH (Resource n) (Some mask)
                (Some (JObj [(mask, v)])) u rm log) as Ha.
  cbv zeta in Ha.
  assert (E : serve (mk_request PATCH (Resource n) (Some mask)
                       (Some (JObj [(mask, v)]))) rm
              = (ok_response (JObj []), patched n mask v rm)).
  { unfold serve. simpl. rewrite Hh, String.eqb_refl. reflexivity. }
  rewrite E in Ha. now apply Ha.
Qed.

Lemma patch_resource_named n mask v r :
  res_name r = n ->
  res_name (patch_resource n mask v r) = n
  /\ res_display (patch_resource n mask v r) = res_display r
  /\ PyDict.get mask (res_fields (patch_resource n mask v r)) = Some v.
Proof.
  intros <-. unfold patch_resource. rewrite String.eqb_refl.
  cbn [res_name res_display res_fields]. now rewrite get_set_same.
Qed.

Lemma under_In F n dn pages :
  In (n, dn) (under F (page_entries pages)) ->
  exists p, In (F, p) pages /\ res_name p = n /\ res_display p = dn.
Proof.
  unfold under, page_entries. rewrite in_map_iff.
  intros ([f [n' dn']] & [= -> ->] & Hin).
  apply filter_In in Hin as [Hin Hf]. cbn [fst] in Hf.
  apply String.eqb_eq in Hf. subst f.
  apply in_map_iff in Hin as ([f p] & [= -> <- <-] & Hin). now exists p.
Qed.


Lemma index_or_list_pages_sent F idx u rm log :
  has_name F (rm_flows rm) = true ->
  indexed idx (under F (page_entries (rm_pages rm))) ->
  exists idx' pre,
    index_or_list idx (FlowPages F) "pages" (u, (rm, log))
    = (Ok idx', (u, (rm, log ++ pre)))
    /\ indexed idx' (under F (page_entries (rm_pages rm)))
    /\ length pre = (if size idx =? 0 then 1 else 0).
Proof.
  intros Hf Hi. unfold index_or_list. destruct (size idx =? 0).
  - rewrite (list_by_name_pages F u rm log Hf). eexists _, [_].
    split; [reflexivity|]. split; [|reflexivity].
    rewrite <- entries_pages_of. apply index_of_indexed.
  - exists idx, []. rewrite app_nil_r. now split.
Qed.


(** What [upsert_page] does against the service. *)
Lemma upsert_page_outcome (flow display_name : string)
  (prompts chips : list string) (pages_index : gmap string json)
  (is_end_state : bool) (u : uploader) (rm : remote) (log : list request) :
  has_name flow (rm_flows rm) = true ->
  indexed pages_index (under flow (page_entries (rm_pages rm))) ->
  exists n rm' sent p,
    upsert_page flow display_name prompts chips pages_index is_end_state
      (u, (rm, log))
    = (Ok n, (u, (rm', log ++ sent)))
    /\ length sent = (if size pages_index =? 0 then 2 else 1)
    /\ In (flow, p) (rm_pages rm')
    /\ res_name p = n /\ res_display p = display_name
    /\ PyDict.get "entryFulfillment" (res_fields p)
       = Some (entry_fulfillment prompts chips)
    /\ (In display_name (map snd (under flow (page_entries (rm_pages rm)))) ->
        page_entries (rm_pages rm') = page_entries (rm_pages rm))
    /\ (~ In display_name (map snd (under flow (page_entries (rm_pages rm)))) ->
        rm_pages rm' = rm_pages rm ++ [(flow, p)])
    /\ entries (rm_flows rm') = entries (rm_flows rm)
    /\ (In display_name (map snd (under flow (page_entries (rm_pages rm))))
        \/ n <> "").
Proof.
  intros Hf Hi. unfold upsert_page.
  destruct (index_or_list_pages_sent flow pages_index u rm log Hf Hi)
    as (idx' & pre & E1 & Hi' & Hpre).
  rewrite (bind_ok _ _ _ _ _ E1).
  assert (Hlen : forall rq : request,
    length (pre ++ [rq]) = (if size pages_index =? 0 then 2 else 1)).
  { intros rq. rewrite length_app, Hpre. now destruct (size pages_index =? 0). }
  pose proof (Hi' display_name) as Hdn.
  destruct (idx' !! display_name) as [item|].
  - destruct Hdn as (n & Hn & Hentry).
    rewrite (bind_ok _ _ _ _ _ (name_of_item item n _ Hn)).
    rewrite (bind_ok _ _ _ _ _
      (patch_run n "entryFulfillment" (entry_fulfillment prompts chips) u rm _
         ltac:(rewrite (under_has_name _ _ _ _ Hentry); now rewrite !orb_true_r))).
    destruct (under_In _ _ _ _ Hentry) as (p0 & Hin0 & Hn0 & Hd0).
    destruct (patch_resource_named n "entryFulfillment"
                (entry_fulfillment prompts chips) p0 Hn0) as (P1 & P2 & P3).
    eexists n, _, _, (patch_resource n "entryFulfillment"
                        (entry_fulfillment prompts chips) p0).
    split; [rewrite <- app_assoc; reflexivity|].
    split; [apply Hlen|]. split_conj.
    + cbn [patched rm_pages]. apply in_map_iff. now exists (flow, p0).
    + exact P1.
    + now rewrite P2.
    + exact P3.
    + intros _. cbn [patched rm_pages]. apply page_entries_patch.
    + intros Hn'. exfalso. apply Hn'. apply in_map_iff. now exists (n, display_name).
    + cbn [patched rm_flows]. apply entries_patch.
    + left. apply in_map_iff. now exists (n, display_name).
  - set (r := {| res_name := fresh_name (flow +:+ "/pages") rm;
                 res_display := display_name;
                 res_fields := [("entryFulfillment",
                                 entry_fulfillment prompts chips)] |}).
    set (rm1 := {| rm_flows := rm_flows rm; rm_webhooks := rm_webhooks rm;
                   rm_intents := rm_intents rm;
                   rm_pages := rm_pages rm ++ [(flow, r)];
                   rm_counter := S (rm_counter rm) |}).
    match goal with
    | |- context [_api_request POST ?url None (Some ?payload)] =>
        pose proof (api_request_ok POST url None (Some payload) u rm (log ++ pre))
          as Ha
    end.
    cbv zeta in Ha.
    match type of Ha with
    | context [serve ?rq rm] =>
        assert (Hs : serve rq rm = (ok_response (item_json r), rm1))
    end.
    { unfold serve. simpl. rewrite Hf. reflexivity. }
    rewrite Hs in Ha. specialize (Ha eq_refl). cbn [fst snd] in Ha.
    rewrite (bind_ok _ _ _ _ _ Ha).
    eexists (res_name r), rm1, _, r.
    split; [rewrite <- app_assoc; reflexivity|].
    split; [apply Hlen|]. split_conj; try reflexivity.
    + cbn [rm1 rm_pages]. apply in_app_iff. right. now left.
    + intros H. contradiction.
    + right. cbn [res_name r]. unfold fresh_name.
      destruct flow; discriminate.
Qed.





(** ** An upload that succeeds *)

(** The identifiers that the pages loop has collected are names of pages of
    the flow on the service. *)
Definition ids_on_service (F : string) (ids : gmap string string) (rm : remote)
  : Prop :=
  forall dn id, ids !! dn = Some id ->
    In (id, dn) (under F (page_entries (rm_pages rm))).

Lemma pages_loop_ok F ends pgs : forall idx ids u rm log,
  has_name F (rm_flows rm) = true ->
  indexed idx (under F (page_entries (rm_pages rm))) ->
  ids_on_service F ids rm ->
  exists idx' ids' rm' log' new,
    for_each pgs (idx, ids) (upsert_pages_step F ends) (u, (rm, log))
    = (Ok (idx', ids'), (u, (rm', log')))
    /\ entries (rm_flows rm') = entries (rm_flows rm)
    /\ page_entries (rm_pages rm') = page_entries (rm_pages rm) ++ new
    /\ Forall (fun e => fst (snd e) <> "") new
    /\ ids_on_service F ids' rm'
    /\ (forall dn, In dn (PyDict.keys pgs) ->
                   In dn (map snd (under F (page_entries (rm_pages rm'))))).
Proof.
  induction pgs as [|[dn info] pgs IH]; intros idx ids u rm log Hf Hi Hids.
  - exists idx, ids, rm, log, []. rewrite app_nil_r.
    split; [reflexivity|]. split_conj; auto. intros dn [].
  - cbn [for_each]. unfold upsert_pages_step at 1.
    destruct (upsert_page_run F dn (pg_prompts info) (pg_chips info) idx
                (str_in dn ends) u rm log Hf Hi)
      as (n & rm1 & log1 & new1 & E1 & F1 & _ & _ & P1 & Hnew & Hpres & Hin).
    destruct (upsert_page_outcome F dn (pg_prompts info) (pg_chips info) idx
                (str_in dn ends) u rm log Hf Hi)
      as (n' & rm1' & sent & p & E1' & _ & _ & _ & _ & _ & _ & _ & _ & Hfresh).
    rewrite E1 in E1'. injection E1' as <- <- _.
    erewrite bind_ok; [|erewrite bind_ok; [|exact E1]; reflexivity].
    assert (Hf1 : has_name F (rm_flows rm1) = true).
    { now rewrite (has_name_same_entries F _ _ F1). }
    assert (Hi1 : indexed (<[dn := JObj [("name", JStr n)]]> idx)
                    (under F (page_entries (rm_pages rm1)))).
    { destruct Hnew as [->| ->].
      - rewrite P1, app_nil_r. apply (indexed_insert_present _ _ n);
          [exact Hi | reflexivity |]. now rewrite P1, app_nil_r in Hin.
      - rewrite P1, under_app. unfold under at 2. simpl.
        rewrite String.eqb_refl. simpl.
        now apply indexed_insert_new. }
    assert (Hids1 : ids_on_service F (<[dn := n]> ids) rm1).
    { intros dn' id. destruct (String.eqb_spec dn dn') as [<-|Hne].
      - rewrite lookup_insert_eq. now intros [= <-].
      - rewrite lookup_insert_ne by exact Hne. intros H.
        rewrite P1, under_app, in_app_iff. left. now apply Hids. }
    assert (Hn1 : Forall (fun e : string * (string * string) => fst (snd e) <> "")
                    new1).
    { destruct Hnew as [->| ->]; [constructor|].
      constructor; [|constructor]. cbn [fst snd].
      destruct Hfresh as [Hpresent|Hn]; [|exact Hn].
      specialize (Hpres Hpresent). discriminate. }
    destruct (IH _ (<[dn := n]> ids) u rm1 log1 Hf1 Hi1 Hids1)
      as (idx' & ids' & rm' & log' & new2 & E2 & F2 & P2 & Hn2 & Hids' & Hall).
    exists idx', ids', rm', log', (new1 ++ new2).
    split; [exact E2|]. split_conj.
    + now rewrite F2.
    + now rewrite P2, P1, <- app_assoc.
    + now apply Forall_app.
    + exact Hids'.
    + intros dn' [<-|Hdn']; [|now apply Hall].
      rewrite P2, under_app. apply in_map_snd_app.
      apply in_map_iff. now exists (n, dn).
Qed.

Lemma routes_loop_ok iids pids dname F groups : forall u rm log,
  ids_on_service F pids rm ->
  exists rm' log',
    for_each groups tt (apply_routes iids pids dname) (u, (rm, log))
    = (Ok tt, (u, (rm', log')))
    /\ shape_of rm' = shape_of rm.
Proof.
  induction groups as [|[page routes] groups IH]; intros u rm log Hids.
  - exists rm, log. split; reflexivity.
  - cbn [for_each].
    assert (Hstep : exists rm1 log1,
      apply_routes iids pids dname tt (page, routes) (u, (rm, log))
      = (Ok tt, (u, (rm1, log1))) /\ shape_of rm1 = shape_of rm).
    { unfold apply_routes. destruct (pids !! page) as [pr|] eqn:Ep;
        [|exists rm, log; split; reflexivity].
      destruct (negb (truthy pr)); [exists rm, log; split; reflexivity|].
      destruct (keep_some _ routes) as [|j js];
        [exists rm, log; split; reflexivity|].
      destruct (patch_existing pr "transitionRoutes" (JList (j :: js)) u rm log)
        as (rm1 & log1 & E & Hs).
      { rewrite (under_has_name _ _ _ _ (Hids _ _ Ep)). now rewrite !orb_true_r. }
      exists rm1, log1. split; [|exact Hs].
      erewrite bind_ok; [reflexivity | exact E]. }
    destruct Hstep as (rm1 & log1 & E1 & Hs1).
    rewrite (bind_ok _ _ _ _ _ E1).
    destruct (IH u rm1 log1) as (rm' & log' & E2 & Hs2).
    { intros dn id H. destruct (shape_components _ _ Hs1) as (_ & _ & _ & ->).
      now apply Hids. }
    exists rm', log'. split; [exact E2 | now rewrite Hs2].
Qed.

Lemma pages_of_names F pages r :
  In r (pages_of F pages) ->
  In (F, (res_name r, res_display r)) (page_entries pages).
Proof.
  unfold pages_of, page_entries. rewrite in_map_iff.
  intros ([f p] & <- & Hin). apply filter_In in Hin as [Hin Hf].
  cbn [fst] in Hf. apply String.eqb_eq in Hf. subst f.
  apply in_map_iff. now exists (F, p).
Qed.

(** An upload against the service goes through when the flow cache is
    valid, the first page of the graph is one of its pages and no page of
    the service has an empty name. *)
Lemma upload_body_ok path data fn u rm log :
  cache_valid u rm ->
  (forall fp, d_first_page data = Some fp ->
              In fp (PyDict.keys (d_pages data))) ->
  Forall (fun e => fst (snd e) <> "") (page_entries (rm_pages rm)) ->
  fst (upload_flow_body path data fn (u, (rm, log)))
  = Ok (flow_display_name path fn).
Proof.
  intros Hv Hfirst Hnames. unfold upload_flow_body. cbv zeta.
  fold (flow_display_name path fn). fold (dispatcher_needed data).
  set (name := flow_display_name path fn).
  destruct (upsert_flow_run name u rm log Hv)
    as (F & u1 & rm1 & log1 & E1 & _ & Hf1 & _ & _ & _ & _ & _ & _ & P1 & _).
  rewrite (bind_ok _ _ _ _ _ E1).
  match goal with
  | |- context [bind (if dispatcher_needed data then ?a else ?b) ?k] =>
      set (hook := if dispatcher_needed data then a else b); set (rest := k)
  end.
  assert (Hhook : exists dname u2 rm2 log2,
    hook (u1, (rm1, log1)) = (Ok dname, (u2, (rm2, log2)))
    /\ rm_flows rm2 = rm_flows rm1 /\ rm_pages rm2 = rm_pages rm1).
  { unfold hook. destruct (dispatcher_needed data).
    - erewrite bind_ok; [|reflexivity].
      destruct (upsert_webhook_run "Dispatcher" (dispatcher_url u1)
                  (dispatcher_headers (dispatcher_header u1)) u1 rm1 log1)
        as (n & u2 & rm2 & log2 & E2 & _ & _ & _ & _ & F2 & _ & P2 & _).
      rewrite (bind_ok _ _ _ _ _ E2).
      exists (Some n), u2, rm2, log2. split; [reflexivity|]. now split.
    - exists None, u1, rm1, log1. split; [reflexivity|]. now split. }
  destruct Hhook as (dname & u2 & rm2 & log2 & E2 & F2 & P2).
  rewrite (bind_ok _ _ _ _ _ E2). unfold rest. clear rest hook E2.
  rewrite (bind_ok _ _ _ _ _ (list_by_name_intents u2 rm2 log2)).
  assert (Hf2 : has_name F (rm_flows rm2) = true) by now rewrite F2.
  rewrite (bind_ok _ _ _ _ _ (list_by_name_pages F u2 rm2 _ Hf2)).
  assert (Hip : indexed (index_of (pages_of F (rm_pages rm2)))
                  (under F (page_entries (rm_pages rm2)))).
  { rewrite <- entries_pages_of. apply index_of_indexed. }
  match goal with
  | |- context [bind (for_each (d_pages data) (?idx, ?ids) _) _ (u2, (rm2, ?lg))] =>
      destruct (pages_loop_ok F (d_end_pages data) (d_pages data) idx ids u2 rm2 lg
                  Hf2 Hip)
        as (idxp & idsp & rm3 & log3 & newp & E3 & F3 & P3 & Hn3 & Hids3 & Hall3)
  end.
  { intros dn id H. rewrite lookup_empty in H. discriminate. }
  rewrite (bind_ok _ _ _ _ _ E3).
  assert (Hii : indexed (index_of (rm_intents rm2)) (entries (rm_intents rm3))).
  { destruct (pages_loop F (d_end_pages data) (d_pages data)
                (index_of (pages_of F (rm_pages rm2))) ∅ u2 rm2
                ((log2 ++ [list_request (AgentCollection "intents")])
                 ++ [list_request (FlowPages F)]) Hf2 Hip)
      as (idxp' & idsp' & rm3' & log3' & newp' & E3' & _ & _ & I3 & _).
    rewrite E3 in E3'. injection E3' as _ _ <- _.
    rewrite I3. apply index_of_indexed. }
  match goal with
  | |- context [bind (for_each (d_intents data) (?idx, ?ids) _) _ (u2, (rm3, ?lg))] =>
      destruct (intents_loop (d_intents data) idx ids u2 rm3 lg Hii)
        as (idxi & idsi & rm4 & log4 & newi & E4 & F4 & _ & P4 & _)
  end.
  rewrite (bind_ok _ _ _ _ _ E4). cbn [fst snd].
  destruct (routes_loop_ok idsi idsp dname F
              (fold_left group_step (d_routes data) []) u2 rm4 log4)
    as (rm5 & log5 & E5 & Hs5).
  { intros dn id H. rewrite P4. now apply Hids3. }
  rewrite (bind_ok _ _ _ _ _ E5).
  destruct (shape_components _ _ Hs5) as (S1 & _ & _ & S4).
  assert (Hf5 : has_name F (rm_flows rm5) = true).
  { rewrite (has_name_same_entries F _ (rm_flows rm2)); [exact Hf2|].
    now rewrite S1, F4, F3. }
  assert (Hpe5 : page_entries (rm_pages rm5) = page_entries (rm_pages rm) ++ newp).
  { now rewrite S4, P4, P3, P2, P1. }
  assert (Hstart : exists s5,
    (match d_first_page data with
     | Some first_page =>
         if truthy first_page then patch_flow_start_route F first_page else ret tt
     | None => ret tt
     end) (u2, (rm5, log5)) = (Ok tt, s5)).
  { destruct (d_first_page data) as [fp|] eqn:Efp; [|eexists; reflexivity].
    destruct (truthy fp); [|eexists; reflexivity].
    assert (Hin : In fp (display_names (pages_of F (rm_pages rm5)))).
    { rewrite display_names_entries, entries_pages_of, S4, P4.
      apply Hall3, Hfirst. reflexivity. }
    destruct (last_named fp (pages_of F (rm_pages rm5))) as [r|] eqn:El.
    2:{ apply last_named_None in El. contradiction. }
    destruct (last_named_Some _ _ _ El) as [Hr _].
    assert (Hname : res_name r <> "").
    { apply pages_of_names in Hr. rewrite Hpe5 in Hr.
      assert (Hall : Forall (fun e : string * (string * string) => fst (snd e) <> "")
                       (page_entries (rm_pages rm) ++ newp)).
      { now apply Forall_app. }
      rewrite List.Forall_forall in Hall. exact (Hall _ Hr). }
    destruct (start_route_outcome F fp u2 rm5 log5 Hf5) as [_ Hgo].
    destruct (Hgo r El Hname) as (rm6 & E6 & _). eexists. exact E6. }
  destruct Hstart as (s5 & E6). rewrite (bind_ok _ _ _ _ _ E6). reflexivity.
Qed.

(** X23: an upload against the service succeeds and reports the name of the
    flow, whenever the flow cache of the uploader is valid, the first page
    of the graph (if it has one) is one of its pages, and no page of the
    service has an empty name; this holds for every graph that
    [convert_single_csv] produces. *)
Theorem upload_succeeds (json_path : string) (flow_name : option string)
  (u : uploader) (rm : remote) (log : list request) :
  cache_valid u rm ->
  Forall (fun fp => res_name (snd fp) <> "") (rm_pages rm) ->
  (forall data,
      (forall fp, d_first_page data = Some fp ->
                  In fp (PyDict.keys (d_pages data))) ->
      fst (upload_single_flow json_path data flow_name (u, (rm, log)))
      = (true, flow_display_name json_path flow_name))
  /\ (forall csv_path df,
        fst (upload_single_flow json_path (convert_single_csv csv_path df)
               flow_name (u, (rm, log)))
        = (true, flow_display_name json_path flow_name)).
Proof.
  intros Hv Hnames.
  assert (Hpe : Forall (fun e : string * (string * string) => fst (snd e) <> "")
                  (page_entries (rm_pages rm))).
  { unfold page_entries. rewrite List.Forall_map. exact Hnames. }
  assert (Hgen : forall data,
    (forall fp, d_first_page data = Some fp ->
                In fp (PyDict.keys (d_pages data))) ->
    fst (upload_single_flow json_path data flow_name (u, (rm, log)))
    = (true, flow_display_name json_path flow_name)).
  { intros data Hfirst. unfold upload_single_flow.
    pose proof (upload_body_ok json_path data flow_name u rm log Hv Hfirst Hpe) as H.
    destruct (upload_flow_body json_path data flow_name (u, (rm, log)))
      as [[a|e] s']; cbn [fst] in *; [now injection H as -> | discriminate]. }
  split; [exact Hgen|]. intros csv_path df. apply Hgen. intros fp Hfp.
  destruct (convert_projections csv_path df) as (Ep & _ & Ef & _).
  destruct (after_rows_well_formed csv_path df) as [_ _ _ _ _ _ _ _ Hhead].
  destruct (after_rows_compiled csv_path df) as [_ I2 I3 _ _].
  rewrite Ep. rewrite Ef, Hhead in Hfp.
  assert (Hin : In fp (List.filter not_start_alias (row_pages (rows df)))).
  { destruct (List.filter not_start_alias (row_pages (rows df))) as [|x xs];
      [discriminate|]. injection Hfp as ->. now left. }
  apply filter_In in Hin as [Hin _].
  unfold row_pages in Hin. apply list_elem_of_In, list_elem_of_omap in Hin
    as (row & Hrow & E). apply list_elem_of_In in Hrow.
  apply I2, I3. now exists row.
Qed.

Lemma upload_succeeds_witness :
  fst (upload_single_flow "out/dialogflow_demo_flow.json"
         (convert_single_csv "flow.csv" two_entries_sheet) None demo_start)
  = (true, "Demo Flow").
Proof.
  destruct (upload_succeeds "out/dialogflow_demo_flow.json" None
              (new_uploader "t" "https://dispatch.example/hook" None)
              empty_agent []) as [_ H].
  - intros dn id Hc. vm_compute in Hc. discriminate.
  - constructor.
  - exact (H "flow.csv" two_entries_sheet).
Defined.

(** * The content of the pages *)

Definition chips_of (g : graph) (p : string) : list string :=
  match PyDict.get p (d_pages g) with
  | Some pg => pg_chips pg
  | None => []
  end.

Lemma append_all_In xs c : forall l,
  In c (fold_left append_new xs l) <-> In c l \/ In c xs.
Proof.
  induction xs as [|x xs IH]; intros l; simpl; [tauto|].
  rewrite IH, append_new_In. intuition congruence.
Qed.

Lemma update_page_chips g page bot chips info :
  let g' := update_page g page bot chips info in
  (forall q, q <> page -> chips_of g' q = chips_of g q)
  /\ chips_of g' page = fold_left append_new chips (chips_of g page).
Proof.
  unfold update_page, chips_of.
  pose proof (fun q => get_setdefault_other page q
    {| pg_prompts := []; pg_chips := []; pg_metadata := [] |} (d_pages g)) as Ho.
  unfold PyDict.setdefault in *.
  destruct (PyDict.get page (d_pages g)) as [pg|] eqn:E; simpl in *.
  - split.
    + intros q Hq. now rewrite get_set_other.
    + now rewrite get_set_same.
  - split.
    + intros q Hq. now rewrite !get_set_other.
    + now rewrite get_set_same.
Qed.

Lemma prompts_after_In old bot b :
  (forall x, bot = Some x -> truthy x = true) ->
  In b (prompts_after old bot) <-> In b old \/ bot = Some b.
Proof.
  intros Ht. unfold prompts_after. destruct bot as [x|].
  - rewrite (Ht x eq_refl), append_new_In. intuition congruence.
  - intuition congruence.
Qed.

(** The invariant of the loop over the rows, for the prompts and the chips
    of the pages. *)
Record content (seen : list (gmap string cell)) (st : cstate) : Prop := {
  ct_prompts :
    forall p b, In b (prompts_of (data st) p) <->
      exists row, In row seen /\ row_page row = Some p /\ row_prompt row = Some b;
  ct_chips :
    forall p c, In c (chips_of (data st) p) <->
      exists row, In row seen /\ row_page row = Some p /\ In c (row_chips row)
}.

Lemma content_initial path df :
  content [] {| data := initial_data path df;
                pages_with_routes := ∅; all_pages := ∅ |}.
Proof.
  constructor; intros p x; simpl; (split; [tauto|]); intros (row & [] & _).
Qed.

Lemma exists_snoc {A} (P : A -> Prop) (l : list A) (x : A) :
  (exists y, In y (l ++ [x]) /\ P y) <-> (exists y, In y l /\ P y) \/ P x.
Proof.
  split.
  - intros (y & Hin & Hy). apply in_app_iff in Hin as [Hin|[<-|[]]];
      [left; now exists y | now right].
  - intros [(y & Hin & Hy)|Hx].
    + exists y. rewrite in_app_iff. tauto.
    + exists x. rewrite in_app_iff. simpl. tauto.
Qed.

Lemma content_step hs hns seen st i row :
  content seen st -> content (seen ++ [row]) (process_row hs hns st (i, row)).
Proof.
  intros [Cp Cc].
  destruct (row_page row) as [page|] eqn:Ep.
  2:{ rewrite (process_row_skip _ _ _ _ _ Ep). constructor; intros p x.
      - rewrite Cp, exists_snoc. split; [tauto|]. intros [H|[H _]]; [exact H|].
        congruence.
      - rewrite Cc, exists_snoc. split; [tauto|]. intros [H|[H _]]; [exact H|].
        congruence. }
  destruct (process_row_spec hs hns st i row page Ep)
    as (new0 & _ & _ & _ & _ & _ & Ho & Hpp & _).
  destruct (process_row_tables hs hns st i row page Ep)
    as (g1 & info & pwr & inr & ue & ps & Hg1 & Hpg & _).
  destruct (update_page_chips g1 page (row_prompt row) (row_chips row) info)
    as [Hco Hcp].
  set (st' := process_row hs hns st (i, row)) in *.
  assert (Ec : forall q, chips_of (data st') q
                         = chips_of (update_page g1 page (row_prompt row)
                                       (row_chips row) info) q).
  { intros q. unfold chips_of. now rewrite Hpg. }
  assert (Eg : forall q, chips_of g1 q = chips_of (data st) q).
  { intros q. unfold chips_of. now rewrite Hg1. }
  constructor; intros p x; rewrite exists_snoc.
  - destruct (String.eqb_spec p page) as [->|Hne].
    + rewrite Hpp, prompts_after_In, Cp.
      * split; [intros [H|H]; [now left | right; now split]|].
        intros [H|[_ H]]; [now left | now right].
      * intros b Hb. exact (sanitize_truthy _ _ Hb).
    + rewrite (Ho p Hne), Cp. split; [tauto|].
      intros [H|[H _]]; [exact H | congruence].
  - rewrite Ec. destruct (String.eqb_spec p page) as [->|Hne].
    + rewrite Hcp, append_all_In, Eg, Cc.
      split; [intros [H|H]; [now left | right; now split]|].
      intros [H|[_ H]]; [now left | now right].
    + rewrite (Hco p Hne), Eg, Cc. split; [tauto|].
      intros [H|[H _]]; [exact H | congruence].
Qed.

Lemma content_rows hs hns irs : forall seen st,
  content seen st ->
  content (seen ++ map snd irs) (fold_left (process_row hs hns) irs st).
Proof.
  induction irs as [|[i row] irs IH]; intros seen st H; simpl.
  - now rewrite app_nil_r.
  - replace (seen ++ row :: map snd irs) with ((seen ++ [row]) ++ map snd irs)
      by now rewrite <- app_assoc.
    apply IH, content_step, H.
Qed.

Lemma after_rows_content path df : content (rows df) (after_rows path df).
Proof.
  unfold after_rows.
  rewrite <- (map_snd_enumerate (rows df) 0) at 1.
  apply (content_rows _ _ _ []), content_initial.
Qed.

(** X24: the prompts of a page of the compiled graph are exactly the bot
    prompts of the rows of that page, and its chips are exactly the chips of
    those rows; a row whose chips cell is missing contributes the chip
    [nan], because [parse_chips] reads the missing value through [str]. *)
Theorem page_content_from_rows (csv_path : string) (df : dataframe) (p : string) :
  let g := convert_single_csv csv_path df in
  (forall b, In b (prompts_of g p) <->
     exists row, In row (rows df) /\ row_page row = Some p
                 /\ row_prompt row = Some b)
  /\ (forall c, In c (chips_of g p) <->
        exists row, In row (rows df) /\ row_page row = Some p
                    /\ In c (row_chips row))
  /\ (forall row, row_get row "Suggested Chips" = NaN -> row_chips row = ["nan"]).
Proof.
  cbv zeta. destruct (convert_projections csv_path df) as (Ep & _).
  destruct (after_rows_content csv_path df) as [Cp Cc].
  unfold prompts_of, chips_of in *. rewrite Ep. split; [apply Cp|].
  split; [apply Cc|]. intros row H. unfold row_chips. rewrite H.
  vm_compute. reflexivity.
Qed.

(** * Creating the dispatcher webhook *)

(** The headers of a map as a JSON object: every pair of the map, in its
    order. *)
Definition request_headers (hm : PyDict.dict string) : json :=
  JObj (map (fun kv => (fst kv, JStr (snd kv))) hm).

(** The [genericWebService] of a webhook: the URI, followed by the request
    headers when a map with at least one pair is given. *)
Definition web_service (uri : string) (headers_map : option (PyDict.dict string))
  : json :=
  match headers_map with
  | None => JObj [("uri", JStr uri)]
  | Some hm =>
      if length hm =? 0 then JObj [("uri", JStr uri)]
      else JObj [("uri", JStr uri); ("requestHeaders", request_headers hm)]
  end.

Lemma upsert_webhook_service uri headers_map :
  JObj (match headers_map with
        | Some ((_ :: _) as h) =>
            [("uri", JStr uri);
             ("requestHeaders", JObj (map (fun kv => (fst kv, JStr (snd kv))) h))]
        | _ => [("uri", JStr uri)]
        end)
  = web_service uri headers_map.
Proof. now destruct headers_map as [[|kv hm]|]. Qed.

(** X25: [upsert_webhook] for a name and URI that are not in the cache, when
    no webhook of the service has the display name: after the listing it
    creates exactly one webhook, with that display name and a generic web
    service that holds the URI and, only when a non-empty header map is
    given, the request headers, which are all the pairs of the map; the
    identifier goes into the cache under the name and the URI, and a second
    call returns it without sending anything.  The header map of the
    dispatcher is one pair, the trimmed texts around the first equals sign of
    the configured header, and there is none when the header has no equals
    sign. *)
Theorem upsert_webhook_creates_once (display_name uri : string)
  (headers_map : option (PyDict.dict string)) (u : uploader) (rm : remote)
  (log : list request) :
  cache_webhooks u !! (display_name +:+ "::" +:+ uri) = None ->
  ~ In display_name (display_names (rm_webhooks rm)) ->
  (exists id r,
     let u' := set_cache_webhooks u
                 (<[display_name +:+ "::" +:+ uri := id]> (cache_webhooks u)) in
     let rm' := {| rm_flows := rm_flows rm; rm_webhooks := rm_webhooks rm ++ [r];
                   rm_intents := rm_intents rm; rm_pages := rm_pages rm;
                   rm_counter := S (rm_counter rm) |} in
     let sent :=
       [list_request (AgentCollection "webhooks");
        mk_request POST (AgentCollection "webhooks") None
          (Some (JObj [("displayName", JStr display_name);
                       ("genericWebService", web_service uri headers_map)]))] in
     upsert_webhook display_name uri headers_map (u, (rm, log))
     = (Ok id, (u', (rm', log ++ sent)))
     /\ res_name r = id /\ res_display r = display_name
     /\ res_fields r = [("genericWebService", web_service uri headers_map)]
     /\ upsert_webhook display_name uri headers_map (u', (rm', log ++ sent))
        = (Ok id, (u', (rm', log ++ sent))))
  /\ (forall header hm,
        dispatcher_headers header = Some hm ->
        exists h k v, header = Some h /\ split1 "="%char h = Some (k, v)
                      /\ hm = [(strip k, strip v)])
  /\ (forall h, contains "="%char h = false -> dispatcher_headers (Some h) = None)
  /\ (forall k v rest,
        web_service uri (Some ((k, v) :: rest))
        = JObj [("uri", JStr uri);
                ("requestHeaders",
                 JObj ((k, JStr v) :: map (fun kv => (fst kv, JStr (snd kv))) rest))])
  /\ web_service uri (Some []) = JObj [("uri", JStr uri)]
  /\ web_service uri None = JObj [("uri", JStr uri)]
  /\ web_service uri (dispatcher_headers (Some "X-Api-Key = secret"))
     = JObj [("uri", JStr uri);
             ("requestHeaders", JObj [("X-Api-Key", JStr "secret")])].
Proof.
  intros Hc Hn. split; [|split; [|split; [|split_conj; reflexivity]]].
  - unfold upsert_webhook at 1. rewrite upsert_webhook_service. set (key := display_name +:+ "::" +:+ uri) in *.
    erewrite bind_ok; [|reflexivity]. rewrite Hc.
    rewrite (bind_ok _ _ _ _ _ (list_by_name_webhooks u rm log)).
    set (log1 := log ++ [list_request (AgentCollection "webhooks")]).
    rewrite index_of_lookup.
    apply last_named_None in Hn. rewrite Hn. cbn [fmap option_fmap option_map].
    set (r := {| res_name := fresh_name "webhooks" rm; res_display := display_name;
                 res_fields := [("genericWebService",
                                 web_service uri headers_map)] |}).
    pose proof (api_request_ok POST (AgentCollection "webhooks") None
                  (Some (JObj [("displayName", JStr display_name);
                               ("genericWebService", web_service uri headers_map)]))
                  u rm log1) as Ha.
    cbv zeta in Ha.
    assert (Hs : serve (mk_request POST (AgentCollection "webhooks") None
                          (Some (JObj [("displayName", JStr display_name);
                                       ("genericWebService",
                                        web_service uri headers_map)]))) rm
                 = (ok_response (item_json r),
                    {| rm_flows := rm_flows rm; rm_webhooks := rm_webhooks rm ++ [r];
                       rm_intents := rm_intents rm; rm_pages := rm_pages rm;
                       rm_counter := S (rm_counter rm) |})) by reflexivity.
    rewrite Hs in Ha. specialize (Ha eq_refl). cbn [fst snd] in Ha.
    erewrite bind_ok; [|erewrite bind_ok; [|exact Ha]; reflexivity].
    erewrite bind_ok; [|reflexivity].
    exists (res_name r), r. cbv zeta. split.
    { unfold log1. rewrite <- app_assoc. reflexivity. }
    split_conj; try reflexivity.
    unfold upsert_webhook. fold key. erewrite bind_ok; [|reflexivity].
    cbn [cache_webhooks set_cache_webhooks]. now rewrite lookup_insert_eq.
  - intros header hm. unfold dispatcher_headers.
    destruct header as [h|]; [|discriminate].
    destruct (truthy h && contains "="%char h); [|discriminate].
    destruct (split1 "="%char h) as [[k v]|] eqn:Es; [|discriminate].
    intros [= <-]. now exists h, k, v.
  - intros h Hh. unfold dispatcher_headers. now rewrite Hh, andb_false_r.
Qed.

Lemma upsert_webhook_creates_once_witness :
  snd (snd (snd (upsert_webhook "Dispatcher" "https://dispatch.example/hook"
                   (dispatcher_headers (Some "X-Api-Key = secret"))
                   (new_uploader "t" "https://dispatch.example/hook"
                      (Some "X-Api-Key = secret"), (empty_agent, [])))))
  = [list_request (AgentCollection "webhooks");
     mk_request POST (AgentCollection "webhooks") None
       (Some (JObj [("displayName", JStr "Dispatcher");
                    ("genericWebService",
                     JObj [("uri", JStr "https://dispatch.example/hook");
                           ("requestHeaders",
                            JObj [("X-Api-Key", JStr "secret")])])]))].
Proof.
  destruct (upsert_webhook_creates_once "Dispatcher" "https://dispatch.example/hook"
              (dispatcher_headers (Some "X-Api-Key = secret"))
              (new_uploader "t" "https://dispatch.example/hook"
                 (Some "X-Api-Key = secret"))
              empty_agent [] eq_refl)
    as [(id & r & H & _) (_ & _ & _ & _ & _ & Hw)].
  - simpl. tauto.
  - cbv zeta in H. rewrite H. cbn [snd app]. now rewrite Hw.
Defined.

(** * An upload against an endpoint that is down *)

(** X26: when every request fails in the transport and the flow is not in
    the cache, [upload_single_flow] raises nothing: it reports failure with
    the message of the transport failure, after the three attempts of its
    first request (the listing of the flows), and the uploader is left as it
    was, with nothing cached. *)
Theorem upload_reports_dead_endpoint (json_path : string) (data : graph)
  (flow_name : option string) (u : uploader) (detail : string) :
  cache_flows u !! flow_display_name json_path flow_name = None ->
  upload_single_flow json_path data flow_name (u, always (Failed detail))
  = ((false, detail),
     (u, {| answers := fun _ => Failed detail;
            trace := [Requested (headers u); Slept 2; Requested (headers u);
                      Slept 4; Requested (headers u)] |})).
Proof.
  intros Hc.
  assert (E : upload_flow_body json_path data flow_name (u, always (Failed detail))
    = (Raise (ConnectionError detail),
       (u, {| answers := fun _ => Failed detail;
              trace := [Requested (headers u); Slept 2; Requested (headers u);
                        Slept 4; Requested (headers u)] |}))).
  { unfold upload_flow_body. cbv zeta.
    fold (flow_display_name json_path flow_name).
    apply bind_raise.
    unfold upsert_flow. erewrite bind_ok; [|reflexivity]. rewrite Hc.
    apply bind_raise. unfold list_by_name. apply bind_raise.
    apply api_request_transport_failure. }
  unfold upload_single_flow. now rewrite E.
Qed.

Lemma upload_reports_dead_endpoint_witness :
  fst (upload_single_flow "out/dialogflow_demo_flow.json" demo_graph None
         (new_uploader "t" "https://dispatch.example/hook" None,
          always (Failed "connection refused")))
  = (false, "connection refused").
Proof.
  rewrite (upload_reports_dead_endpoint "out/dialogflow_demo_flow.json" demo_graph
             None (new_uploader "t" "https://dispatch.example/hook" None)
             "connection refused"); reflexivity.
Defined.

(** * The training phrases of the chip intents *)

Definition phrases_of (its : PyDict.dict (list string)) (n : string) : list string :=
  default [] (PyDict.get n its).

Definition row_intent_raw (row : gmap string cell) : option string :=
  sanitize (row_get row "Intent Name").

Definition row_example (row : gmap string cell) : option string :=
  snd (parse_trigger_and_example
         (sanitize (row_get row "Trigger Type & User Example"))).

(** The name of the intent of chip [c] on a row of page [p]. *)
Definition chip_intent (row : gmap string cell) (p c : string) : string :=
  or_else (row_intent_raw row) ("Intent_" +:+ slugify p) +:+ " :: " +:+ c.

Lemma add_phrases_get name phrases its n :
  phrases_of (add_phrases name phrases its) n =
    if String.eqb n name
    then fold_left append_new phrases (phrases_of its name)
    else phrases_of its n.
Proof.
  unfold add_phrases, phrases_of, PyDict.setdefault.
  destruct (String.eqb_spec n name) as [->|Hne].
  - destruct (PyDict.get name its) as [tp|] eqn:E; rewrite get_set_same;
      reflexivity.
  - destruct (PyDict.get name its) as [tp|] eqn:E;
      rewrite ?get_set_other by exact Hne; reflexivity.
Qed.

Lemma add_phrases_mono name phrases its n x :
  In x (phrases_of its n) -> In x (phrases_of (add_phrases name phrases its) n).
Proof.
  intros H. rewrite add_phrases_get.
  destruct (String.eqb_spec n name) as [->|Hne]; [|exact H].
  apply append_all_In. now left.
Qed.

Lemma add_phrases_holds name phrases its x :
  In x phrases -> In x (phrases_of (add_phrases name phrases its) name).
Proof.
  intros H. rewrite add_phrases_get, String.eqb_refl.
  apply append_all_In. now right.
Qed.

Lemma chip_step_intents page inr ue nps tag ps st0 i chip :
  cl_intents (chip_step page inr ue nps tag ps st0 (i, chip))
  = add_phrases (or_else inr ("Intent_" +:+ slugify page) +:+ " :: " +:+ chip)
      (chip :: example_phrase ue) (cl_intents st0).
Proof.
  unfold chip_step, or_else.
  now destruct (if i <? length nps then nth i nps None else nth 0 nps None).
Qed.

Lemma chip_loop_phrases page inr ue nps tag ps ics : forall st0,
  let res := fold_left (chip_step page inr ue nps tag ps) ics st0 in
  (forall n x, In x (phrases_of (cl_intents st0) n) ->
               In x (phrases_of (cl_intents res) n))
  /\ (forall ic x, In ic ics -> In x (snd ic :: example_phrase ue) ->
        In x (phrases_of (cl_intents res)
                (or_else inr ("Intent_" +:+ slugify page) +:+ " :: " +:+ snd ic))).
Proof.
  induction ics as [|[i chip] ics IH]; intros st0; cbn [fold_left].
  - split; [auto|]. intros ic x [].
  - destruct (IH (chip_step page inr ue nps tag ps st0 (i, chip))) as [Hm Hh].
    cbv zeta in Hm, Hh. rewrite chip_step_intents in Hm. split.
    + intros n x H. apply Hm. now apply add_phrases_mono.
    + intros ic x [<-|Hin] Hx; [|now apply Hh].
      apply Hm. cbn [snd]. now apply add_phrases_holds.
Qed.

Lemma in_enumerate {A} (l : list A) c : forall i,
  In c l -> exists j, In (j, c) (enumerate_from i l).
Proof.
  induction l as [|x l IH]; intros i; [intros []|].
  intros [->|H]; [exists i; now left|].
  destruct (IH (S i) H) as (j & Hj). exists j. now right.
Qed.

Lemma emit_routes_phrases intents routes pwr i page inr ue nps tag ps chips :
  let res := emit_routes intents routes pwr i page inr ue nps tag ps chips in
  (forall n x, In x (phrases_of intents n) -> In x (phrases_of (cl_intents res) n))
  /\ (forall c x, In c chips -> In x (c :: example_phrase ue) ->
        In x (phrases_of (cl_intents res)
                (or_else inr ("Intent_" +:+ slugify page) +:+ " :: " +:+ c))).
Proof.
  unfold emit_routes. destruct chips as [|c0 chips].
  - split; [|intros c x []]. intros n x H.
    destruct (nth 0 nps None); cbn [cl_intents]; now apply add_phrases_mono.
  - destruct (chip_loop_phrases page inr ue nps tag ps
                (enumerate_from 0 (c0 :: chips))
                {| cl_intents := intents; cl_routes := routes;
                   cl_pages_with_routes := pwr; cl_has_valid_route := false |})
      as [Hm Hh].
    split; [exact Hm|]. intros c x Hc Hx.
    destruct (in_enumerate (c0 :: chips) c 0 Hc) as (j & Hj).
    exact (Hh (j, c) x Hj Hx).
Qed.

Lemma process_row_intents hs hns st i row page :
  row_page row = Some page ->
  exists routes pwr nps tag ps,
    d_intents (data (process_row hs hns st (i, row)))
    = cl_intents (emit_routes (d_intents (data st)) routes pwr i page
                    (row_intent_raw row) (row_example row) nps tag ps
                    (row_chips row)).
Proof.
  intros Hp. unfold row_page in Hp.
  unfold process_row, row_chips, row_intent_raw, row_example. rewrite Hp.
  rewrite (sanitize_truthy _ _ Hp). cbv zeta.
  change (negb true) with false. cbv iota.
  set (raw := sanitize (row_get row "Webhook Action")).
  set (bot := sanitize (row_get row "Bot Prompt")).
  set (chips := parse_chips (row_get row "Suggested Chips")).
  set (g1 := note_webhook (data st) raw (row_webhook_tag raw)).
  set (g2 := update_page g1 page bot chips (row_step_info hs hns row)).
  set (g3 := note_first_page g2 page).
  destruct (note_webhook_frame (data st) raw (row_webhook_tag raw))
    as (_ & W2 & _). fold g1 in W2.
  destruct (update_page_frame g1 page bot chips (row_step_info hs hns row))
    as (U1 & _). fold g2 in U1.
  destruct (note_first_page_frame g2 page) as (_ & F2 & _). fold g3 in F2.
  match goal with
  | |- context [mark_end_state ?a ?b ?c ?d] =>
      destruct (mark_end_state_frame a b c d) as (_ & M2 & _);
      set (g5 := mark_end_state a b c d) in *
  end.
  cbn [data]. cbn [set_routes set_intents d_intents] in M2.
  rewrite M2, F2, U1, W2. do 5 eexists. reflexivity.
Qed.

(** The invariant of the loop over the rows, for the phrases of the chip
    intents. *)
Definition phrased (seen : list (gmap string cell)) (st : cstate) : Prop :=
  forall row p c x,
    In row seen -> row_page row = Some p -> In c (row_chips row) ->
    In x (c :: example_phrase (row_example row)) ->
    In x (phrases_of (d_intents (data st)) (chip_intent row p c)).

Lemma phrased_step hs hns seen st i row :
  phrased seen st -> phrased (seen ++ [row]) (process_row hs hns st (i, row)).
Proof.
  intros H. destruct (row_page row) as [page|] eqn:Ep.
  2:{ rewrite (process_row_skip _ _ _ _ _ Ep). intros row' p c x Hin Hp.
      apply in_app_iff in Hin as [Hin|[<-|[]]]; [now apply H | congruence]. }
  destruct (process_row_intents hs hns st i row page Ep)
    as (routes & pwr & nps & tag & ps & E).
  destruct (emit_routes_phrases (d_intents (data st)) routes pwr i page
              (row_intent_raw row) (row_example row) nps tag ps (row_chips row))
    as [Hm Hh].
  rewrite <- E in Hm, Hh.
  intros row' p c x Hin Hp Hc Hx.
  apply in_app_iff in Hin as [Hin|[<-|[]]].
  - apply Hm. now apply H.
  - assert (p = page) as -> by congruence. unfold chip_intent. now apply Hh.
Qed.

Lemma phrased_rows hs hns irs : forall seen st,
  phrased seen st ->
  phrased (seen ++ map snd irs) (fold_left (process_row hs hns) irs st).
Proof.
  induction irs as [|[i row] irs IH]; intros seen st H; simpl.
  - now rewrite app_nil_r.
  - replace (seen ++ row :: map snd irs) with ((seen ++ [row]) ++ map snd irs)
      by now rewrite <- app_assoc.
    apply IH, phrased_step, H.
Qed.

Lemma after_rows_phrased path df : phrased (rows df) (after_rows path df).
Proof.
  unfold after_rows.
  rewrite <- (map_snd_enumerate (rows df) 0) at 1.
  apply (phrased_rows _ _ _ []). intros row p c x [].
Qed.

(** X27: for every chip of every row that has a page name, the compiled
    graph has the intent named after the row's intent name (or, without one,
    after the slug of the page) and the chip; the chip is one of its training
    phrases, and so is the row's user example when it has a non-empty one. *)
Theorem chips_are_training_phrases (csv_path : string) (df : dataframe)
  (row : gmap string cell) (p c : string) :
  In row (rows df) -> row_page row = Some p -> In c (row_chips row) ->
  let its := d_intents (convert_single_csv csv_path df) in
  In (chip_intent row p c) (PyDict.keys its)
  /\ In c (phrases_of its (chip_intent row p c))
  /\ (forall e, row_example row = Some e -> e <> "" ->
        In e (phrases_of its (chip_intent row p c))).
Proof.
  intros Hrow Hp Hc. cbv zeta. rewrite convert_intents.
  pose proof (after_rows_phrased csv_path df row p c) as H.
  assert (Hchip : In c (phrases_of (d_intents (data (after_rows csv_path df)))
                          (chip_intent row p c))).
  { apply H; try assumption. now left. }
  split; [|split; [exact Hchip|]].
  - apply keys_get. unfold phrases_of in Hchip.
    destruct (PyDict.get _ _); [discriminate | contradiction].
  - intros e He Hne. apply H; try assumption. right.
    rewrite He. unfold example_phrase. apply truthy_true in Hne. rewrite Hne.
    now left.
Qed.

(** A sheet with one row that offers two chips. *)
Definition chips_sheet : dataframe :=
  {| columns := ["Page Name"; "Bot Prompt"; "Suggested Chips";
                 "Next Page / Transition"];
     rows := [ text_row [("Page Name", "Menu"); ("Bot Prompt", "Pick one");
                         ("Suggested Chips", "Yes;No");
                         ("Next Page / Transition", "Goodbye")] ] |}.

Lemma chips_are_training_phrases_witness :
  In "No" (phrases_of (d_intents (convert_single_csv "flow.csv" chips_sheet))
             "Intent_menu :: No").
Proof.
  destruct (chips_are_training_phrases "flow.csv" chips_sheet
              (text_row [("Page Name", "Menu"); ("Bot Prompt", "Pick one");
                         ("Suggested Chips", "Yes;No");
                         ("Next Page / Transition", "Goodbye")]) "Menu" "No")
    as (_ & H & _).
  - simpl. tauto.
  - vm_compute. reflexivity.
  - vm_compute. tauto.
  - exact H.
Defined.
